(** * Air-cargo booking and tracking: booking lifecycle, reference ids, route finder

    A shallow embedding of

      - [backend/models/Booking.js]            (schema, the two pre-save hooks),
      - [backend/controllers/bookingController.js] (create / depart / arrive /
        cancel / history and [findBookingByIdentifier]),
      - [backend/routes/bookingRoutes.js]      (the lookup of the GET route),
      - [backend/controllers/routeController.js]   (direct and one-stop routes),

    together with the JavaScript and MongoDB primitives these files rely on.

    Conventions.
      - A JavaScript string is a [string]; the model covers ASCII text (letters
        outside a-z are left alone by [toUpperCase], white space is the ASCII
        white space).
      - A JavaScript number that holds an integer is a [Z]; [NaN] is [None].
        Numbers are IEEE-754 doubles: what [parseInt] reads and what [+]
        gives is rounded to the nearest double ([toNumber]), which changes
        nothing up to 2^53. Overflow to [Infinity] (from 2^1024 on) is not
        modelled, and [Number_toString] prints the digits of the integer,
        as JavaScript does for magnitudes up to 2^53.
      - A [Date] is its epoch value in milliseconds, a [Z]; the reference-id
        hook reads [new Date()] through its UTC fields, and the route finder
        reads and sets local time through the time zone of the server, a
        [Zone]: the offset in force at an instant and the offset a local
        time is read with.
      - A MongoDB collection is the list of its documents in natural order.
      - [async] control flow is sequential code over an explicit database
        state; concurrent requests are interleavings of the database
        operations each request issues (module [Race]).
      - [populate], logging and the [createdAt]/[updatedAt] stamps of mongoose
        change no field the properties below speak of, and are left out. *)

From Stdlib Require Import ZArith List Bool Ascii String Lia.
From Stdlib Require Import Sorting.Sorted Sorting.Permutation.
Import ListNotations.

Local Open Scope string_scope.
Local Open Scope Z_scope.

(** ** JavaScript string and number primitives *)

Module JS.

Definition code (c : ascii) : Z := Z.of_N (N_of_ascii c).

Definition is_lower (c : ascii) : bool := (97 <=? code c) && (code c <=? 122).

Definition upper_char (c : ascii) : ascii :=
  if is_lower c then ascii_of_N (Z.to_N (code c - 32)) else c.

(** [String.prototype.toUpperCase]. *)
Fixpoint toUpperCase (s : string) : string :=
  match s with
  | EmptyString => EmptyString
  | String c r => String (upper_char c) (toUpperCase r)
  end.

(** White space as [trim] and [parseInt] see it: TAB, LF, VT, FF, CR, SP. *)
Definition is_ws (c : ascii) : bool :=
  ((9 <=? code c) && (code c <=? 13)) || (code c =? 32).

Fixpoint trimStart (s : string) : string :=
  match s with
  | EmptyString => EmptyString
  | String c r => if is_ws c then trimStart r else s
  end.

Fixpoint trimEnd (s : string) : string :=
  match s with
  | EmptyString => EmptyString
  | String c r =>
      match trimEnd r with
      | EmptyString => if is_ws c then EmptyString else String c EmptyString
      | r' => String c r'
      end
  end.

(** A string that starts with a character that is not white space. *)
Definition starts_solid (s : string) : Prop :=
  match s with
  | EmptyString => True
  | String c _ => is_ws c = false
  end.

(** [String.prototype.trim]. *)
Definition trim (s : string) : string := trimEnd (trimStart s).

(** [s.startsWith(p)], also the match of the anchored regular expression
    [^p] when [p] holds no regular-expression operator. *)
Definition startsWith (p s : string) : bool := String.prefix p s.

(** [s.split(sep)] for a one-character separator. *)
Fixpoint split (sep : ascii) (s : string) : list string :=
  match s with
  | EmptyString => [EmptyString]
  | String c r =>
      if Ascii.eqb c sep then EmptyString :: split sep r
      else match split sep r with
           | [] => [String c EmptyString]
           | p :: ps => String c p :: ps
           end
  end.

(** [s.replace(/c/g, '')]: every occurrence of the character removed. *)
Fixpoint removeAll (c : ascii) (s : string) : string :=
  match s with
  | EmptyString => EmptyString
  | String d r => if Ascii.eqb d c then removeAll c r else String d (removeAll c r)
  end.

(** Value of a character as a digit in the given radix. *)
Definition digit_val (radix : Z) (c : ascii) : option Z :=
  let n := code c in
  let d := if (48 <=? n) && (n <=? 57) then Some (n - 48)
           else if (97 <=? n) && (n <=? 122) then Some (n - 87)
           else if (65 <=? n) && (n <=? 90) then Some (n - 55)
           else None in
  match d with
  | Some v => if v <? radix then Some v else None
  | None => None
  end.

(** The longest prefix of digits, read in the radix; [acc] is [None] until a
    digit has been seen. *)
Fixpoint parse_digits (radix : Z) (s : string) (acc : option Z) : option Z :=
  match s with
  | EmptyString => acc
  | String c r =>
      match digit_val radix c with
      | Some d =>
          parse_digits radix r
            (Some (radix * match acc with Some a => a | None => 0 end + d))
      | None => acc
      end
  end.

(** An optional sign in front of the digits. *)
Definition strip_sign (s : string) : Z * string :=
  match s with
  | String c r =>
      if Ascii.eqb c "-" then (-1, r)
      else if Ascii.eqb c "+" then (1, r)
      else (1, s)
  | EmptyString => (1, s)
  end.

(** An optional [0x] or [0X] in front of the digits selects radix 16. *)
Definition strip_hex_prefix (s : string) : Z * string :=
  match s with
  | String c (String x r) =>
      if Ascii.eqb c "0" && (Ascii.eqb x "x" || Ascii.eqb x "X") then (16, r)
      else (10, s)
  | _ => (10, s)
  end.

(** The greatest magnitude up to which every integer is a Number. *)
Definition two53 : Z := 9007199254740992.

(** The Number an integer denotes: the nearest double, a tie going to the
    even mantissa. Above 2^53 the 53 leading bits are kept and the rest is
    rounded away. *)
Definition toNumber (n : Z) : Z :=
  let a := Z.abs n in
  if a <=? two53 then n
  else
    let e := Z.log2 a - 52 in
    let q := a / 2 ^ e in
    let r := a mod 2 ^ e in
    let half := 2 ^ (e - 1) in
    let q' := if (r <? half) || ((r =? half) && Z.even q) then q else q + 1 in
    Z.sgn n * (q' * 2 ^ e).

(** The magnitudes below which a Number is finite; what rounds to 2^1024 or
    beyond is [Infinity] in JavaScript, which the model does not hold. *)
Definition finite (n : Z) : Prop := Z.abs n < 2 ^ 1024.

(** [a + b] on Numbers that hold integers. *)
Definition plus (a b : Z) : Z := toNumber (a + b).

(** [parseInt(s)] with no radix argument: leading white space skipped, an
    optional sign, an optional [0x]/[0X] prefix, then the longest run of
    digits, as a Number; [None] is [NaN]. *)
Definition parseInt (s : string) : option Z :=
  let '(sign, s2) := strip_sign (trimStart s) in
  let '(radix, s3) := strip_hex_prefix s2 in
  option_map (fun v => toNumber (sign * v)) (parse_digits radix s3 None).

Definition digit_char (d : Z) : ascii := ascii_of_N (Z.to_N (48 + d)).

(** Decimal digits of a non-negative integer, most significant first. *)
Fixpoint digits_of (fuel : nat) (n : Z) (acc : string) : string :=
  match fuel with
  | O => acc
  | S f =>
      let acc' := String (digit_char (n mod 10)) acc in
      if n <? 10 then acc' else digits_of f (n / 10) acc'
  end.

(** [Number.prototype.toString] on an integer: its decimal digits. (Past
    2^53 JavaScript prints the shortest digits that denote the same double,
    and exponent notation from 1e21 on.) *)
Definition Number_toString (n : Z) : string :=
  if n <? 0 then String "-"%char (digits_of (S (Z.to_nat (Z.log2 (- n)))) (- n) "")
  else digits_of (S (Z.to_nat (Z.log2 n))) n "".

Fixpoint repeat_char (c : ascii) (n : nat) : string :=
  match n with
  | O => EmptyString
  | S k => String c (repeat_char c k)
  end.

(** [s.padStart(target, c)] for a one-character filler. *)
Definition padStart (target : nat) (c : ascii) (s : string) : string :=
  repeat_char c (target - String.length s) ++ s.

(** The string holds no occurrence of the character. *)
Fixpoint lacks (c : ascii) (s : string) : bool :=
  match s with
  | EmptyString => true
  | String d r => negb (Ascii.eqb d c) && lacks c r
  end.

(** Strings in ascending code-unit order, the order MongoDB sorts strings in
    under the default (binary) collation. *)
Definition str_le (a b : string) : Prop := String.compare a b <> Gt.

End JS.

(** ** Data model ([models/Booking.js], [models/Flight.js]) *)

(** A store identifier ([mongoose.Types.ObjectId]) in its canonical form, 24
    lower-case hexadecimal characters. *)
Definition ObjectId := string.

Inductive Status := BOOKED | DEPARTED | ARRIVED | DELIVERED | CANCELLED.

Definition Status_eqb (a b : Status) : bool :=
  match a, b with
  | BOOKED, BOOKED | DEPARTED, DEPARTED | ARRIVED, ARRIVED
  | DELIVERED, DELIVERED | CANCELLED, CANCELLED => true
  | _, _ => false
  end.

Record TimelineEvent := mkEvent {
  event : Status;
  timestamp : Z;
  flightId : option ObjectId
}.

Record Booking := mkBooking {
  _id : ObjectId;
  ref_id : string;
  origin : string;
  destination : string;
  pieces : Z;
  weight_kg : Z;
  status : Status;
  flightIds : list ObjectId;
  timeline : list TimelineEvent
}.

Record Flight := mkFlight {
  flight_id : ObjectId;
  flightNumber : string;
  airlineName : string;
  departureDateTime : Z;
  arrivalDateTime : Z;
  flight_origin : string;
  flight_destination : string
}.

(** The two collections. *)
Record DB := mkDB {
  flights : list Flight;
  bookings : list Booking
}.

(** ** Reference-id allocation (first pre-save hook of [models/Booking.js]) *)

Module RefId.
Import JS.

(** The reading of [new Date()] through its UTC fields, which is all that
    [toISOString] looks at; [month] counts from 1 as the ISO text does. *)
Record UTCDate := mkUTC {
  year : Z; month : Z; day : Z;
  hours : Z; minutes : Z; seconds : Z; millis : Z
}.

Definition pad (w : nat) (n : Z) : string := padStart w "0"%char (Number_toString n).

(** [Date.prototype.toISOString]: [YYYY-MM-DDTHH:mm:ss.sssZ], the year widened
    to a sign and six digits outside 0..9999. *)
Definition toISOString (d : UTCDate) : string :=
  (if (0 <=? year d) && (year d <=? 9999) then pad 4 (year d)
   else String (if year d <? 0 then "-"%char else "+"%char) (pad 6 (Z.abs (year d))))
  ++ "-" ++ pad 2 (month d) ++ "-" ++ pad 2 (day d)
  ++ "T" ++ pad 2 (hours d) ++ ":" ++ pad 2 (minutes d) ++ ":" ++ pad 2 (seconds d)
  ++ "." ++ pad 3 (millis d) ++ "Z".

(** [today.toISOString().split('T')[0].replace(/-/g, '')]. *)
Definition dateStr (today : UTCDate) : string :=
  removeAll "-"%char (nth 0 (split "T"%char (toISOString today)) "").

Definition prefixOf (today : UTCDate) : string := "BOOK-" ++ dateStr today ++ "-".

(** The greater of the strings seen so far, in code-unit order. *)
Definition greater (acc : option string) (r : string) : option string :=
  match acc with
  | None => Some r
  | Some m => match String.compare m r with Lt => Some r | _ => Some m end
  end.

(** [findOne({ ref_id: { $regex: `^${prefix}` } }).sort({ ref_id: -1 })
    .select('ref_id')]: the greatest [ref_id] that starts with the prefix. *)
Definition findLastRefId (prefix : string) (bs : list Booking) : option string :=
  fold_left greater
    (map ref_id (filter (fun b => startsWith prefix (ref_id b)) bs)) None.

(** The sequence number of the new booking. *)
Definition nextSequence (last : option string) : Z :=
  match last with
  | Some rid =>
      match nth_error (split "-"%char rid) 2 with
      | Some seg =>
          match parseInt seg with
          | Some lastSequence => plus lastSequence 1
          | None => 1
          end
      | None => 1
      end
  | None => 1
  end.

(** The hook's value for [this.ref_id]. *)
Definition generateRefId (today : UTCDate) (bs : list Booking) : string :=
  let prefix := prefixOf today in
  let sequence := nextSequence (findLastRefId prefix bs) in
  let sequenceStr := padStart 6 "0"%char (Number_toString sequence) in
  prefix ++ sequenceStr.

(** The date as the hook can meet it. *)
Definition valid_date (d : UTCDate) : Prop :=
  0 <= year d <= 9999 /\ 1 <= month d <= 12 /\ 1 <= day d <= 31.

(** A non-empty run of decimal digits. *)
Fixpoint all_digits (s : string) : bool :=
  match s with
  | EmptyString => true
  | String c r => (48 <=? code c) && (code c <=? 57) && all_digits r
  end.

(** The number a run of decimal digits writes. *)
Fixpoint decimal_value_from (acc : Z) (s : string) : Z :=
  match s with
  | EmptyString => acc
  | String c r => decimal_value_from (10 * acc + (code c - 48)) r
  end.

Definition decimal_value (s : string) : Z := decimal_value_from 0 s.

End RefId.

(** ** MongoDB and mongoose primitives *)

Module Mongo.
Import JS.

(** What the controllers throw, one constructor per message. *)
Inductive Error :=
| BSONError                  (* [new ObjectId(s)] on a malformed string *)
| InvalidFlightIds           (* 'One or more flight IDs are invalid' *)
| ValidationFailed           (* mongoose validation of the document being saved *)
| DuplicateKey               (* unique index on [_id] or [ref_id] *)
| BookingNotFound            (* 'Booking not found' *)
| CannotDepart (s : Status)  (* 'Cannot depart booking with status: s' *)
| CannotArrive (s : Status)  (* 'Cannot arrive booking with status: s' *)
| CannotCancelArrived        (* 'Cannot cancel booking that has already ARRIVED' *)
| CannotCancel (s : Status)  (* 'Cannot cancel booking with status: s' *)
| UpdateFailed               (* 'Booking update failed. The booking may have been modified ...' *)
| CancellationFailed.        (* 'Booking cancellation failed. The booking may have been modified ...' *)

Inductive Result (A : Type) :=
| Ok (a : A)
| Err (e : Error).
Arguments Ok {A} a.
Arguments Err {A} e.

(** An [async] function over the database: it returns or throws, and leaves a
    database behind either way. *)
Definition M (A : Type) : Type := DB -> Result A * DB.

Definition ret {A} (a : A) : M A := fun db => (Ok a, db).
Definition throw {A} (e : Error) : M A := fun db => (Err e, db).
Definition bind {A B} (m : M A) (k : A -> M B) : M B :=
  fun db =>
    match m db with
    | (Ok a, db') => k a db'
    | (Err e, db') => (Err e, db')
    end.
Definition lift {A} (r : Result A) : M A := fun db => (r, db).

Definition is_hex (c : ascii) : bool :=
  ((48 <=? code c) && (code c <=? 57))
  || ((97 <=? code c) && (code c <=? 102))
  || ((65 <=? code c) && (code c <=? 70)).

Fixpoint forall_chars (p : ascii -> bool) (s : string) : bool :=
  match s with
  | EmptyString => true
  | String c r => p c && forall_chars p r
  end.

(** [mongoose.Types.ObjectId.isValid] on a string: 24 hexadecimal characters
    (the raw 12-byte form older drivers also take is not modelled). *)
Definition ObjectId_isValid (s : string) : bool :=
  Nat.eqb (String.length s) 24 && forall_chars is_hex s.

Definition lower_char (c : ascii) : ascii :=
  if (65 <=? code c) && (code c <=? 90) then ascii_of_N (Z.to_N (code c + 32)) else c.

Fixpoint toLowerCase (s : string) : string :=
  match s with
  | EmptyString => EmptyString
  | String c r => String (lower_char c) (toLowerCase r)
  end.

(** The identifier a valid string denotes. *)
Definition toObjectId (s : string) : ObjectId := toLowerCase s.

(** [new mongoose.Types.ObjectId(s)]. *)
Definition newObjectId (s : string) : Result ObjectId :=
  if ObjectId_isValid s then Ok (toObjectId s) else Err BSONError.

Fixpoint mapResult {A B} (f : A -> Result B) (l : list A) : Result (list B) :=
  match l with
  | [] => Ok []
  | a :: r =>
      match f a with
      | Ok b => match mapResult f r with Ok bs => Ok (b :: bs) | Err e => Err e end
      | Err e => Err e
      end
  end.

(** [l.includes(s)] on a list of statuses. *)
Definition includes (l : list Status) (s : Status) : bool := existsb (Status_eqb s) l.

(** [Flight.find({ _id: { $in: ids } })]. *)
Definition Flight_find_in (ids : list ObjectId) : M (list Flight) :=
  fun db => (Ok (filter (fun f => existsb (String.eqb (flight_id f)) ids) (flights db)), db).

(** [Booking.findById(oid)]. *)
Definition Booking_findById (oid : ObjectId) : M (option Booking) :=
  fun db => (Ok (find (fun b => String.eqb (_id b) oid) (bookings db)), db).

(** [Booking.findOne({ ref_id: r })]. *)
Definition Booking_findOne_ref_id (r : string) : M (option Booking) :=
  fun db => (Ok (find (fun b => String.eqb (ref_id b) r) (bookings db)), db).

(** The first document the filter matches is replaced by its update; the
    updated document is the result ([new: true]), [None] when none matches. *)
Fixpoint updateFirst (matches : Booking -> bool) (upd : Booking -> Booking)
    (bs : list Booking) : option Booking * list Booking :=
  match bs with
  | [] => (None, [])
  | b :: r =>
      if matches b then (Some (upd b), upd b :: r)
      else let '(o, r') := updateFirst matches upd r in (o, b :: r')
  end.

(** [{ $set: { status: s }, $push: { timeline: ev } }]. *)
Definition set_and_push (s : Status) (ev : TimelineEvent) (b : Booking) : Booking :=
  mkBooking (_id b) (ref_id b) (origin b) (destination b) (pieces b) (weight_kg b)
            s (flightIds b) (timeline b ++ [ev]).

(** [Booking.findOneAndUpdate({ _id: oid, status: { $in: expected } },
    { $set: { status: s }, $push: { timeline: ev } }, { new: true })]: one
    atomic conditional write. *)
Definition Booking_findOneAndUpdate (oid : ObjectId) (expected : list Status)
    (s : Status) (ev : TimelineEvent) : M (option Booking) :=
  fun db =>
    let '(o, bs') :=
      updateFirst (fun b => String.eqb (_id b) oid && includes expected (status b))
                  (set_and_push s ev) (bookings db) in
    (Ok o, mkDB (flights db) bs').

(** Insertion under the unique indexes on [_id] and [ref_id]. *)
Definition Booking_insert (b : Booking) : M Booking :=
  fun db =>
    if existsb (fun x => String.eqb (_id x) (_id b) || String.eqb (ref_id x) (ref_id b))
               (bookings db)
    then (Err DuplicateKey, db)
    else (Ok b, mkDB (flights db) (bookings db ++ [b])).

(** A stable sort, ascending in the key: [Array.prototype.sort] with the
    comparator [(a, b) => key(a) - key(b)], and a query's [.sort({ key: 1 })]. *)
Fixpoint insert_by {A} (key : A -> Z) (x : A) (l : list A) : list A :=
  match l with
  | [] => [x]
  | y :: r => if key x <=? key y then x :: y :: r else y :: insert_by key x r
  end.

Definition sort_by {A} (key : A -> Z) (l : list A) : list A :=
  fold_right (insert_by key) [] l.

End Mongo.

(** ** The booking lifecycle ([models/Booking.js] hooks,
    [controllers/bookingController.js]) *)

Module Lifecycle.
Import JS Mongo.

Declare Scope m_scope.
Delimit Scope m_scope with m.
Notation "x <- c ;; k" := (bind c (fun x => k))
  (at level 61, c at next level, right associativity) : m_scope.
Local Open Scope m_scope.

(** The request body of a creation, each number in the text form [parseInt]
    reads it in. *)
Record BookingData := mkData {
  bd_origin : string;
  bd_destination : string;
  bd_pieces : string;
  bd_weight_kg : string;
  bd_flightIds : list string
}.

(** What the environment supplies to a [save]: the fresh [_id] chosen by
    [new Booking], and the two readings of [new Date()] in the hooks. *)
Record SaveEnv := mkEnv {
  new_id : ObjectId;
  today : RefId.UTCDate;
  now : Z
}.

(** A document under construction: [pieces] and [weight_kg] may be [NaN],
    [ref_id] and [timeline] are not set yet. *)
Record Draft := mkDraft {
  d_id : ObjectId;
  d_origin : string;
  d_destination : string;
  d_pieces : option Z;
  d_weight_kg : option Z;
  d_status : Status;
  d_flightIds : list ObjectId
}.

(** The schema's setters on [origin] and [destination] ([uppercase], [trim]). *)
Definition schema_code (s : string) : string := trim (toUpperCase s).

(** [new Booking({ ... })]. *)
Definition new_Booking (oid : ObjectId) (origin destination : string)
    (pieces weight_kg : option Z) (flightIds : list string) (st : Status) : Draft :=
  mkDraft oid (schema_code origin) (schema_code destination) pieces weight_kg st
          (map toObjectId flightIds).

(** The schema's validators: [required] strings are not empty, [pieces] is a
    number at least 1, [weight_kg] a number at least 0. *)
Definition validate (d : Draft) : option Booking :=
  match d_pieces d, d_weight_kg d with
  | Some p, Some w =>
      if negb (String.eqb (d_origin d) "") && negb (String.eqb (d_destination d) "")
         && (1 <=? p) && (0 <=? w)
      then Some (mkBooking (d_id d) "" (d_origin d) (d_destination d) p w
                           (d_status d) (d_flightIds d) [])
      else None
  | _, _ => None
  end.

Definition with_ref_id (b : Booking) (r : string) : Booking :=
  mkBooking (_id b) r (origin b) (destination b) (pieces b) (weight_kg b)
            (status b) (flightIds b) (timeline b).

Definition with_timeline (b : Booking) (t : list TimelineEvent) : Booking :=
  mkBooking (_id b) (ref_id b) (origin b) (destination b) (pieces b) (weight_kg b)
            (status b) (flightIds b) t.

(** First [pre('save')] hook: a new document with no [ref_id] gets the next
    one of the day (the schema upper-cases what is assigned). *)
Definition preSaveRefId (isNew : bool) (today : RefId.UTCDate) (b : Booking) : M Booking :=
  fun db =>
    if isNew && String.eqb (ref_id b) ""
    then (Ok (with_ref_id b (toUpperCase (RefId.generateRefId today (bookings db)))), db)
    else (Ok b, db).

(** Second [pre('save')] hook: the timeline of a new document is its creation
    event; a status modified on an existing document is appended unless it is
    the last event already. *)
Definition preSaveTimeline (isNew isModifiedStatus : bool) (now : Z) (b : Booking) : Booking :=
  if isNew then with_timeline b [mkEvent (status b) now None]
  else if isModifiedStatus then
    match last (map Some (timeline b)) None with
    | Some lastEvent =>
        if Status_eqb (event lastEvent) (status b) then b
        else with_timeline b (timeline b ++ [mkEvent (status b) now None])
    | None => with_timeline b (timeline b ++ [mkEvent (status b) now None])
    end
  else b.

(** [booking.save()] on a new document: validation, the two hooks, insertion. *)
Definition save (env : SaveEnv) (d : Draft) : M Booking :=
  match validate d with
  | None => throw ValidationFailed
  | Some doc =>
      doc1 <- preSaveRefId true (today env) doc ;;
      Booking_insert (preSaveTimeline true false (now env) doc1)
  end.

(** [createBooking(bookingData)]. *)
Definition createBooking (env : SaveEnv) (bookingData : BookingData) : M Booking :=
  let flightIds := bd_flightIds bookingData in
  _ <- (if Nat.ltb 0 (List.length flightIds) then
          ids <- lift (mapResult newObjectId flightIds) ;;
          validFlights <- Flight_find_in ids ;;
          if negb (Nat.eqb (List.length validFlights) (List.length flightIds))
          then throw InvalidFlightIds
          else ret tt
        else ret tt) ;;
  let booking :=
    new_Booking (new_id env)
      (trim (toUpperCase (bd_origin bookingData)))
      (trim (toUpperCase (bd_destination bookingData)))
      (parseInt (bd_pieces bookingData))
      (parseInt (bd_weight_kg bookingData))
      flightIds
      BOOKED in
  save env booking.

(** [findBookingByIdentifier(identifier)]: by [_id] when the identifier is a
    valid ObjectId and a document has it, by [ref_id] otherwise. *)
Definition findBookingByIdentifier (identifier : string) : M (option Booking) :=
  byId <- (if ObjectId_isValid identifier
           then Booking_findById (toObjectId identifier)
           else ret None) ;;
  match byId with
  | Some b => ret (Some b)
  | None => Booking_findOne_ref_id (trim (toUpperCase identifier))
  end.

(** [flightId ? new mongoose.Types.ObjectId(flightId) : null]. *)
Definition optObjectId (flightId : option string) : Result (option ObjectId) :=
  match flightId with
  | None => Ok None
  | Some f =>
      if String.eqb f "" then Ok None
      else match newObjectId f with Ok o => Ok (Some o) | Err e => Err e end
  end.

(** [departBooking(bookingId, flightId)], run at clock reading [now]. *)
Definition departBooking (now : Z) (bookingId : string) (flightId : option string)
    : M Booking :=
  found <- findBookingByIdentifier bookingId ;;
  match found with
  | None => throw BookingNotFound
  | Some booking =>
      let validStatusesForDeparture := [BOOKED] in
      if negb (includes validStatusesForDeparture (status booking))
      then throw (CannotDepart (status booking))
      else
        fid <- lift (optObjectId flightId) ;;
        updatedBooking <-
          Booking_findOneAndUpdate (_id booking) validStatusesForDeparture
            DEPARTED (mkEvent DEPARTED now fid) ;;
        match updatedBooking with
        | None => throw UpdateFailed
        | Some u => ret u
        end
  end.

(** [arriveBooking(bookingId, flightId)]. *)
Definition arriveBooking (now : Z) (bookingId : string) (flightId : option string)
    : M Booking :=
  found <- findBookingByIdentifier bookingId ;;
  match found with
  | None => throw BookingNotFound
  | Some booking =>
      let validStatusesForArrival := [DEPARTED; BOOKED] in
      if negb (includes validStatusesForArrival (status booking))
      then throw (CannotArrive (status booking))
      else
        fid <- lift (optObjectId flightId) ;;
        updatedBooking <-
          Booking_findOneAndUpdate (_id booking) validStatusesForArrival
            ARRIVED (mkEvent ARRIVED now fid) ;;
        match updatedBooking with
        | None => throw UpdateFailed
        | Some u => ret u
        end
  end.

(** [cancelBooking(bookingId)]. *)
Definition cancelBooking (now : Z) (bookingId : string) : M Booking :=
  found <- findBookingByIdentifier bookingId ;;
  match found with
  | None => throw BookingNotFound
  | Some booking =>
      if Status_eqb (status booking) ARRIVED then throw CannotCancelArrived
      else
        let validStatusesForCancellation := [BOOKED; DEPARTED] in
        if negb (includes validStatusesForCancellation (status booking))
        then throw (CannotCancel (status booking))
        else
          updatedBooking <-
            Booking_findOneAndUpdate (_id booking) validStatusesForCancellation
              CANCELLED (mkEvent CANCELLED now None) ;;
          match updatedBooking with
          | None => throw CancellationFailed
          | Some u => ret u
          end
  end.

(** The lookup of [GET /api/bookings/:bookingId] in [routes/bookingRoutes.js]. *)
Definition getBooking (bookingId : string) : M (option Booking) :=
  booking <- (if ObjectId_isValid bookingId
              then Booking_findById (toObjectId bookingId)
              else ret None) ;;
  match booking with
  | None => Booking_findOne_ref_id (trim (toUpperCase bookingId))
  | Some b => ret (Some b)
  end.

(** [getBookingHistory(bookingId)]: the booking, its timeline sorted by
    timestamp, oldest first. *)
Definition getBookingHistory (bookingId : string) : M Booking :=
  found <- findBookingByIdentifier bookingId ;;
  match found with
  | None => throw BookingNotFound
  | Some booking =>
      let sortedTimeline := sort_by timestamp (timeline booking) in
      ret (with_timeline booking sortedTimeline)
  end.

(** The error kinds of the specification, and the kind of each thrown error. *)
Inductive ErrorKind :=
| ValidationError
| InvalidFlightReference
| NotFound
| InvalidTransition
| ConcurrencyConflict
| DuplicateRefId.

Definition kind (e : Error) : ErrorKind :=
  match e with
  | BSONError | ValidationFailed => ValidationError
  | InvalidFlightIds => InvalidFlightReference
  | DuplicateKey => DuplicateRefId
  | BookingNotFound => NotFound
  | CannotDepart _ | CannotArrive _ | CannotCancelArrived | CannotCancel _ => InvalidTransition
  | UpdateFailed | CancellationFailed => ConcurrencyConflict
  end.

(** The transition table of the lifecycle. *)
Definition table (a b : Status) : bool :=
  match a, b with
  | BOOKED, DEPARTED | BOOKED, ARRIVED | DEPARTED, ARRIVED
  | BOOKED, CANCELLED | DEPARTED, CANCELLED => true
  | _, _ => false
  end.

(** One step in the life of a stored booking: nothing, or a status set along
    the table together with an event pushed on the timeline. *)
Definition booking_step (x y : Booking) : Prop :=
  y = x \/ exists s ev, y = set_and_push s ev x /\ table (status x) s = true.

(** What a caller can ask of the lifecycle, with the clock readings each
    request meets. *)
Inductive Op :=
| OpCreate (env : SaveEnv) (data : BookingData)
| OpDepart (now : Z) (bookingId : string) (flightId : option string)
| OpArrive (now : Z) (bookingId : string) (flightId : option string)
| OpCancel (now : Z) (bookingId : string)
| OpHistory (bookingId : string).

Definition exec_op (op : Op) : M Booking :=
  match op with
  | OpCreate env data => createBooking env data
  | OpDepart now i f => departBooking now i f
  | OpArrive now i f => arriveBooking now i f
  | OpCancel now i => cancelBooking now i
  | OpHistory i => getBookingHistory i
  end.

(** Requests served one after another. *)
Definition exec_ops (ops : list Op) (db : DB) : DB :=
  fold_left (fun d op => snd (exec_op op d)) ops db.

(** The clock reading an operation stamps its timeline event with. *)
Definition op_time (op : Op) : list Z :=
  match op with
  | OpCreate env _ => [now env]
  | OpDepart now _ _ | OpArrive now _ _ | OpCancel now _ => [now]
  | OpHistory _ => []
  end.

(** A timeline as it should be: not empty, in time order, opened by the
    creation event. *)
Definition timeline_ok (b : Booking) : Prop :=
  timeline b <> []
  /\ Sorted Z.le (map timestamp (timeline b))
  /\ option_map event (hd_error (timeline b)) = Some BOOKED.

(** One operation on the collection: the stored bookings each take a
    [booking_step], and new ones are BOOKED. *)
Definition db_step (db db' : DB) : Prop :=
  flights db' = flights db
  /\ exists moved created,
       bookings db' = (moved ++ created)%list
       /\ Forall2 booking_step (bookings db) moved
       /\ Forall (fun b => status b = BOOKED) created.

(** The two stages of [findBookingByIdentifier] on a collection, and the
    booking they resolve an identifier to. *)
Definition byStoreId (identifier : string) (bs : list Booking) : option Booking :=
  if ObjectId_isValid identifier
  then find (fun b => String.eqb (_id b) (toObjectId identifier)) bs
  else None.

Definition byRefId (identifier : string) (bs : list Booking) : option Booking :=
  find (fun b => String.eqb (ref_id b) (trim (toUpperCase identifier))) bs.

Definition lookup (identifier : string) (bs : list Booking) : option Booking :=
  match byStoreId identifier bs with
  | Some b => Some b
  | None => byRefId identifier bs
  end.

End Lifecycle.

(** ** Concurrent requests

    A request is the sequence of database operations its [async] function
    awaits; between two awaits it runs alone.  Requests in flight together
    are interleaved one database operation at a time. *)

Module Race.
Import JS Mongo Lifecycle.

Inductive Request :=
| Depart (bookingId : string) (flightId : option string)
| Arrive (bookingId : string) (flightId : option string)
| Cancel (bookingId : string).

Definition bookingId_of (r : Request) : string :=
  match r with
  | Depart i _ | Arrive i _ | Cancel i => i
  end.

(** The status set in the filter of the request's conditional write. *)
Definition expected (r : Request) : list Status :=
  match r with
  | Depart _ _ => [BOOKED]
  | Arrive _ _ => [DEPARTED; BOOKED]
  | Cancel _ => [BOOKED; DEPARTED]
  end.

(** The status the write sets. *)
Definition target (r : Request) : Status :=
  match r with
  | Depart _ _ => DEPARTED
  | Arrive _ _ => ARRIVED
  | Cancel _ => CANCELLED
  end.

(** What is thrown when the write matches no document. *)
Definition write_failed (r : Request) : Error :=
  match r with
  | Depart _ _ | Arrive _ _ => UpdateFailed
  | Cancel _ => CancellationFailed
  end.

(** Where a request stands. *)
Inductive Thread :=
| Called (r : Request)
    (* [findBookingByIdentifier] is about to issue its first query *)
| ByIdMissed (r : Request)
    (* [findById] gave null, [findOne({ ref_id })] is next *)
| Writing (r : Request) (oid : ObjectId) (ev : TimelineEvent)
    (* the status read passed the check, [findOneAndUpdate] is next *)
| Returned (res : Result Booking).

(** The code between the read of the booking and the write: the check of the
    status read, and the event built with [new Date()]. *)
Definition after_read (now : Z) (r : Request) (booking : Booking) : Thread :=
  match r with
  | Depart _ flightId =>
      if negb (includes [BOOKED] (status booking))
      then Returned (Err (CannotDepart (status booking)))
      else match optObjectId flightId with
           | Err e => Returned (Err e)
           | Ok fid => Writing r (_id booking) (mkEvent DEPARTED now fid)
           end
  | Arrive _ flightId =>
      if negb (includes [DEPARTED; BOOKED] (status booking))
      then Returned (Err (CannotArrive (status booking)))
      else match optObjectId flightId with
           | Err e => Returned (Err e)
           | Ok fid => Writing r (_id booking) (mkEvent ARRIVED now fid)
           end
  | Cancel _ =>
      if Status_eqb (status booking) ARRIVED then Returned (Err CannotCancelArrived)
      else if negb (includes [BOOKED; DEPARTED] (status booking))
      then Returned (Err (CannotCancel (status booking)))
      else Writing r (_id booking) (mkEvent CANCELLED now None)
  end.

Definition by_ref_id (now : Z) (r : Request) (db : DB) : Thread * DB :=
  match Booking_findOne_ref_id (trim (toUpperCase (bookingId_of r))) db with
  | (Ok (Some b), db') => (after_read now r b, db')
  | (Ok None, db') => (Returned (Err BookingNotFound), db')
  | (Err e, db') => (Returned (Err e), db')
  end.

(** One database operation of a request, and the code that follows it up to
    the next await, run at clock reading [now]. *)
Definition step (now : Z) (t : Thread) (db : DB) : Thread * DB :=
  match t with
  | Called r =>
      if ObjectId_isValid (bookingId_of r) then
        match Booking_findById (toObjectId (bookingId_of r)) db with
        | (Ok (Some b), db') => (after_read now r b, db')
        | (Ok None, db') => (ByIdMissed r, db')
        | (Err e, db') => (Returned (Err e), db')
        end
      else by_ref_id now r db
  | ByIdMissed r => by_ref_id now r db
  | Writing r oid ev =>
      match Booking_findOneAndUpdate oid (expected r) (target r) ev db with
      | (Ok (Some u), db') => (Returned (Ok u), db')
      | (Ok None, db') => (Returned (Err (write_failed r)), db')
      | (Err e, db') => (Returned (Err e), db')
      end
  | Returned res => (t, db)
  end.

(** The database and the requests in flight. *)
Record Sys := mkSys {
  sys_db : DB;
  threads : list Thread
}.

Fixpoint replace_nth {A} (i : nat) (x : A) (l : list A) : list A :=
  match l, i with
  | [], _ => []
  | _ :: r, O => x :: r
  | y :: r, S k => y :: replace_nth k x r
  end.

(** Request [i] performs its next database operation at clock reading [now]. *)
Definition sys_step (s : Sys) (turn : nat * Z) : Sys :=
  let '(i, now) := turn in
  match nth_error (threads s) i with
  | Some t =>
      let '(t', db') := step now t (sys_db s) in
      mkSys db' (replace_nth i t' (threads s))
  | None => s
  end.

(** The controller function a request is a call of. *)
Definition request_fn (now : Z) (r : Request) : M Booking :=
  match r with
  | Depart i f => departBooking now i f
  | Arrive i f => arriveBooking now i f
  | Cancel i => cancelBooking now i
  end.

(** Where a request stands once [findBookingByIdentifier] has returned. *)
Definition read_result (now : Z) (r : Request) (db : DB) : Thread :=
  match lookup (bookingId_of r) (bookings db) with
  | Some b => after_read now r b
  | None => Returned (Err BookingNotFound)
  end.

(** The database operations a request has left at most. *)
Definition remaining (t : Thread) : nat :=
  match t with
  | Called _ => 3
  | ByIdMissed _ => 2
  | Writing _ _ _ => 1
  | Returned _ => 0
  end.

(** A request running with no other in flight, one clock reading per
    database operation. *)
Definition run_alone (nows : list Z) (t : Thread) (db : DB) : Thread * DB :=
  fold_left (fun st now => step now (fst st) (snd st)) nows (t, db).

(** A schedule: which request moves, and when. *)
Definition run (sched : list (nat * Z)) (s : Sys) : Sys := fold_left sys_step sched s.

Definition is_returned (t : Thread) : bool :=
  match t with Returned _ => true | _ => false end.

Definition all_returned (s : Sys) : bool := forallb is_returned (threads s).

(** How often request [i] is scheduled. *)
Definition turns_of (i : nat) (sched : list (nat * Z)) : nat :=
  List.length (filter (fun turn => Nat.eqb (fst turn) i) sched).

Definition succeeded (t : Thread) : bool :=
  match t with Returned (Ok _) => true | _ => false end.

Definition failed_with (k : ErrorKind) (t : Thread) : Prop :=
  exists e, t = Returned (Err e) /\ kind e = k.

(** *** Two cancellations of one booking

    The booking [b] is BOOKED in the database [db0]; the two requests name it
    by the identifiers [i1] and [i2]. *)
Section CancelRace.
Variables (db0 : DB) (b : Booking) (i1 i2 : string).

(** A request that has not written yet: it is reading, or holds a write
    keyed on the booking's id. *)
Definition reading (d : DB) (i : string) (t : Thread) : Prop :=
  t = Called (Cancel i)
  \/ (t = ByIdMissed (Cancel i) /\ byStoreId i (bookings d) = None)
  \/ exists now, t = Writing (Cancel i) (_id b) (mkEvent CANCELLED now None).

Definition won (t : Thread) : Prop :=
  exists u, t = Returned (Ok u) /\ status u = CANCELLED.

Definition lost (d : DB) (i : string) (t : Thread) : Prop :=
  reading d i t
  \/ t = Returned (Err CancellationFailed)
  \/ t = Returned (Err (CannotCancel CANCELLED)).

(** The database once one cancellation has been written. *)
Definition cancelled_db (d : DB) : Prop :=
  (forall i, i = i1 \/ i = i2 ->
     exists b', lookup i (bookings d) = Some b' /\ status b' = CANCELLED)
  /\ (forall ev,
        Booking_findOneAndUpdate (_id b) [BOOKED; DEPARTED] CANCELLED ev d = (Ok None, d)).

(** What holds of the two requests all along. *)
Definition race_inv (s : Sys) : Prop :=
  exists t1 t2,
    threads s = [t1; t2]
    /\ ((sys_db s = db0 /\ reading db0 i1 t1 /\ reading db0 i2 t2)
        \/ (cancelled_db (sys_db s)
            /\ ((won t1 /\ lost (sys_db s) i2 t2)
                \/ (lost (sys_db s) i1 t1 /\ won t2)))).

End CancelRace.

(** A request that holds its write. *)
Definition is_writing (t : Thread) : Prop := exists r oid ev, t = Writing r oid ev.

(** A cancellation that holds its write, or is through it. *)
Definition past_read (t : Thread) : Prop :=
  (exists i oid ev, t = Writing (Cancel i) oid ev)
  \/ (exists u, t = Returned (Ok u))
  \/ t = Returned (Err CancellationFailed).

(** The outcome of the race as the specification words it: one request
    succeeds with CANCELLED, the other fails with a concurrency conflict. *)
Definition one_wins_other_conflicts (s : Sys) : Prop :=
  exists u e,
    status u = CANCELLED /\ kind e = ConcurrencyConflict
    /\ (threads s = [Returned (Ok u); Returned (Err e)]
        \/ threads s = [Returned (Err e); Returned (Ok u)]).

End Race.

(** ** The route finder ([controllers/routeController.js]) *)

Module Routes.
Import JS Mongo.

Definition msPerDay : Z := 86400000.

(** The time zone of the server, as the Date methods consult it.
    [offset_at t] is the offset of local time from UTC in force at the
    instant [t]. [offset_of_local l] is the offset under which the
    wall-clock reading [l] is turned into an instant: where clocks were set
    back and the reading occurs twice, that of the earlier instant; where
    they were set forward and the reading does not occur, the offset before
    the change. *)
Record Zone := mkZone {
  offset_at : Z -> Z;
  offset_of_local : Z -> Z
}.

(** A zone that keeps one offset. *)
Definition fixed (tz : Z) : Zone := mkZone (fun _ => tz) (fun _ => tz).

(** A zone whose clocks change once, at the instant [change], from the
    offset [before] to the offset [after]. *)
Definition one_change (change before after : Z) : Zone :=
  mkZone (fun t => if t <? change then before else after)
         (fun l => if l <? change + Z.max before after then before else after).

(** [LocalTime(t)], [UTC(t)], [Day(t)], [TimeWithinDay(t)] and
    [MakeDate(day, time)] of the language definition. *)
Definition LocalTime (z : Zone) (t : Z) : Z := t + offset_at z t.
Definition UTC (z : Zone) (l : Z) : Z := l - offset_of_local z l.
Definition Day (t : Z) : Z := t / msPerDay.
Definition TimeWithinDay (t : Z) : Z := t mod msPerDay.
Definition MakeDate (day time : Z) : Z := day * msPerDay + time.

(** The local calendar day of an instant, and the time of day. *)
Definition local_day (z : Zone) (t : Z) : Z := Day (LocalTime z t).
Definition time_of_day (z : Zone) (t : Z) : Z := TimeWithinDay (LocalTime z t).

(** [d.setHours(0, 0, 0, 0)] and [d.setHours(23, 59, 59, 999)]: the local
    day of [d] with the time of day replaced, turned back into an instant. *)
Definition setHours_start (z : Zone) (t : Z) : Z := UTC z (MakeDate (local_day z t) 0).
Definition setHours_end (z : Zone) (t : Z) : Z :=
  UTC z (MakeDate (local_day z t) (msPerDay - 1)).

(** [d.setDate(d.getDate() + 1)]: the next local day at the same time of
    day, turned back into an instant. *)
Definition setDate_next (z : Zone) (t : Z) : Z :=
  UTC z (MakeDate (local_day z t + 1) (time_of_day z t)).

(** The wall-clock reading [l] occurs in the zone, and the instant taken
    for it shows it. *)
Definition reads_back (z : Zone) (l : Z) : Prop := LocalTime z (UTC z l) = l.

(** The calendar never goes back a day as time goes on. *)
Definition days_in_order (z : Zone) : Prop :=
  forall t t', t <= t' -> local_day z t <= local_day z t'.

(** The instant taken for 00:00:00.000 of day [D] is the first of that day,
    and the instant taken for 23:59:59.999 is its last. *)
Definition day_starts (z : Zone) (D : Z) : Prop :=
  forall t, UTC z (MakeDate D 0) <= t <-> D <= local_day z t.
Definition day_ends (z : Zone) (D : Z) : Prop :=
  forall t, t <= UTC z (MakeDate D (msPerDay - 1)) <-> local_day z t <= D.

(** [Math.round((end - start) / (1000 * 60))]: halves round up. *)
Definition calculateDuration (startDate endDate : Z) : Z :=
  (endDate - startDate + 30000) / 60000.

Definition formatFlight (f : Flight) : Flight :=
  mkFlight (flight_id f) (flightNumber f) (airlineName f)
           (departureDateTime f) (arrivalDateTime f)
           (flight_origin f) (flight_destination f).

Record DirectRoute := mkDirect {
  direct_flight : Flight;
  direct_totalDuration : Z
}.

Record TransitRoute := mkTransit {
  firstLeg : Flight;
  secondLeg : Flight;
  transitCity : string;
  layoverDuration : Z;
  totalDuration : Z
}.

Record RoutesResult := mkRoutes {
  direct : list DirectRoute;
  transit : list TransitRoute
}.

Definition within (lo hi t : Z) : bool := (lo <=? t) && (t <=? hi).

(** [getDirectFlights(origin, destination, startDate, endDate)]. *)
Definition getDirectFlights (catalog : list Flight) (origin destination : string)
    (startDate endDate : Z) : list DirectRoute :=
  let flights :=
    sort_by departureDateTime
      (filter (fun f => String.eqb (flight_origin f) origin
                        && String.eqb (flight_destination f) destination
                        && within startDate endDate (departureDateTime f))
              catalog) in
  map (fun flight =>
         mkDirect (formatFlight flight)
                  (calculateDuration (departureDateTime flight) (arrivalDateTime flight)))
      flights.

(** The end of the second leg's window: the end of the day after the arrival. *)
Definition secondLegEndDate (z : Zone) (firstLegArrival : Z) : Z :=
  setHours_end z (setDate_next z firstLegArrival).

(** The second legs of one first leg, and the routes they make. *)
Definition routesVia (z : Zone) (catalog : list Flight) (destination : string)
    (firstLeg : Flight) : list TransitRoute :=
  let transitCity := flight_destination firstLeg in
  let firstLegArrival := arrivalDateTime firstLeg in
  let secondLegFlights :=
    sort_by departureDateTime
      (filter (fun f => String.eqb (flight_origin f) transitCity
                        && String.eqb (flight_destination f) destination
                        && within firstLegArrival (secondLegEndDate z firstLegArrival)
                                  (departureDateTime f))
              catalog) in
  map (fun secondLeg =>
         mkTransit (formatFlight firstLeg) (formatFlight secondLeg) transitCity
                   (calculateDuration firstLegArrival (departureDateTime secondLeg))
                   (calculateDuration (departureDateTime firstLeg) (arrivalDateTime secondLeg)))
      secondLegFlights.

(** [getTransitRoutes(origin, destination, startDate, endDate)]. *)
Definition getTransitRoutes (z : Zone) (catalog : list Flight) (origin destination : string)
    (startDate endDate : Z) : list TransitRoute :=
  let firstLegFlights :=
    sort_by departureDateTime
      (filter (fun f => String.eqb (flight_origin f) origin
                        && negb (String.eqb (flight_destination f) destination)
                        && within startDate endDate (departureDateTime f))
              catalog) in
  if Nat.eqb (List.length firstLegFlights) 0 then []
  else
    let transitRoutes := flat_map (routesVia z catalog destination) firstLegFlights in
    sort_by totalDuration transitRoutes.

(** [getRoutes(origin, destination, departureDate)]; [departureDate] is the
    instant [new Date(departureDate)] denotes. *)
Definition getRoutes (z : Zone) (catalog : list Flight) (origin destination : string)
    (departureDate : Z) : RoutesResult :=
  let normalizedOrigin := trim (toUpperCase origin) in
  let normalizedDestination := trim (toUpperCase destination) in
  let startDate := setHours_start z departureDate in
  let endDate := setHours_end z departureDate in
  mkRoutes
    (getDirectFlights catalog normalizedOrigin normalizedDestination startDate endDate)
    (getTransitRoutes z catalog normalizedOrigin normalizedDestination startDate endDate).

End Routes.

(** ** Sample data *)

Module Examples.
Import JS Mongo Lifecycle Race Routes.

(** Midnight UTC of the day of the sample flights, and hours and minutes in
    milliseconds. *)
Definition day0 : Z := 1728000000000.
Definition hm (h m : Z) : Z := h * 3600000 + m * 60000.

(** DEL-HYD 08:00-10:30, HYD-BLR 14:00-15:30, HYD-BLR 09:00-10:00 (leaves before
    the first leg lands), DEL-BLR 10:00-12:00 (direct). *)
Definition firstLegF : Flight :=
  mkFlight "aaaaaaaaaaaaaaaaaaaaaaa1" "SG301" "SpiceJet"
           (day0 + hm 8 0) (day0 + hm 10 30) "DEL" "HYD".
Definition secondLegF : Flight :=
  mkFlight "aaaaaaaaaaaaaaaaaaaaaaa2" "VT401" "Vistara"
           (day0 + hm 14 0) (day0 + hm 15 30) "HYD" "BLR".
Definition earlyLegF : Flight :=
  mkFlight "aaaaaaaaaaaaaaaaaaaaaaa3" "INVALID" "Invalid Airlines"
           (day0 + hm 9 0) (day0 + hm 10 0) "HYD" "BLR".
Definition directF : Flight :=
  mkFlight "aaaaaaaaaaaaaaaaaaaaaaa4" "AI101" "Air India"
           (day0 + hm 10 0) (day0 + hm 12 0) "DEL" "BLR".

Definition catalog : list Flight := [firstLegF; secondLegF; earlyLegF; directF].

Definition db0 : DB := mkDB catalog [].

Definition jan5 : RefId.UTCDate := RefId.mkUTC 2026 1 5 10 3 4 56.

Definition env1 : SaveEnv := mkEnv "bbbbbbbbbbbbbbbbbbbbbbb1" jan5 100.

(** A creation request in lower case and with a padded destination. *)
Definition data1 : BookingData :=
  mkData "del" " blr" "3" "12" ["aaaaaaaaaaaaaaaaaaaaaaa1"].

(** The same flight listed twice. *)
Definition data_twice : BookingData :=
  mkData "DEL" "BLR" "3" "12" ["aaaaaaaaaaaaaaaaaaaaaaa1"; "aaaaaaaaaaaaaaaaaaaaaaa1"].

Definition booking1 : Booking :=
  mkBooking "bbbbbbbbbbbbbbbbbbbbbbb1" "BOOK-20260105-000001" "DEL" "BLR" 3 12 BOOKED
            ["aaaaaaaaaaaaaaaaaaaaaaa1"] [mkEvent BOOKED 100 None].

(** The database after the creation. *)
Definition db1 : DB := mkDB catalog [booking1].

Definition arrived1 : Booking :=
  mkBooking "bbbbbbbbbbbbbbbbbbbbbbb1" "BOOK-20260105-000001" "DEL" "BLR" 3 12 ARRIVED
            ["aaaaaaaaaaaaaaaaaaaaaaa1"]
            [mkEvent BOOKED 100 None; mkEvent ARRIVED 150 None].

Definition db_arrived : DB := mkDB catalog [arrived1].

(** Existing reference ids of the day. *)
Definition with_ref (r : string) : Booking :=
  mkBooking r r "DEL" "BLR" 1 1 BOOKED [] [mkEvent BOOKED 0 None].

Definition day_bookings : list Booking :=
  [with_ref "BOOK-20260105-000001"; with_ref "BOOK-20260105-000009";
   with_ref "BOOK-20260104-000029"; with_ref "BOOK-20260105-000003"].

(** Two cancellations of the one booking in flight together, one by store
    id, one by reference id. *)
Definition two_cancels : Sys :=
  mkSys db1 [Called (Cancel "bbbbbbbbbbbbbbbbbbbbbbb1");
             Called (Cancel "book-20260105-000001")].

(** The first request runs to its end before the second reads. *)
Definition one_then_other : list (nat * Z) :=
  [(0%nat, 201); (0%nat, 202); (1%nat, 203); (1%nat, 204)].

(** Both read before either writes. *)
Definition reads_then_writes : list (nat * Z) :=
  [(0%nat, 201); (1%nat, 202); (1%nat, 203); (0%nat, 204)].

(** An arrival and a departure of the one booking in flight together. *)
Definition arrive_and_depart : Sys :=
  mkSys db1 [Called (Arrive "bbbbbbbbbbbbbbbbbbbbbbb1" None);
             Called (Depart "bbbbbbbbbbbbbbbbbbbbbbb1" None)].

(** The arrival reads and stamps its event, the departure reads, stamps and
    writes, and the arrival's write lands last. *)
Definition arrival_overtaken : list (nat * Z) :=
  [(0%nat, 201); (1%nat, 202); (1%nat, 203); (0%nat, 204)].

End Examples.

(** ** Invariants of the booking store *)

Module Store.
Import JS Mongo Lifecycle.

(** The fields no operation writes after creation. *)
Definition same_identity (x y : Booking) : Prop :=
  _id y = _id x /\ ref_id y = ref_id x /\ origin y = origin x
  /\ destination y = destination x /\ pieces y = pieces x
  /\ weight_kg y = weight_kg x /\ flightIds y = flightIds x.

(** A stored booking before and after an operation: untouched, or one event
    pushed whose name is the new status, a table edge away from the old. *)
Definition grows (x y : Booking) : Prop :=
  same_identity x y
  /\ (y = x
      \/ exists ev, timeline y = (timeline x ++ [ev])%list
                    /\ status y = event ev
                    /\ table (status x) (status y) = true).

(** Consecutive statuses are edges of the transition table. *)
Fixpoint chained (l : list Status) : bool :=
  match l with
  | a :: r => match r with
              | b :: _ => table a b && chained r
              | [] => true
              end
  | [] => true
  end.

(** The events of the timeline are a path of the table from BOOKED to the
    status. *)
Definition lifecycle_path (b : Booking) : Prop :=
  hd_error (map event (timeline b)) = Some BOOKED
  /\ chained (map event (timeline b)) = true
  /\ last (map event (timeline b)) BOOKED = status b.

(** What the schema's setters and validators leave in a stored booking. *)
Definition schema_ok (b : Booking) : Prop :=
  origin b <> "" /\ trim (toUpperCase (origin b)) = origin b
  /\ destination b <> "" /\ trim (toUpperCase (destination b)) = destination b
  /\ 1 <= pieces b /\ 0 <= weight_kg b
  /\ ref_id b <> "" /\ toUpperCase (ref_id b) = ref_id b.

(** The unique indexes hold. *)
Definition unique_keys (db : DB) : Prop :=
  NoDup (map _id (bookings db)) /\ NoDup (map ref_id (bookings db)).

(** The reference ids under a day's prefix are the prefix and six digits. *)
Definition day_well_formed (prefix : string) (bs : list Booking) : Prop :=
  forall b, In b bs -> startsWith prefix (ref_id b) = true ->
    exists ds, ref_id b = prefix ++ ds /\ String.length ds = 6%nat
               /\ RefId.all_digits ds = true.

(** What follows the first [n] characters of a string. *)
Fixpoint drop (n : nat) (s : string) : string :=
  match n, s with
  | S k, String _ r => drop k r
  | _, _ => s
  end.

(** The sequence number that a reference id carries after the day's prefix. *)
Definition sequence_of (prefix r : string) : Z :=
  RefId.decimal_value (drop (String.length prefix) r).

(** A stored booking some operations later: the same identity, the timeline
    grown at its end. *)
Definition extends (x y : Booking) : Prop :=
  same_identity x y /\ exists added, timeline y = (timeline x ++ added)%list.

(** A stretch of service: operations served one after another, or depart,
    arrive and cancel requests in flight together, their database
    operations taken in the order of a schedule. *)
Inductive Stretch :=
  | Alone (ops : list Op)
  | Together (requests : list Race.Request) (sched : list (nat * Z)).

Definition serve (db : DB) (s : Stretch) : DB :=
  match s with
  | Alone ops => exec_ops ops db
  | Together requests sched =>
      Race.sys_db (Race.run sched (Race.mkSys db (map Race.Called requests)))
  end.

Definition serve_all (l : list Stretch) (db : DB) : DB := fold_left serve l db.

(** A request that has not read the booking yet: [findBookingByIdentifier]
    has not returned. *)
Definition unread (t : Race.Thread) : Prop :=
  (exists r, t = Race.Called r) \/ (exists r, t = Race.ByIdMissed r).

(** A cancellation that reads under the identifier [i] after the booking was
    cancelled in [d]: still to read, or refused on the status it read. *)
Definition late (d : DB) (i : string) (t : Race.Thread) : Prop :=
  t = Race.Called (Race.Cancel i)
  \/ (t = Race.ByIdMissed (Race.Cancel i) /\ byStoreId i (bookings d) = None)
  \/ t = Race.Returned (Err (CannotCancel CANCELLED)).

(** A write in flight carries the event of the status it sets. *)
Definition thread_ok (t : Race.Thread) : Prop :=
  match t with
  | Race.Writing r _ ev => event ev = Race.target r
  | _ => True
  end.

End Store.

(** ** The stages of a creation

    [createBooking] awaits three times: the find of the flights, the
    [findOne] of the reference-id hook, and the insert that [save] ends
    with. Between two of them the requests of other callers are served. *)

Module Creation.
Import JS Mongo Lifecycle.
Local Open Scope m_scope.

(** The check of the flight ids. *)
Definition checkFlights (bookingData : BookingData) : M unit :=
  let flightIds := bd_flightIds bookingData in
  if Nat.ltb 0 (List.length flightIds) then
    ids <- lift (mapResult newObjectId flightIds) ;;
    validFlights <- Flight_find_in ids ;;
    if negb (Nat.eqb (List.length validFlights) (List.length flightIds))
    then throw InvalidFlightIds
    else ret tt
  else ret tt.

(** [new Booking({...})]. *)
Definition draftOf (env : SaveEnv) (bookingData : BookingData) : Draft :=
  new_Booking (new_id env)
    (trim (toUpperCase (bd_origin bookingData)))
    (trim (toUpperCase (bd_destination bookingData)))
    (parseInt (bd_pieces bookingData))
    (parseInt (bd_weight_kg bookingData))
    (bd_flightIds bookingData)
    BOOKED.

(** [booking.save()] up to its insert: validation and the two hooks. *)
Definition prepare (env : SaveEnv) (d : Draft) : M Booking :=
  match validate d with
  | None => throw ValidationFailed
  | Some doc =>
      doc1 <- preSaveRefId true (today env) doc ;;
      ret (preSaveTimeline true false (now env) doc1)
  end.

(** A request up to its insert, and the insert of what it prepared. *)
Definition request (env : SaveEnv) (bookingData : BookingData) : M Booking :=
  _ <- checkFlights bookingData ;; prepare env (draftOf env bookingData).

Definition insert_prepared (p : Result Booking) : M Booking :=
  match p with
  | Ok doc => Booking_insert doc
  | Err e => throw e
  end.

(** Two creations in flight together: both requests come to their insert
    before either insert is served. The results are those of the first and
    of the second request. *)
Definition createBooking_overlapped (env1 env2 : SaveEnv) (data1 data2 : BookingData)
    (db : DB) : Result Booking * Result Booking * DB :=
  let '(p1, db_a) := request env1 data1 db in
  let '(p2, db_b) := request env2 data2 db_a in
  let '(r1, db_c) := insert_prepared p1 db_b in
  let '(r2, db_d) := insert_prepared p2 db_c in
  (r1, r2, db_d).

End Creation.

(** ** The HTTP handlers of the booking routes ([routes/bookingRoutes.js]) *)

Module Http.
Import JS Mongo Lifecycle.

(** [s.includes(needle)]. *)
Fixpoint includes_text (needle s : string) : bool :=
  String.prefix needle s
  || match s with
     | EmptyString => false
     | String _ r => includes_text needle r
     end.

(** The status as the template literals of the controller print it. *)
Definition statusName (s : Status) : string :=
  match s with
  | BOOKED => "BOOKED"
  | DEPARTED => "DEPARTED"
  | ARRIVED => "ARRIVED"
  | DELIVERED => "DELIVERED"
  | CANCELLED => "CANCELLED"
  end.

(** [error.message]. The errors that the controller throws carry its own
    texts; [lib] is the text of an error raised inside a library (BSON,
    mongoose validation, the unique index). *)
Definition message (lib : string) (e : Error) : string :=
  match e with
  | BSONError | ValidationFailed | DuplicateKey => lib
  | InvalidFlightIds => "One or more flight IDs are invalid"
  | BookingNotFound => "Booking not found"
  | CannotDepart s => "Cannot depart booking with status: " ++ statusName s
  | CannotArrive s => "Cannot arrive booking with status: " ++ statusName s
  | CannotCancelArrived => "Cannot cancel booking that has already ARRIVED"
  | CannotCancel s => "Cannot cancel booking with status: " ++ statusName s
  | UpdateFailed =>
      "Booking update failed. The booking may have been modified by another operation."
  | CancellationFailed =>
      "Booking cancellation failed. The booking may have been modified by another operation or has already ARRIVED."
  end.

(** What a handler sends: [res.json({ success: true, message, booking })] or
    [res.status(code).json({ error, message })]. *)
Inductive Response :=
| Json (code : Z) (note : option string) (booking : Booking)
| Failure (code : Z) (error : string) (text : string).

Definition response_code (r : Response) : Z :=
  match r with
  | Json c _ _ => c
  | Failure c _ _ => c
  end.

(** [POST /api/bookings/:bookingId/depart]. *)
Definition postDepart (lib : string) (now : Z) (bookingId : string)
    (flightId : option string) (db : DB) : Response * DB :=
  match departBooking now bookingId flightId db with
  | (Ok booking, db') => (Json 200 (Some "Booking marked as DEPARTED") booking, db')
  | (Err error, db') =>
      let m := message lib error in
      if String.eqb m "Booking not found"
      then (Failure 404 "Booking not found" m, db')
      else if includes_text "Cannot depart" m
      then (Failure 400 "Invalid status transition" m, db')
      else (Failure 500 "Failed to update booking" m, db')
  end.

(** [POST /api/bookings/:bookingId/arrive]. *)
Definition postArrive (lib : string) (now : Z) (bookingId : string)
    (flightId : option string) (db : DB) : Response * DB :=
  match arriveBooking now bookingId flightId db with
  | (Ok booking, db') => (Json 200 (Some "Booking marked as ARRIVED") booking, db')
  | (Err error, db') =>
      let m := message lib error in
      if String.eqb m "Booking not found"
      then (Failure 404 "Booking not found" m, db')
      else if includes_text "Cannot arrive" m
      then (Failure 400 "Invalid status transition" m, db')
      else (Failure 500 "Failed to update booking" m, db')
  end.

(** [POST /api/bookings/:bookingId/cancel]. *)
Definition postCancel (lib : string) (now : Z) (bookingId : string) (db : DB)
    : Response * DB :=
  match cancelBooking now bookingId db with
  | (Ok booking, db') => (Json 200 (Some "Booking cancelled successfully") booking, db')
  | (Err error, db') =>
      let m := message lib error in
      if String.eqb m "Booking not found"
      then (Failure 404 "Booking not found" m, db')
      else if includes_text "Cannot cancel" m || includes_text "already ARRIVED" m
      then (Failure 400 "Cannot cancel booking" m, db')
      else (Failure 500 "Failed to cancel booking" m, db')
  end.

(** [GET /api/bookings/:bookingId/history]. *)
Definition getHistory (lib : string) (bookingId : string) (db : DB) : Response * DB :=
  match getBookingHistory bookingId db with
  | (Ok booking, db') => (Json 200 None booking, db')
  | (Err error, db') =>
      let m := message lib error in
      if String.eqb m "Booking not found"
      then (Failure 404 "Booking not found" m, db')
      else (Failure 500 "Failed to fetch booking history" m, db')
  end.

End Http.

(** ** The pages of the client ([CreateBooking], [Tracking]) *)

Module Frontend.
Import JS Mongo.

(** The flight ids of the form: [formData.flightIds ?
    formData.flightIds.split(',').map(id => id.trim()).filter(id => id) : []]. *)
Definition parseFlightIds (text : string) : list string :=
  if String.eqb text "" then []
  else filter (fun id => negb (String.eqb id ""))
              (map trim (split ","%char text)).

(** [status.charAt(0)] and [status.slice(1)]. *)
Definition charAt0 (s : string) : string :=
  match s with
  | EmptyString => EmptyString
  | String c _ => String c EmptyString
  end.

Definition slice1 (s : string) : string :=
  match s with
  | EmptyString => EmptyString
  | String _ r => r
  end.

(** [getStatusLabel(status)]. *)
Definition getStatusLabel (status : string) : string :=
  charAt0 status ++ toLowerCase (slice1 status).

(** Entries the form's parser returns as they are. *)
Definition plain_id (id : string) : Prop :=
  id <> "" /\ trim id = id /\ lacks ","%char id = true.

End Frontend.

(** ** More sample data *)

Module Samples.
Import JS Mongo Lifecycle Race Routes.

(** A day whose six-digit sequence is used up, and the day after its
    seven-digit id has been stored too. *)
Definition last_of_day : list Booking :=
  [Examples.with_ref "BOOK-20260105-999998"; Examples.with_ref "BOOK-20260105-999999"].

Definition past_last_of_day : list Booking :=
  [Examples.with_ref "BOOK-20260105-999999"; Examples.with_ref "BOOK-20260105-1000000"].

Definition db_day_full : DB := mkDB Examples.catalog past_last_of_day.

(** A second creation of the day, with no flights. *)
Definition env2 : SaveEnv := mkEnv "bbbbbbbbbbbbbbbbbbbbbbb2" Examples.jan5 500.

Definition data2 : BookingData := mkData "DEL" "BLR" "1" "7" [].

(** A third creation of the day, in flight with the second. *)
Definition env3 : SaveEnv := mkEnv "bbbbbbbbbbbbbbbbbbbbbbb3" Examples.jan5 501.

Definition data3 : BookingData := mkData "HYD" "BLR" "2" "9" [].

(** A store that holds other bookings of the day. *)
Definition db_day : DB := mkDB Examples.catalog Examples.day_bookings.

(** The life of the first booking, served one call after another. *)
Definition life : list Op :=
  [OpCreate Examples.env1 Examples.data1;
   OpDepart 200 "bbbbbbbbbbbbbbbbbbbbbbb1" None;
   OpArrive 300 "BOOK-20260105-000001" (Some "aaaaaaaaaaaaaaaaaaaaaaa1");
   OpCancel 400 "BOOK-20260105-000001";
   OpHistory "book-20260105-000001"].

(** The text of a BSON error. *)
Definition bson_text : string :=
  "input must be a 24 character hex string, 12 byte Uint8Array, or an integer".

(** New York at the end of daylight saving time in 2024: at 06:00 UTC on
    3 November the clocks go from 02:00 (four hours behind UTC) back to
    01:00 (five hours behind), so that local day has 25 hours. *)
Definition new_york : Zone := one_change 1730613600000 (-14400000) (-18000000).

(** [new Date("2024-11-03")] and [new Date("2024-11-04")]: midnight UTC, the
    evening before in New York. *)
Definition nov3 : Z := 1730592000000.
Definition nov4 : Z := 1730678400000.

(** JFK to MIA, leaves 2 November 21:00 and lands 3 November 00:30, before
    the clocks change; MIA to LAX, leaves 4 November 23:45; JFK to LAX,
    leaves 3 November 23:30, in the twenty-fifth hour of its day. *)
Definition nightLegF : Flight :=
  mkFlight "cccccccccccccccccccccc01" "NY101" "Hudson Air"
           1730595600000 1730608200000 "JFK" "MIA".
Definition lateLegF : Flight :=
  mkFlight "cccccccccccccccccccccc02" "NY202" "Hudson Air"
           1730781900000 1730791800000 "MIA" "LAX".
Definition lateDirectF : Flight :=
  mkFlight "cccccccccccccccccccccc03" "NY303" "Hudson Air"
           1730694600000 1730716200000 "JFK" "LAX".

Definition ny_catalog : list Flight := [nightLegF; lateLegF; lateDirectF].

End Samples.

(** * Properties *)

(** ** Characters and strings *)

Section StringFacts.
Import JS.

Lemma code_range (c : ascii) : 0 <= code c < 256.
Proof.
  unfold code. pose proof (N_ascii_bounded c). lia.
Qed.

Lemma code_of_N (n : Z) : 0 <= n < 256 -> code (ascii_of_N (Z.to_N n)) = n.
Proof.
  intros H. unfold code. rewrite N_ascii_embedding by lia. lia.
Qed.

Lemma code_inj (c d : ascii) : code c = code d -> c = d.
Proof.
  unfold code. intros H.
  rewrite <- (ascii_N_embedding c), <- (ascii_N_embedding d).
  f_equal. lia.
Qed.

Lemma eqb_code (c d : ascii) : Ascii.eqb c d = (code c =? code d).
Proof.
  destruct (Ascii.eqb_spec c d) as [->|N].
  - symmetry. apply Z.eqb_refl.
  - symmetry. apply Z.eqb_neq. intros E. apply N, code_inj, E.
Qed.

Lemma code_digit_char (d : Z) : 0 <= d < 10 -> code (digit_char d) = 48 + d.
Proof.
  intros H. unfold digit_char. apply code_of_N. lia.
Qed.

Lemma append_assoc (a b c : string) : (a ++ b) ++ c = a ++ (b ++ c).
Proof.
  induction a as [|x a IH]; simpl; [reflexivity | now rewrite IH].
Qed.

Lemma length_append (a b : string) :
  String.length (a ++ b) = (String.length a + String.length b)%nat.
Proof.
  induction a as [|x a IH]; simpl; [reflexivity | now rewrite IH].
Qed.

Lemma length_repeat_char (c : ascii) (n : nat) : String.length (repeat_char c n) = n.
Proof.
  induction n as [|n IH]; simpl; [reflexivity | now rewrite IH].
Qed.

Lemma prefix_append (p s : string) : String.prefix p (p ++ s) = true.
Proof.
  induction p as [|x p IH]; simpl.
  - now destruct s.
  - destruct (ascii_dec x x) as [_|N]; [exact IH | now elim N].
Qed.

(** *** [lacks], [split], [removeAll] *)

Lemma lacks_append (c : ascii) (a b : string) :
  lacks c (a ++ b) = lacks c a && lacks c b.
Proof.
  induction a as [|x a IH]; simpl; [reflexivity|].
  rewrite IH. now rewrite andb_assoc.
Qed.

Lemma lacks_removeAll (c : ascii) (s : string) : lacks c (removeAll c s) = true.
Proof.
  induction s as [|x s IH]; simpl; [reflexivity|].
  destruct (Ascii.eqb x c) eqn:E; simpl; [exact IH | now rewrite E].
Qed.

Lemma removeAll_lacks (c : ascii) (s : string) : lacks c s = true -> removeAll c s = s.
Proof.
  induction s as [|x s IH]; simpl; [reflexivity|].
  intros H. apply andb_true_iff in H as [Hx Hs].
  apply negb_true_iff in Hx. rewrite Hx. now rewrite IH.
Qed.

Lemma removeAll_append (c : ascii) (a b : string) :
  removeAll c (a ++ b) = removeAll c a ++ removeAll c b.
Proof.
  induction a as [|x a IH]; simpl; [reflexivity|].
  destruct (Ascii.eqb x c); simpl; now rewrite IH.
Qed.

Lemma split_lacks (c : ascii) (s : string) : lacks c s = true -> split c s = [s].
Proof.
  induction s as [|x s IH]; simpl; [reflexivity|].
  intros H. apply andb_true_iff in H as [Hx Hs].
  apply negb_true_iff in Hx. rewrite Hx, (IH Hs). reflexivity.
Qed.

Lemma split_append (c : ascii) (a b : string) :
  lacks c a = true -> split c (a ++ String c b) = a :: split c b.
Proof.
  induction a as [|x a IH]; simpl.
  - intros _. now rewrite Ascii.eqb_refl.
  - intros H. apply andb_true_iff in H as [Hx Hs].
    apply negb_true_iff in Hx. rewrite Hx, (IH Hs). reflexivity.
Qed.

(** *** Decimal digits *)

Lemma all_digits_append (a b : string) :
  RefId.all_digits (a ++ b) = RefId.all_digits a && RefId.all_digits b.
Proof.
  induction a as [|x a IH]; simpl; [reflexivity|].
  rewrite IH. now rewrite !andb_assoc.
Qed.

Lemma all_digits_repeat_zero (n : nat) : RefId.all_digits (repeat_char "0" n) = true.
Proof.
  induction n as [|n IH]; simpl; [reflexivity | exact IH].
Qed.

Lemma all_digits_lacks (c : ascii) (s : string) :
  (code c < 48 \/ 57 < code c) -> RefId.all_digits s = true -> lacks c s = true.
Proof.
  intros Hc. induction s as [|x s IH]; simpl; [reflexivity|].
  intros H. apply andb_true_iff in H as [Hx Hs].
  apply andb_true_iff in Hx as [H1 H2].
  rewrite (IH Hs), andb_true_r. rewrite eqb_code.
  apply negb_true_iff, Z.eqb_neq. lia.
Qed.

Lemma all_digits_digits_of (fuel : nat) (n : Z) (acc : string) :
  0 <= n -> RefId.all_digits acc = true -> RefId.all_digits (digits_of fuel n acc) = true.
Proof.
  revert n acc. induction fuel as [|f IH]; intros n acc Hn Hacc; simpl; [exact Hacc|].
  assert (Hd : RefId.all_digits (String (digit_char (n mod 10)) acc) = true).
  { simpl. rewrite code_digit_char by (apply Z.mod_pos_bound; lia).
    pose proof (Z.mod_pos_bound n 10 ltac:(lia)).
    rewrite Hacc, andb_true_r. apply andb_true_iff. split; lia. }
  destruct (n <? 10); [exact Hd|].
  apply IH; [apply Z.div_pos; lia | exact Hd].
Qed.

Lemma all_digits_toString (n : Z) : 0 <= n -> RefId.all_digits (Number_toString n) = true.
Proof.
  intros Hn. unfold Number_toString.
  destruct (n <? 0) eqn:E; [lia|].
  now apply all_digits_digits_of.
Qed.

Lemma all_digits_pad (w : nat) (n : Z) : 0 <= n -> RefId.all_digits (RefId.pad w n) = true.
Proof.
  intros Hn. unfold RefId.pad, padStart.
  rewrite all_digits_append, all_digits_repeat_zero. now apply all_digits_toString.
Qed.

Lemma decimal_value_digits_of (fuel : nat) (n : Z) (acc : string) :
  0 <= n < 2 ^ Z.of_nat fuel ->
  RefId.decimal_value_from 0 (digits_of fuel n acc) = RefId.decimal_value_from n acc.
Proof.
  revert n acc. induction fuel as [|f IH]; intros n acc Hn.
  - simpl in *. now replace n with 0 by lia.
  - cbn [digits_of].
    pose proof (Z.mod_pos_bound n 10 ltac:(lia)) as Hm.
    destruct (n <? 10) eqn:E.
    + apply Z.ltb_lt in E. cbn [RefId.decimal_value_from].
      rewrite code_digit_char by lia. rewrite Z.mod_small by lia. f_equal. lia.
    + apply Z.ltb_ge in E.
      rewrite IH.
      * cbn [RefId.decimal_value_from]. rewrite code_digit_char by lia.
        f_equal. pose proof (Z.div_mod n 10 ltac:(lia)). lia.
      * rewrite Nat2Z.inj_succ, Z.pow_succ_r in Hn by lia.
        split; [apply Z.div_pos; lia|].
        apply Z.div_lt_upper_bound; lia.
Qed.

(** Printing a non-negative integer and reading the digits back gives the
    integer. *)
Lemma decimal_value_toString (n : Z) :
  0 <= n -> RefId.decimal_value (Number_toString n) = n.
Proof.
  intros Hn. unfold RefId.decimal_value, Number_toString.
  destruct (n <? 0) eqn:E; [lia|].
  rewrite decimal_value_digits_of; [reflexivity|].
  split; [exact Hn|].
  destruct (Z.eq_dec n 0) as [->|N]; [simpl; lia|].
  rewrite Nat2Z.inj_succ, Z2Nat.id by apply Z.log2_nonneg.
  apply Z.log2_spec. lia.
Qed.

Lemma decimal_value_repeat_zero (k : nat) (s : string) :
  RefId.decimal_value (repeat_char "0" k ++ s) = RefId.decimal_value s.
Proof.
  unfold RefId.decimal_value. induction k as [|k IH]; simpl; [reflexivity | exact IH].
Qed.

Lemma length_digits_of (fuel k : nat) (n : Z) (acc : string) :
  (1 <= k)%nat -> 0 <= n < 10 ^ Z.of_nat k ->
  (String.length (digits_of fuel n acc) <= k + String.length acc)%nat.
Proof.
  revert k n acc. induction fuel as [|f IH]; intros k n acc Hk Hn; simpl; [lia|].
  destruct (n <? 10) eqn:E; [simpl; lia|].
  apply Z.ltb_ge in E.
  destruct k as [|[|k]]; [lia | simpl in Hn; lia |].
  specialize (IH (S k) (n / 10) (String (digit_char (n mod 10)) acc) ltac:(lia)).
  cbn [String.length] in IH.
  assert (0 <= n / 10 < 10 ^ Z.of_nat (S k)).
  { rewrite (Nat2Z.inj_succ (S k)), Z.pow_succ_r in Hn by lia.
    split; [apply Z.div_pos; lia | apply Z.div_lt_upper_bound; lia]. }
  specialize (IH H). lia.
Qed.

Lemma length_toString (k : nat) (n : Z) :
  (1 <= k)%nat -> 0 <= n < 10 ^ Z.of_nat k -> (String.length (Number_toString n) <= k)%nat.
Proof.
  intros Hk Hn. unfold Number_toString.
  destruct (n <? 0) eqn:E; [lia|].
  pose proof (length_digits_of (S (Z.to_nat (Z.log2 n))) k n "" Hk Hn) as H.
  simpl in H. simpl. lia.
Qed.

Lemma length_pad (w : nat) (n : Z) :
  (1 <= w)%nat -> 0 <= n < 10 ^ Z.of_nat w -> String.length (RefId.pad w n) = w.
Proof.
  intros Hw Hn. unfold RefId.pad, padStart.
  rewrite length_append, length_repeat_char.
  pose proof (length_toString w n Hw Hn). lia.
Qed.

End StringFacts.

(** ** Reference-id allocation *)

Section RefIdFacts.
Import JS RefId.

Lemma digit_not_ws (c : ascii) : 48 <= code c <= 57 -> is_ws c = false.
Proof.
  intros H. unfold is_ws.
  apply orb_false_iff. split.
  - apply andb_false_iff. right. lia.
  - lia.
Qed.

Lemma digit_val_decimal (c : ascii) :
  48 <= code c <= 57 -> digit_val 10 c = Some (code c - 48).
Proof.
  intros H. unfold digit_val.
  replace ((48 <=? code c) && (code c <=? 57)) with true
    by (symmetry; apply andb_true_iff; lia).
  replace (code c - 48 <? 10) with true by lia. reflexivity.
Qed.

Lemma parse_digits_decimal (s : string) (a : Z) :
  all_digits s = true ->
  parse_digits 10 s (Some a) = Some (decimal_value_from a s).
Proof.
  revert a. induction s as [|c s IH]; intros a H; simpl; [reflexivity|].
  simpl in H. apply andb_true_iff in H as [Hc Hs].
  apply andb_true_iff in Hc as [H1 H2].
  rewrite digit_val_decimal by lia. now rewrite IH.
Qed.

(** Integers up to 2^53 in magnitude are Numbers. *)
Lemma toNumber_exact (n : Z) : Z.abs n <= two53 -> toNumber n = n.
Proof.
  intros H. unfold toNumber. replace (Z.abs n <=? two53) with true by lia. reflexivity.
Qed.

(** [parseInt] reads a non-empty run of decimal digits as the Number nearest
    to the integer it writes. *)
Lemma parseInt_digits (s : string) :
  s <> "" -> all_digits s = true -> parseInt s = Some (toNumber (decimal_value s)).
Proof.
  intros Hne H. destruct s as [|c s]; [now elim Hne|].
  simpl in H. apply andb_true_iff in H as [Hc Hs].
  apply andb_true_iff in Hc as [H1 H2].
  unfold parseInt. cbn [trimStart]. rewrite digit_not_ws by lia.
  unfold strip_sign.
  replace (Ascii.eqb c "-") with false by (rewrite eqb_code; cbn; lia).
  replace (Ascii.eqb c "+") with false by (rewrite eqb_code; cbn; lia).
  assert (Hx : strip_hex_prefix (String c s) = (10, String c s)).
  { unfold strip_hex_prefix. destruct s as [|x s]; [reflexivity|].
    simpl in Hs. apply andb_true_iff in Hs as [Hx _].
    apply andb_true_iff in Hx as [H3 H4].
    replace (Ascii.eqb x "x") with false by (rewrite eqb_code; cbn; lia).
    replace (Ascii.eqb x "X") with false by (rewrite eqb_code; cbn; lia).
    now rewrite andb_false_r. }
  rewrite Hx. cbn [parse_digits]. rewrite digit_val_decimal by lia.
  rewrite parse_digits_decimal by exact Hs.
  unfold decimal_value. cbn [decimal_value_from option_map]. f_equal. f_equal.
  destruct (decimal_value_from (10 * 0 + (code c - 48)) s); reflexivity.
Qed.

Lemma decimal_value_from_shift (s : string) (a : Z) :
  decimal_value_from a s
  = a * 10 ^ Z.of_nat (String.length s) + decimal_value_from 0 s.
Proof.
  revert a. induction s as [|c s IH]; intros a; cbn [decimal_value_from String.length].
  - rewrite Z.pow_0_r. lia.
  - rewrite (IH (10 * a + (code c - 48))), (IH (10 * 0 + (code c - 48))).
    rewrite Nat2Z.inj_succ, Z.pow_succ_r by lia. ring.
Qed.

Lemma decimal_value_range (s : string) :
  all_digits s = true -> 0 <= decimal_value s < 10 ^ Z.of_nat (String.length s).
Proof.
  unfold decimal_value.
  induction s as [|c s IH]; cbn [all_digits decimal_value_from String.length]; intros H.
  - rewrite Z.pow_0_r. lia.
  - apply andb_true_iff in H as [Hc Hs]. apply andb_true_iff in Hc as [H1 H2].
    apply Z.leb_le in H1, H2.
    specialize (IH Hs). rewrite decimal_value_from_shift.
    rewrite Nat2Z.inj_succ, Z.pow_succ_r by lia.
    set (P := 10 ^ Z.of_nat (String.length s)) in *.
    assert (0 <= (code c - 48) * P) by (apply Z.mul_nonneg_nonneg; lia).
    assert ((code c - 48) * P <= 9 * P) by (apply Z.mul_le_mono_nonneg_r; lia).
    lia.
Qed.

(** A run of decimal digits that denotes a safe integer is read exactly. *)
Lemma parseInt_exact (s : string) :
  s <> "" -> all_digits s = true -> decimal_value s <= two53 ->
  parseInt s = Some (decimal_value s).
Proof.
  intros Hne H Hb. rewrite parseInt_digits by assumption.
  rewrite toNumber_exact; [reflexivity|].
  pose proof (decimal_value_range s H). lia.
Qed.

(** The date part of the ISO text, and what is left of it without dashes. *)
Lemma dateStr_valid (d : UTCDate) :
  valid_date d -> dateStr d = pad 4 (year d) ++ pad 2 (month d) ++ pad 2 (day d).
Proof.
  intros (Hy & Hm & Hd). unfold dateStr, toISOString.
  replace ((0 <=? year d) && (year d <=? 9999)) with true
    by (symmetry; apply andb_true_iff; lia).
  set (Y := pad 4 (year d)). set (Mo := pad 2 (month d)). set (Da := pad 2 (day d)).
  assert (HY : all_digits Y = true) by (apply all_digits_pad; lia).
  assert (HM : all_digits Mo = true) by (apply all_digits_pad; lia).
  assert (HD : all_digits Da = true) by (apply all_digits_pad; lia).
  assert (HT : forall s, all_digits s = true -> lacks "T" s = true)
    by (intros s; apply all_digits_lacks; cbn; lia).
  assert (HS : forall s, all_digits s = true -> lacks "-" s = true)
    by (intros s; apply all_digits_lacks; cbn; lia).
  match goal with
  | |- context [split "T" ?s] =>
      replace s with ((Y ++ "-" ++ Mo ++ "-" ++ Da) ++
                      String "T" (pad 2 (hours d) ++ ":" ++ pad 2 (minutes d) ++ ":"
                                  ++ pad 2 (seconds d) ++ "." ++ pad 3 (millis d) ++ "Z"))
        by (rewrite !append_assoc; reflexivity)
  end.
  rewrite split_append.
  2:{ rewrite !lacks_append, (HT _ HY), (HT _ HM), (HT _ HD). reflexivity. }
  cbn [nth].
  rewrite !removeAll_append.
  rewrite (removeAll_lacks _ _ (HS _ HY)), (removeAll_lacks _ _ (HS _ HM)),
          (removeAll_lacks _ _ (HS _ HD)).
  reflexivity.
Qed.

Lemma dateStr_lacks_dash (d : UTCDate) : lacks "-" (dateStr d) = true.
Proof. apply lacks_removeAll. Qed.

(** The third dash-separated field of a reference id under the prefix. *)
Lemma split_refid (d : UTCDate) (ds : string) :
  lacks "-" ds = true ->
  nth_error (split "-" (prefixOf d ++ ds)) 2 = Some ds.
Proof.
  intros H. unfold prefixOf.
  replace (("BOOK-" ++ dateStr d ++ "-") ++ ds)
    with ("BOOK" ++ String "-" (dateStr d ++ String "-" ds))
    by (rewrite !append_assoc; reflexivity).
  rewrite split_append by reflexivity.
  rewrite split_append by apply dateStr_lacks_dash.
  rewrite split_lacks by exact H. reflexivity.
Qed.

(** *** The greatest reference id *)

Lemma fold_greater_is_max (m : string) (l : list string) (acc : option string) :
  (forall r, In r l -> str_le r m) ->
  (forall a, acc = Some a -> str_le a m) ->
  (acc = Some m \/ In m l) ->
  fold_left greater l acc = Some m.
Proof.
  revert acc. induction l as [|x l IH]; intros acc Hl Hacc Hm; simpl.
  - destruct Hm as [H|[]]. exact H.
  - apply IH.
    + intros r Hr. apply Hl. now right.
    + intros a Ha. destruct acc as [a0|]; simpl in Ha.
      * destruct (String.compare a0 x); inversion Ha; subst;
          [apply Hacc | apply Hl; now left | apply Hacc]; reflexivity.
      * inversion Ha; subst. apply Hl. now left.
    + destruct Hm as [->|[->|Hin]].
      * left. simpl. assert (Hx : str_le x m) by (apply Hl; now left).
        unfold str_le in Hx. rewrite String.compare_antisym in Hx.
        destruct (String.compare m x); simpl in *; congruence.
      * left. destruct acc as [a0|]; simpl; [|reflexivity].
        specialize (Hacc a0 eq_refl). unfold str_le in Hacc.
        destruct (String.compare a0 m) eqn:E; try reflexivity; try congruence.
        apply String.compare_eq_iff in E. now subst.
      * now right.
Qed.


Lemma findLastRefId_greatest (p m : string) (bs : list Booking) :
  In m (map ref_id bs) -> startsWith p m = true ->
  (forall b, In b bs -> startsWith p (ref_id b) = true -> str_le (ref_id b) m) ->
  findLastRefId p bs = Some m.
Proof.
  intros Hin Hp Hmax. unfold findLastRefId.
  apply fold_greater_is_max.
  - intros r Hr. apply in_map_iff in Hr as (b & <- & Hb).
    apply filter_In in Hb as [Hb Hpb]. now apply Hmax.
  - discriminate.
  - right. apply in_map_iff in Hin as (b & <- & Hb).
    apply in_map. apply filter_In. now split.
Qed.

End RefIdFacts.

(** ** Upper-casing and trimming *)

Section NormaliseFacts.
Import JS.

Lemma upper_char_not_lower (c : ascii) : is_lower (upper_char c) = false.
Proof.
  unfold upper_char. destruct (is_lower c) eqn:E; [|exact E].
  unfold is_lower in *. apply andb_true_iff in E as [H1 H2].
  rewrite code_of_N by (pose proof (code_range c); lia).
  apply andb_false_iff. left. lia.
Qed.

Lemma upper_char_idem (c : ascii) : upper_char (upper_char c) = upper_char c.
Proof.
  unfold upper_char at 1. now rewrite upper_char_not_lower.
Qed.

Lemma upper_char_ws (c : ascii) : is_ws (upper_char c) = is_ws c.
Proof.
  unfold upper_char. destruct (is_lower c) eqn:E; [|reflexivity].
  unfold is_lower in E. apply andb_true_iff in E as [H1 H2].
  unfold is_ws. rewrite code_of_N by (pose proof (code_range c); lia).
  transitivity false; [|symmetry]; apply orb_false_iff; split;
    try (apply andb_false_iff; right; lia); lia.
Qed.

Lemma toUpperCase_idem (s : string) : toUpperCase (toUpperCase s) = toUpperCase s.
Proof.
  induction s as [|c s IH]; simpl; [reflexivity|].
  now rewrite upper_char_idem, IH.
Qed.

Lemma toUpperCase_append (a b : string) :
  toUpperCase (a ++ b) = toUpperCase a ++ toUpperCase b.
Proof.
  induction a as [|c a IH]; simpl; [reflexivity | now rewrite IH].
Qed.

Lemma toUpperCase_trimStart (s : string) :
  toUpperCase (trimStart s) = trimStart (toUpperCase s).
Proof.
  induction s as [|c s IH]; simpl; [reflexivity|].
  rewrite upper_char_ws. destruct (is_ws c); [exact IH | reflexivity].
Qed.

Lemma toUpperCase_trimEnd (s : string) :
  toUpperCase (trimEnd s) = trimEnd (toUpperCase s).
Proof.
  induction s as [|c s IH]; simpl; [reflexivity|].
  rewrite <- IH, upper_char_ws.
  destruct (trimEnd s) as [|x r]; simpl; [destruct (is_ws c)|]; reflexivity.
Qed.

Lemma toUpperCase_trim (s : string) : toUpperCase (trim s) = trim (toUpperCase s).
Proof.
  unfold trim. now rewrite toUpperCase_trimEnd, toUpperCase_trimStart.
Qed.

Lemma trimEnd_idem (s : string) : trimEnd (trimEnd s) = trimEnd s.
Proof.
  induction s as [|c s IH]; simpl; [reflexivity|].
  destruct (trimEnd s) as [|x r] eqn:E.
  - destruct (is_ws c) eqn:W; simpl; [reflexivity | now rewrite W].
  - cbn [trimEnd] in *. rewrite IH. reflexivity.
Qed.

Lemma trimStart_solid (s : string) : starts_solid (trimStart s).
Proof.
  induction s as [|c s IH]; simpl; [exact I|].
  destruct (is_ws c) eqn:W; [exact IH | exact W].
Qed.

Lemma trimStart_of_solid (s : string) : starts_solid s -> trimStart s = s.
Proof.
  destruct s as [|c s]; simpl; [reflexivity|]. now intros ->.
Qed.

Lemma trimEnd_solid (s : string) : starts_solid s -> starts_solid (trimEnd s).
Proof.
  destruct s as [|c s]; simpl; [trivial|].
  intros W. destruct (trimEnd s); [rewrite W|]; exact W.
Qed.

Lemma trim_idem (s : string) : trim (trim s) = trim s.
Proof.
  unfold trim.
  rewrite (trimStart_of_solid (trimEnd (trimStart s)))
    by apply trimEnd_solid, trimStart_solid.
  apply trimEnd_idem.
Qed.

(** Normalising a code that is normalised already changes nothing. *)
Lemma normalise_idem (s : string) :
  trim (toUpperCase (trim (toUpperCase s))) = trim (toUpperCase s).
Proof.
  rewrite toUpperCase_trim, toUpperCase_idem. apply trim_idem.
Qed.

Lemma trimEnd_ends_solid (a : string) (c : ascii) :
  is_ws c = false -> trimEnd (a ++ String c "") = a ++ String c "".
Proof.
  intros W. induction a as [|x a IH]; simpl.
  - now rewrite W.
  - rewrite IH. destruct a; reflexivity.
Qed.

(** The decimal text of a number ends with a digit. *)
Lemma digits_of_acc (fuel : nat) (n : Z) (acc : string) :
  digits_of fuel n acc = digits_of fuel n "" ++ acc.
Proof.
  revert n acc. induction fuel as [|f IH]; intros n acc; simpl; [reflexivity|].
  destruct (n <? 10); [reflexivity|].
  rewrite (IH (n / 10) (String _ acc)), (IH (n / 10) (String _ "")).
  rewrite append_assoc. reflexivity.
Qed.

Lemma toString_ends_with_digit (n : Z) :
  exists body d, 0 <= d < 10 /\ Number_toString n = body ++ String (digit_char d) "".
Proof.
  assert (H : forall f m, exists body,
             digits_of (S f) m "" = body ++ String (digit_char (m mod 10)) "").
  { intros f m. cbn [digits_of]. destruct (m <? 10).
    - now exists "".
    - rewrite digits_of_acc. eauto. }
  unfold Number_toString. destruct (n <? 0).
  - destruct (H (Z.to_nat (Z.log2 (- n))) (- n)) as [body Hb].
    exists (String "-" body), ((- n) mod 10). split; [apply Z.mod_pos_bound; lia|].
    rewrite Hb. reflexivity.
  - destruct (H (Z.to_nat (Z.log2 n)) n) as [body Hb].
    exists body, (n mod 10). split; [apply Z.mod_pos_bound; lia | exact Hb].
Qed.

Lemma digit_char_solid (d : Z) :
  0 <= d < 10 -> is_ws (digit_char d) = false /\ upper_char (digit_char d) = digit_char d.
Proof.
  intros H. split.
  - apply digit_not_ws. rewrite code_digit_char by lia. lia.
  - unfold upper_char, is_lower. rewrite code_digit_char by lia.
    replace (97 <=? 48 + d) with false by lia. reflexivity.
Qed.

(** A generated reference id is its own normal form, and no ObjectId. *)
Lemma generateRefId_shape (today : RefId.UTCDate) (bs : list Booking) :
  exists body d,
    0 <= d < 10 /\
    toUpperCase (RefId.generateRefId today bs)
    = String "B" (String "O" (body ++ String (digit_char d) "")).
Proof.
  unfold RefId.generateRefId, RefId.prefixOf, padStart.
  destruct (toString_ends_with_digit (RefId.nextSequence
              (RefId.findLastRefId ("BOOK-" ++ RefId.dateStr today ++ "-") bs)))
    as (body & d & Hd & ->).
  set (zeros := repeat_char "0" (6 - String.length (body ++ String (digit_char d) ""))).
  set (Y := "OK-" ++ RefId.dateStr today ++ "-" ++ zeros ++ body).
  exists (toUpperCase Y), d. split; [exact Hd|].
  replace (("BOOK-" ++ RefId.dateStr today ++ "-") ++ zeros ++ body ++ String (digit_char d) "")
    with ("BO" ++ (Y ++ String (digit_char d) ""))
    by (unfold Y; rewrite !append_assoc; reflexivity).
  rewrite !toUpperCase_append. cbn [toUpperCase].
  rewrite (proj2 (digit_char_solid d Hd)). reflexivity.
Qed.

Lemma generateRefId_normal (today : RefId.UTCDate) (bs : list Booking) :
  let r := toUpperCase (RefId.generateRefId today bs) in
  trim (toUpperCase r) = r /\ Mongo.ObjectId_isValid r = false /\ r <> "".
Proof.
  destruct (generateRefId_shape today bs) as (body & d & Hd & E).
  cbv zeta. rewrite toUpperCase_idem, E. split; [|split].
  - unfold trim. cbn [trimStart]. replace (is_ws "B") with false by reflexivity.
    change (String "B" (String "O" (body ++ String (digit_char d) "")))
      with (("BO" ++ body) ++ String (digit_char d) "") at 1.
    rewrite trimEnd_ends_solid by apply (digit_char_solid d Hd).
    reflexivity.
  - unfold Mongo.ObjectId_isValid. cbn [Mongo.forall_chars].
    replace (Mongo.is_hex "O") with false by reflexivity.
    cbn [andb]. rewrite ?andb_false_r. reflexivity.
  - discriminate.
Qed.

End NormaliseFacts.

(** ** The conditional write *)

Section StoreFacts.
Import JS Mongo Lifecycle.

Lemma updateFirst_result (m : Booking -> bool) (upd : Booking -> Booking) (bs : list Booking) :
  fst (updateFirst m upd bs) = option_map upd (find m bs).
Proof.
  induction bs as [|b bs IH]; simpl; [reflexivity|].
  destruct (m b); simpl; [reflexivity|].
  destruct (updateFirst m upd bs) as [o r]. exact IH.
Qed.

Lemma updateFirst_no_match (m : Booking -> bool) (upd : Booking -> Booking) (bs : list Booking) :
  find m bs = None -> updateFirst m upd bs = (None, bs).
Proof.
  induction bs as [|b bs IH]; simpl; [reflexivity|].
  destruct (m b); [discriminate|].
  intros H. now rewrite (IH H).
Qed.

Lemma updateFirst_Forall2 (R : Booking -> Booking -> Prop)
    (m : Booking -> bool) (upd : Booking -> Booking) (bs : list Booking) :
  (forall x, R x x) -> (forall x, m x = true -> R x (upd x)) ->
  Forall2 R bs (snd (updateFirst m upd bs)).
Proof.
  intros Hrefl Hupd. induction bs as [|b bs IH]; simpl; [constructor|].
  destruct (m b) eqn:E; simpl.
  - constructor; [now apply Hupd|].
    clear IH. induction bs; constructor; auto.
  - destruct (updateFirst m upd bs) as [o r]. simpl in *. constructor; auto.
Qed.

(** When identifiers are unique the write is a map over the collection. *)
Lemma updateFirst_as_map (oid : ObjectId) (m : Booking -> bool) (upd : Booking -> Booking)
    (bs : list Booking) :
  NoDup (map _id bs) ->
  (forall x, m x = true -> _id x = oid) ->
  snd (updateFirst m upd bs) = map (fun x => if m x then upd x else x) bs.
Proof.
  intros Hnd Hm. induction bs as [|b bs IH]; simpl; [reflexivity|].
  inversion Hnd as [|? ? Hnotin Hnd']; subst.
  destruct (m b) eqn:E; simpl.
  - f_equal. symmetry. rewrite <- (map_id bs) at 2. apply map_ext_in.
    intros x Hx. destruct (m x) eqn:Ex; [|reflexivity].
    exfalso. apply Hnotin. rewrite (Hm b E), <- (Hm x Ex). now apply in_map.
  - destruct (updateFirst m upd bs) as [o r]. simpl in *. now rewrite (IH Hnd').
Qed.

Lemma find_map_stable (q : Booking -> bool) (g : Booking -> Booking) (bs : list Booking) :
  (forall x, q (g x) = q x) -> find q (map g bs) = option_map g (find q bs).
Proof.
  intros Hq. induction bs as [|b bs IH]; simpl; [reflexivity|].
  rewrite Hq. destruct (q b); [reflexivity | exact IH].
Qed.

Lemma Status_eqb_eq (a b : Status) : Status_eqb a b = true <-> a = b.
Proof.
  destruct a, b; simpl; split; intros H; congruence.
Qed.

Lemma includes_In (l : list Status) (s : Status) : includes l s = true <-> In s l.
Proof.
  unfold includes. rewrite existsb_exists. split.
  - intros (x & Hx & E). apply Status_eqb_eq in E. now subst.
  - intros H. exists s. split; [exact H | now apply Status_eqb_eq].
Qed.

(** A conditional write whose expected statuses all lead to the new status
    along the table moves every stored booking by one [booking_step]. *)
Lemma findOneAndUpdate_steps (oid : ObjectId) (expected : list Status) (s : Status)
    (ev : TimelineEvent) (db : DB) :
  (forall a, In a expected -> table a s = true) ->
  Forall2 booking_step (bookings db)
          (bookings (snd (Booking_findOneAndUpdate oid expected s ev db))).
Proof.
  intros Ht. unfold Booking_findOneAndUpdate.
  match goal with |- context [updateFirst ?m ?u ?l] =>
    pose proof (updateFirst_Forall2 booking_step m u l) as H;
    destruct (updateFirst m u l) as [o r] end.
  simpl in *. apply H.
  - intros x. now left.
  - intros x Hx. right. exists s, ev. split; [reflexivity|].
    apply andb_true_iff in Hx as [_ Hx]. apply Ht. now apply includes_In.
Qed.

Lemma findOneAndUpdate_flights (oid : ObjectId) (expected : list Status) (s : Status)
    (ev : TimelineEvent) (db : DB) :
  flights (snd (Booking_findOneAndUpdate oid expected s ev db)) = flights db.
Proof.
  unfold Booking_findOneAndUpdate.
  destruct (updateFirst _ _ (bookings db)) as [o r]. reflexivity.
Qed.

Lemma findOneAndUpdate_result (oid : ObjectId) (expected : list Status) (s : Status)
    (ev : TimelineEvent) (db : DB) :
  fst (Booking_findOneAndUpdate oid expected s ev db)
  = Ok (option_map (set_and_push s ev)
          (find (fun b => String.eqb (_id b) oid && includes expected (status b))
                (bookings db))).
Proof.
  unfold Booking_findOneAndUpdate.
  match goal with |- context [updateFirst ?m ?u ?l] =>
    pose proof (updateFirst_result m u l) as H;
    destruct (updateFirst m u l) as [o r] end.
  simpl in *. now rewrite H.
Qed.

Lemma Forall2_booking_step_refl (bs : list Booking) : Forall2 booking_step bs bs.
Proof. induction bs; constructor; auto. now left. Qed.

Lemma table_cases (a b : Status) :
  table a b = true <->
  (a = BOOKED /\ b = DEPARTED) \/ (a = BOOKED /\ b = ARRIVED) \/ (a = DEPARTED /\ b = ARRIVED)
  \/ (a = BOOKED /\ b = CANCELLED) \/ (a = DEPARTED /\ b = CANCELLED).
Proof.
  destruct a, b; simpl; split; intros H; try discriminate; try reflexivity;
    try (repeat (destruct H as [H|H]); destruct H; discriminate); tauto.
Qed.

End StoreFacts.

(** ** The controller, one operation at a time *)

Section ControllerFacts.
Import JS Mongo Lifecycle.

Lemma findBookingByIdentifier_lookup (identifier : string) (db : DB) :
  findBookingByIdentifier identifier db = (Ok (lookup identifier (bookings db)), db).
Proof.
  unfold findBookingByIdentifier, lookup, byStoreId, byRefId, bind,
    Booking_findById, Booking_findOne_ref_id, ret.
  destruct (ObjectId_isValid identifier); simpl.
  - destruct (find _ (bookings db)); reflexivity.
  - reflexivity.
Qed.

Lemma updateFirst_in (m : Booking -> bool) (upd : Booking -> Booking) (bs : list Booking)
    (u : Booking) :
  fst (updateFirst m upd bs) = Some u -> In u (snd (updateFirst m upd bs)).
Proof.
  induction bs as [|b bs IH]; simpl; [discriminate|].
  destruct (m b); simpl.
  - intros H. inversion H. now left.
  - destruct (updateFirst m upd bs) as [o r]. simpl in *. intros H. right. auto.
Qed.

(** What a conditional write that returns a document has done. *)
Lemma findOneAndUpdate_some (oid : ObjectId) (expected : list Status) (s : Status)
    (ev : TimelineEvent) (db db' : DB) (u : Booking) :
  Booking_findOneAndUpdate oid expected s ev db = (Ok (Some u), db') ->
  exists x, In x (bookings db) /\ _id x = oid /\ In (status x) expected
            /\ u = set_and_push s ev x /\ In u (bookings db').
Proof.
  intros E.
  pose proof (findOneAndUpdate_result oid expected s ev db) as Hr.
  rewrite E in Hr. simpl in Hr. inversion Hr as [Hu]. clear Hr.
  destruct (find _ (bookings db)) as [x|] eqn:Hf; [|discriminate].
  simpl in Hu. inversion Hu; subst u. clear Hu.
  apply find_some in Hf as [Hin Hm].
  apply andb_true_iff in Hm as [Hid Hst].
  apply String.eqb_eq in Hid. apply includes_In in Hst.
  exists x. repeat split; try assumption.
  unfold Booking_findOneAndUpdate in E.
  match type of E with context [updateFirst ?m ?f ?l] =>
    pose proof (updateFirst_in m f l) as Hi;
    destruct (updateFirst m f l) as [o r] end.
  inversion E; subst. simpl in *. now apply Hi.
Qed.

(** The three transitions, case by case. *)
Lemma departBooking_cases (now : Z) (id : string) (fid : option string) (db : DB) :
  departBooking now id fid db =
  match lookup id (bookings db) with
  | None => (Err BookingNotFound, db)
  | Some b =>
      if includes [BOOKED] (status b) then
        match optObjectId fid with
        | Err e => (Err e, db)
        | Ok f =>
            match Booking_findOneAndUpdate (_id b) [BOOKED] DEPARTED
                    (mkEvent DEPARTED now f) db with
            | (Ok (Some u), db') => (Ok u, db')
            | (Ok None, db') => (Err UpdateFailed, db')
            | (Err e, db') => (Err e, db')
            end
        end
      else (Err (CannotDepart (status b)), db)
  end.
Proof.
  unfold departBooking, bind. rewrite findBookingByIdentifier_lookup.
  destruct (lookup id (bookings db)) as [b|]; [|reflexivity].
  destruct (includes [BOOKED] (status b)); simpl; [|reflexivity].
  unfold lift. destruct (optObjectId fid); [|reflexivity].
  destruct (Booking_findOneAndUpdate _ _ _ _ db) as [[[u|]|e] db']; reflexivity.
Qed.

Lemma arriveBooking_cases (now : Z) (id : string) (fid : option string) (db : DB) :
  arriveBooking now id fid db =
  match lookup id (bookings db) with
  | None => (Err BookingNotFound, db)
  | Some b =>
      if includes [DEPARTED; BOOKED] (status b) then
        match optObjectId fid with
        | Err e => (Err e, db)
        | Ok f =>
            match Booking_findOneAndUpdate (_id b) [DEPARTED; BOOKED] ARRIVED
                    (mkEvent ARRIVED now f) db with
            | (Ok (Some u), db') => (Ok u, db')
            | (Ok None, db') => (Err UpdateFailed, db')
            | (Err e, db') => (Err e, db')
            end
        end
      else (Err (CannotArrive (status b)), db)
  end.
Proof.
  unfold arriveBooking, bind. rewrite findBookingByIdentifier_lookup.
  destruct (lookup id (bookings db)) as [b|]; [|reflexivity].
  destruct (includes [DEPARTED; BOOKED] (status b)); simpl; [|reflexivity].
  unfold lift. destruct (optObjectId fid); [|reflexivity].
  destruct (Booking_findOneAndUpdate _ _ _ _ db) as [[[u|]|e] db']; reflexivity.
Qed.

Lemma cancelBooking_cases (now : Z) (id : string) (db : DB) :
  cancelBooking now id db =
  match lookup id (bookings db) with
  | None => (Err BookingNotFound, db)
  | Some b =>
      if Status_eqb (status b) ARRIVED then (Err CannotCancelArrived, db)
      else if includes [BOOKED; DEPARTED] (status b) then
        match Booking_findOneAndUpdate (_id b) [BOOKED; DEPARTED] CANCELLED
                (mkEvent CANCELLED now None) db with
        | (Ok (Some u), db') => (Ok u, db')
        | (Ok None, db') => (Err CancellationFailed, db')
        | (Err e, db') => (Err e, db')
        end
      else (Err (CannotCancel (status b)), db)
  end.
Proof.
  unfold cancelBooking, bind. rewrite findBookingByIdentifier_lookup.
  destruct (lookup id (bookings db)) as [b|]; [|reflexivity].
  destruct (Status_eqb (status b) ARRIVED); [reflexivity|].
  destruct (includes [BOOKED; DEPARTED] (status b)); simpl; [|reflexivity].
  destruct (Booking_findOneAndUpdate _ _ _ _ db) as [[[u|]|e] db']; reflexivity.
Qed.

End ControllerFacts.

(** ** Creation *)

Section CreationFacts.
Import JS Mongo Lifecycle.

Lemma save_cases (env : SaveEnv) (d : Draft) (db : DB) :
  save env d db =
  match validate d with
  | None => (Err ValidationFailed, db)
  | Some doc =>
      let r := toUpperCase (RefId.generateRefId (today env) (bookings db)) in
      let b := mkBooking (_id doc) r (origin doc) (destination doc) (pieces doc)
                         (weight_kg doc) (status doc) (flightIds doc)
                         [mkEvent (status doc) (now env) None] in
      if existsb (fun x => String.eqb (_id x) (_id doc) || String.eqb (ref_id x) r)
                 (bookings db)
      then (Err DuplicateKey, db)
      else (Ok b, mkDB (flights db) (bookings db ++ [b]))
  end.
Proof.
  unfold save. destruct (validate d) as [doc|] eqn:V; [|reflexivity].
  assert (Hr : ref_id doc = "").
  { unfold validate in V. destruct (d_pieces d), (d_weight_kg d); try discriminate.
    destruct (_ && _); inversion V. reflexivity. }
  unfold bind, preSaveRefId, preSaveTimeline, Booking_insert, with_ref_id, with_timeline.
  rewrite Hr. reflexivity.
Qed.

Lemma createBooking_cases (env : SaveEnv) (data : BookingData) (db : DB) :
  createBooking env data db =
  let fl := bd_flightIds data in
  let saved :=
    save env (new_Booking (new_id env)
                (trim (toUpperCase (bd_origin data)))
                (trim (toUpperCase (bd_destination data)))
                (parseInt (bd_pieces data)) (parseInt (bd_weight_kg data)) fl BOOKED) db in
  if Nat.ltb 0 (List.length fl) then
    match mapResult newObjectId fl with
    | Err e => (Err e, db)
    | Ok ids =>
        if Nat.eqb (List.length (filter (fun f => existsb (String.eqb (flight_id f)) ids)
                                        (flights db)))
                   (List.length fl)
        then saved
        else (Err InvalidFlightIds, db)
    end
  else saved.
Proof.
  unfold createBooking, bind. cbv zeta.
  destruct (Nat.ltb 0 (List.length (bd_flightIds data))); [|reflexivity].
  unfold lift, Flight_find_in.
  destruct (mapResult newObjectId (bd_flightIds data)) as [ids|e]; [|reflexivity].
  destruct (Nat.eqb _ _); reflexivity.
Qed.

(** What a successful creation has stored. *)
Lemma createBooking_ok (env : SaveEnv) (data : BookingData) (db db' : DB) (b : Booking) :
  createBooking env data db = (Ok b, db') ->
  db' = mkDB (flights db) (bookings db ++ [b])
  /\ _id b = new_id env
  /\ ref_id b = toUpperCase (RefId.generateRefId (today env) (bookings db))
  /\ origin b = trim (toUpperCase (bd_origin data))
  /\ destination b = trim (toUpperCase (bd_destination data))
  /\ parseInt (bd_pieces data) = Some (pieces b)
  /\ parseInt (bd_weight_kg data) = Some (weight_kg b)
  /\ 1 <= pieces b /\ 0 <= weight_kg b
  /\ status b = BOOKED
  /\ timeline b = [mkEvent BOOKED (now env) None]
  /\ (forall x, In x (bookings db) -> _id x <> _id b /\ ref_id x <> ref_id b).
Proof.
  rewrite createBooking_cases. cbv zeta. intros H.
  assert (Hs : save env (new_Booking (new_id env)
                (trim (toUpperCase (bd_origin data)))
                (trim (toUpperCase (bd_destination data)))
                (parseInt (bd_pieces data)) (parseInt (bd_weight_kg data))
                (bd_flightIds data) BOOKED) db = (Ok b, db')).
  { destruct (Nat.ltb 0 _); [|exact H].
    destruct (mapResult _ _); [|discriminate].
    destruct (Nat.eqb _ _); [exact H | discriminate]. }
  clear H. revert Hs.
  rewrite save_cases. unfold validate, new_Booking, schema_code. cbn -[trim toUpperCase RefId.generateRefId].
  rewrite !normalise_idem.
  destruct (parseInt (bd_pieces data)) as [p|]; [|discriminate].
  destruct (parseInt (bd_weight_kg data)) as [w|]; [|discriminate].
  destruct (_ && _) eqn:V; [|discriminate].
  cbn -[trim toUpperCase RefId.generateRefId].
  destruct (existsb _ (bookings db)) eqn:X; [discriminate|].
  intros H. inversion H; subst. clear H. cbn -[trim toUpperCase RefId.generateRefId].
  apply andb_true_iff in V as [V Hw]. apply andb_true_iff in V as [V Hp].
  repeat split; try reflexivity; try lia.
  - intros E. rewrite <- not_true_iff_false in X. apply X, existsb_exists.
    exists x. split; [assumption|]. apply orb_true_iff. left.
    apply String.eqb_eq. exact E.
  - intros E. rewrite <- not_true_iff_false in X. apply X, existsb_exists.
    exists x. split; [assumption|]. apply orb_true_iff. right.
    apply String.eqb_eq. exact E.
Qed.

(** A creation that fails stores nothing. *)
Lemma createBooking_err (env : SaveEnv) (data : BookingData) (db db' : DB) (e : Error) :
  createBooking env data db = (Err e, db') -> db' = db.
Proof.
  rewrite createBooking_cases. cbv zeta. rewrite save_cases.
  destruct (validate _) as [doc|]; cbv zeta;
    destruct (Nat.ltb 0 _); try destruct (mapResult _ _); try destruct (Nat.eqb _ _);
    try destruct (existsb _ (bookings db)); intros H; inversion H; reflexivity.
Qed.

Lemma find_app_last (q : Booking -> bool) (bs : list Booking) (b : Booking) :
  (forall x, In x bs -> q x = false) -> q b = true -> find q (bs ++ [b]) = Some b.
Proof.
  intros Hn Hb. induction bs as [|x bs IH]; simpl.
  - now rewrite Hb.
  - rewrite (Hn x (or_introl eq_refl)). apply IH. intros y Hy. apply Hn. now right.
Qed.

End CreationFacts.

(** ** Operations served one after another *)

Section SequentialFacts.
Import JS Mongo Lifecycle.

Lemma db_step_refl (db : DB) : db_step db db.
Proof.
  split; [reflexivity|]. exists (bookings db), []. rewrite app_nil_r.
  repeat split; [apply Forall2_booking_step_refl | constructor].
Qed.

Lemma db_step_write (oid : ObjectId) (expected : list Status) (s : Status)
    (ev : TimelineEvent) (db : DB) :
  (forall a, In a expected -> table a s = true) ->
  db_step db (snd (Booking_findOneAndUpdate oid expected s ev db)).
Proof.
  intros Ht. split; [apply findOneAndUpdate_flights|].
  exists (bookings (snd (Booking_findOneAndUpdate oid expected s ev db))), [].
  rewrite app_nil_r. repeat split; [now apply findOneAndUpdate_steps | constructor].
Qed.

Lemma table_depart (a : Status) : In a [BOOKED] -> table a DEPARTED = true.
Proof. intros [<-|[]]. reflexivity. Qed.

Lemma table_arrive (a : Status) : In a [DEPARTED; BOOKED] -> table a ARRIVED = true.
Proof. intros [<-|[<-|[]]]; reflexivity. Qed.

Lemma table_cancel (a : Status) : In a [BOOKED; DEPARTED] -> table a CANCELLED = true.
Proof. intros [<-|[<-|[]]]; reflexivity. Qed.

(** Every operation is one [db_step]. *)
Lemma exec_op_db_step (op : Op) (db : DB) : db_step db (snd (exec_op op db)).
Proof.
  destruct op as [env data|now i f|now i f|now i|i]; cbn [exec_op].
  - destruct (createBooking env data db) as [[b|e] db'] eqn:E; simpl.
    + apply createBooking_ok in E as (-> & _ & _ & _ & _ & _ & _ & _ & _ & Hs & _).
      split; [reflexivity|]. exists (bookings db), [b]. simpl.
      repeat split; [apply Forall2_booking_step_refl|]. now constructor.
    + apply createBooking_err in E. subst. apply db_step_refl.
  - rewrite departBooking_cases.
    destruct (lookup i (bookings db)) as [b|]; [|apply db_step_refl].
    destruct (includes [BOOKED] (status b)); [|apply db_step_refl].
    destruct (optObjectId f) as [fid|]; [|apply db_step_refl].
    pose proof (db_step_write (_id b) [BOOKED] DEPARTED (mkEvent DEPARTED now fid) db
                  table_depart) as H.
    destruct (Booking_findOneAndUpdate _ _ _ _ db) as [[[u|]|e] db']; exact H.
  - rewrite arriveBooking_cases.
    destruct (lookup i (bookings db)) as [b|]; [|apply db_step_refl].
    destruct (includes [DEPARTED; BOOKED] (status b)); [|apply db_step_refl].
    destruct (optObjectId f) as [fid|]; [|apply db_step_refl].
    pose proof (db_step_write (_id b) [DEPARTED; BOOKED] ARRIVED (mkEvent ARRIVED now fid) db
                  table_arrive) as H.
    destruct (Booking_findOneAndUpdate _ _ _ _ db) as [[[u|]|e] db']; exact H.
  - rewrite cancelBooking_cases.
    destruct (lookup i (bookings db)) as [b|]; [|apply db_step_refl].
    destruct (Status_eqb (status b) ARRIVED); [apply db_step_refl|].
    destruct (includes [BOOKED; DEPARTED] (status b)); [|apply db_step_refl].
    pose proof (db_step_write (_id b) [BOOKED; DEPARTED] CANCELLED (mkEvent CANCELLED now None) db
                  table_cancel) as H.
    destruct (Booking_findOneAndUpdate _ _ _ _ db) as [[[u|]|e] db']; exact H.
  - unfold getBookingHistory, bind. rewrite findBookingByIdentifier_lookup.
    destruct (lookup i (bookings db)); apply db_step_refl.
Qed.

End SequentialFacts.


(** ** Requests in flight, one database operation at a time *)

Section StepFacts.
Import JS Mongo Lifecycle Race.

Lemma expected_target (r : Request) (a : Status) :
  In a (expected r) -> table a (target r) = true.
Proof.
  destruct r; simpl; intros H; repeat (destruct H as [<-|H]); try reflexivity; destruct H.
Qed.

Lemma by_ref_id_db (now : Z) (r : Request) (db : DB) : snd (by_ref_id now r db) = db.
Proof.
  unfold by_ref_id, Booking_findOne_ref_id.
  destruct (find _ (bookings db)); reflexivity.
Qed.

(** Only the conditional write touches the database. *)
Lemma step_db (now : Z) (t : Thread) (db : DB) :
  snd (step now t db) = db
  \/ exists r oid ev, t = Writing r oid ev
       /\ snd (step now t db)
          = snd (Booking_findOneAndUpdate oid (expected r) (target r) ev db).
Proof.
  destruct t as [r|r|r oid ev|res]; simpl.
  - left. destruct (ObjectId_isValid (bookingId_of r)).
    + unfold Booking_findById. destruct (find _ (bookings db)); reflexivity.
    + apply by_ref_id_db.
  - left. apply by_ref_id_db.
  - right. exists r, oid, ev. split; [reflexivity|].
    destruct (Booking_findOneAndUpdate _ _ _ _ db) as [[[u|]|e] db']; reflexivity.
  - now left.
Qed.

Lemma step_booking_steps (now : Z) (t : Thread) (db : DB) :
  Forall2 booking_step (bookings db) (bookings (snd (step now t db))).
Proof.
  destruct (step_db now t db) as [->|(r & oid & ev & _ & ->)].
  - apply Forall2_booking_step_refl.
  - apply findOneAndUpdate_steps, expected_target.
Qed.

Lemma booking_step_arrived (x y : Booking) :
  booking_step x y -> status x = ARRIVED -> y = x.
Proof.
  intros [->|(s & ev & _ & Ht)] Hx; [reflexivity|].
  rewrite Hx in Ht. discriminate.
Qed.

End StepFacts.

Section AloneFacts.
Import JS Mongo Lifecycle Race.

Lemma by_ref_id_read (now : Z) (r : Request) (db : DB) :
  byStoreId (bookingId_of r) (bookings db) = None ->
  by_ref_id now r db = (read_result now r db, db).
Proof.
  intros H. unfold by_ref_id, read_result, lookup, Booking_findOne_ref_id.
  rewrite H. unfold byRefId. destruct (find _ (bookings db)); reflexivity.
Qed.

(** The read of a request: one database operation when the identifier is
    found by store id or is no ObjectId, two otherwise. *)
Lemma step_called (now : Z) (r : Request) (db : DB) :
  step now (Called r) db = (read_result now r db, db)
  \/ (step now (Called r) db = (ByIdMissed r, db)
      /\ byStoreId (bookingId_of r) (bookings db) = None).
Proof.
  cbn [step]. destruct (ObjectId_isValid (bookingId_of r)) eqn:V.
  - unfold Booking_findById.
    destruct (find (fun b => String.eqb (_id b) (toObjectId (bookingId_of r))) (bookings db))
      as [b|] eqn:F.
    + left. unfold read_result, lookup, byStoreId. now rewrite V, F.
    + right. split; [reflexivity|]. unfold byStoreId. now rewrite V.
  - left. apply by_ref_id_read. unfold byStoreId. now rewrite V.
Qed.

(** The check and the write of a request that has read, run to the end. *)
Lemma finish_read (now n1 : Z) (r : Request) (db : DB) :
  step n1 (read_result now r db) db
  = (Returned (fst (request_fn now r db)), snd (request_fn now r db)).
Proof.
  unfold read_result.
  destruct r as [i f|i f|i]; cbn [request_fn bookingId_of].
  - rewrite departBooking_cases.
    destruct (lookup i (bookings db)) as [b|]; [|reflexivity].
    cbn [after_read]. destruct (includes [BOOKED] (status b)); [|reflexivity].
    cbn [negb]. destruct (optObjectId f) as [fid|e]; [|reflexivity].
    cbn [step expected target write_failed].
    destruct (Booking_findOneAndUpdate _ _ _ _ db) as [[[u|]|e] db']; reflexivity.
  - rewrite arriveBooking_cases.
    destruct (lookup i (bookings db)) as [b|]; [|reflexivity].
    cbn [after_read]. destruct (includes [DEPARTED; BOOKED] (status b)); [|reflexivity].
    cbn [negb]. destruct (optObjectId f) as [fid|e]; [|reflexivity].
    cbn [step expected target write_failed].
    destruct (Booking_findOneAndUpdate _ _ _ _ db) as [[[u|]|e] db']; reflexivity.
  - rewrite cancelBooking_cases.
    destruct (lookup i (bookings db)) as [b|]; [|reflexivity].
    cbn [after_read]. destruct (Status_eqb (status b) ARRIVED); [reflexivity|].
    destruct (includes [BOOKED; DEPARTED] (status b)); [|reflexivity].
    cbn [negb step expected target write_failed].
    destruct (Booking_findOneAndUpdate _ _ _ _ db) as [[[u|]|e] db']; reflexivity.
Qed.

(** A request with no other in flight is the controller function: three
    database operations at most, the event stamped when the read returns. *)
Lemma run_alone_is_controller (now : Z) (r : Request) (db : DB) :
  run_alone [now; now; now] (Called r) db
  = (Returned (fst (request_fn now r db)), snd (request_fn now r db)).
Proof.
  unfold run_alone. cbn [fold_left fst snd].
  destruct (step_called now r db) as [E|[E Hn]]; rewrite E; cbn [fst snd].
  - rewrite finish_read. reflexivity.
  - cbn [step]. rewrite (by_ref_id_read now r db Hn). cbn [fst snd].
    apply finish_read.
Qed.

Lemma step_remaining (now : Z) (t : Thread) (db : DB) :
  (remaining (fst (step now t db)) <= remaining t - 1)%nat.
Proof.
  assert (Hb : forall r, (remaining (fst (by_ref_id now r db)) <= 1)%nat).
  { intros r. unfold by_ref_id, Booking_findOne_ref_id.
    destruct (find _ (bookings db)) as [b|]; cbn [fst remaining]; [|lia].
    destruct r as [i f|i f|i]; cbn [after_read].
    - destruct (negb _); [simpl; lia|]. destruct (optObjectId f); simpl; lia.
    - destruct (negb _); [simpl; lia|]. destruct (optObjectId f); simpl; lia.
    - destruct (Status_eqb _ _); [simpl; lia|]. destruct (negb _); simpl; lia. }
  destruct t as [r|r|r oid ev|res]; cbn [step].
  - destruct (ObjectId_isValid _).
    + unfold Booking_findById. destruct (find _ (bookings db)) as [b|]; cbn [fst remaining]; [|lia].
      destruct r as [i f|i f|i]; cbn [after_read].
      * destruct (negb _); [simpl; lia|]. destruct (optObjectId f); simpl; lia.
      * destruct (negb _); [simpl; lia|]. destruct (optObjectId f); simpl; lia.
      * destruct (Status_eqb _ _); [simpl; lia|]. destruct (negb _); simpl; lia.
    + specialize (Hb r). simpl. lia.
  - specialize (Hb r). simpl. lia.
  - destruct (Booking_findOneAndUpdate _ _ _ _ db) as [[[u|]|e] db']; simpl; lia.
  - simpl. lia.
Qed.

End AloneFacts.

(** ** The lifecycle claims *)

(** C3. Lifecycle operations follow the transition table: a created booking
    is BOOKED; depart succeeds only from BOOKED and yields DEPARTED, arrive
    only from BOOKED or DEPARTED and yields ARRIVED, cancel only from BOOKED or
    DEPARTED and yields CANCELLED; and every operation, and every database
    operation of a request in flight, moves stored bookings along the table
    BOOKED-DEPARTED, BOOKED-ARRIVED, DEPARTED-ARRIVED, BOOKED-CANCELLED,
    DEPARTED-CANCELLED only. *)
Theorem transitions_follow_table :
  (forall env data db b db',
      Lifecycle.createBooking env data db = (Mongo.Ok b, db') ->
      status b = BOOKED /\ bookings db' = (bookings db ++ [b])%list)
  /\ (forall now i f db u db',
        Lifecycle.departBooking now i f db = (Mongo.Ok u, db') ->
        exists b x ev,
          Lifecycle.lookup i (bookings db) = Some b /\ status b = BOOKED
          /\ In x (bookings db) /\ _id x = _id b /\ status x = BOOKED
          /\ u = Mongo.set_and_push DEPARTED ev x
          /\ event ev = DEPARTED /\ timestamp ev = now
          /\ In u (bookings db'))
  /\ (forall now i f db u db',
        Lifecycle.arriveBooking now i f db = (Mongo.Ok u, db') ->
        exists b x ev,
          Lifecycle.lookup i (bookings db) = Some b
          /\ (status b = BOOKED \/ status b = DEPARTED)
          /\ In x (bookings db) /\ _id x = _id b
          /\ (status x = BOOKED \/ status x = DEPARTED)
          /\ u = Mongo.set_and_push ARRIVED ev x
          /\ event ev = ARRIVED /\ timestamp ev = now
          /\ In u (bookings db'))
  /\ (forall now i db u db',
        Lifecycle.cancelBooking now i db = (Mongo.Ok u, db') ->
        exists b x ev,
          Lifecycle.lookup i (bookings db) = Some b
          /\ (status b = BOOKED \/ status b = DEPARTED)
          /\ In x (bookings db) /\ _id x = _id b
          /\ (status x = BOOKED \/ status x = DEPARTED)
          /\ u = Mongo.set_and_push CANCELLED ev x
          /\ event ev = CANCELLED /\ timestamp ev = now
          /\ In u (bookings db'))
  /\ (forall op db, Lifecycle.db_step db (snd (Lifecycle.exec_op op db)))
  /\ (forall now t db,
        Forall2 Lifecycle.booking_step (bookings db) (bookings (snd (Race.step now t db))))
  /\ (forall a b,
        Lifecycle.table a b = true <->
        (a = BOOKED /\ b = DEPARTED) \/ (a = BOOKED /\ b = ARRIVED)
        \/ (a = DEPARTED /\ b = ARRIVED)
        \/ (a = BOOKED /\ b = CANCELLED) \/ (a = DEPARTED /\ b = CANCELLED)).
Proof.
  split; [|split; [|split; [|split; [|split; [|split]]]]].
  - intros env data db b db' H.
    apply createBooking_ok in H as (-> & _ & _ & _ & _ & _ & _ & _ & _ & Hs & _).
    now split.
  - intros now i f db u db'. rewrite departBooking_cases.
    destruct (Lifecycle.lookup i (bookings db)) as [b|]; [|discriminate].
    destruct (Mongo.includes [BOOKED] (status b)) eqn:Hb; [|discriminate].
    destruct (Lifecycle.optObjectId f) as [fid|]; [|discriminate].
    destruct (Mongo.Booking_findOneAndUpdate _ _ _ _ db) as [[[u'|]|e] d] eqn:E;
      intros H; inversion H; subst.
    apply findOneAndUpdate_some in E as (x & Hx & Hid & Hst & Hu & Hin).
    apply includes_In in Hb. destruct Hb as [Hb|[]]. destruct Hst as [Hst|[]].
    exists b, x, (mkEvent DEPARTED now fid). repeat split; auto.
  - intros now i f db u db'. rewrite arriveBooking_cases.
    destruct (Lifecycle.lookup i (bookings db)) as [b|]; [|discriminate].
    destruct (Mongo.includes [DEPARTED; BOOKED] (status b)) eqn:Hb; [|discriminate].
    destruct (Lifecycle.optObjectId f) as [fid|]; [|discriminate].
    destruct (Mongo.Booking_findOneAndUpdate _ _ _ _ db) as [[[u'|]|e] d] eqn:E;
      intros H; inversion H; subst.
    apply findOneAndUpdate_some in E as (x & Hx & Hid & Hst & Hu & Hin).
    apply includes_In in Hb.
    exists b, x, (mkEvent ARRIVED now fid). repeat split; auto.
    + destruct Hb as [Hb|[Hb|[]]]; auto.
    + destruct Hst as [Hst|[Hst|[]]]; auto.
  - intros now i db u db'. rewrite cancelBooking_cases.
    destruct (Lifecycle.lookup i (bookings db)) as [b|]; [|discriminate].
    destruct (Status_eqb (status b) ARRIVED); [discriminate|].
    destruct (Mongo.includes [BOOKED; DEPARTED] (status b)) eqn:Hb; [|discriminate].
    destruct (Mongo.Booking_findOneAndUpdate _ _ _ _ db) as [[[u'|]|e] d] eqn:E;
      intros H; inversion H; subst.
    apply findOneAndUpdate_some in E as (x & Hx & Hid & Hst & Hu & Hin).
    apply includes_In in Hb.
    exists b, x, (mkEvent CANCELLED now None). repeat split; auto.
    + destruct Hb as [Hb|[Hb|[]]]; auto.
    + destruct Hst as [Hst|[Hst|[]]]; auto.
  - apply exec_op_db_step.
  - apply step_booking_steps.
  - apply table_cases.
Qed.

(** C2. Cancelling a booking observed as ARRIVED fails with the "already
    arrived" error, an invalid transition, and leaves the database as it
    was; the request reaches no write; and no database operation of any
    request, and no operation, changes a stored booking that is ARRIVED. *)
Theorem cancel_after_arrival (now : Z) (i : string) (db : DB) (b : Booking) :
  Lifecycle.lookup i (bookings db) = Some b ->
  status b = ARRIVED ->
  Lifecycle.cancelBooking now i db = (Mongo.Err Mongo.CannotCancelArrived, db)
  /\ Lifecycle.kind Mongo.CannotCancelArrived = Lifecycle.InvalidTransition
  /\ (forall nows,
        snd (Race.run_alone nows (Race.Called (Race.Cancel i)) db) = db
        /\ forall r oid ev,
             fst (Race.run_alone nows (Race.Called (Race.Cancel i)) db)
             <> Race.Writing r oid ev)
  /\ (forall now' t,
        Forall2 (fun x y => status x = ARRIVED -> y = x)
                (bookings db) (bookings (snd (Race.step now' t db))))
  /\ (forall op,
        exists moved created,
          bookings (snd (Lifecycle.exec_op op db)) = (moved ++ created)%list
          /\ Forall2 (fun x y => status x = ARRIVED -> y = x) (bookings db) moved).
Proof.
  intros Hl Hs.
  split; [|split; [reflexivity|split; [|split]]].
  - rewrite cancelBooking_cases, Hl, Hs. reflexivity.
  - intros nows.
    assert (Hr : forall n, Race.read_result n (Race.Cancel i) db
                 = Race.Returned (Mongo.Err Mongo.CannotCancelArrived)).
    { intros n. unfold Race.read_result. cbn [Race.bookingId_of]. rewrite Hl.
      cbn [Race.after_read]. now rewrite Hs. }
    (* the request is reading, or has returned *)
    set (reading := fun t =>
           t = Race.Called (Race.Cancel i)
           \/ (t = Race.ByIdMissed (Race.Cancel i)
               /\ Lifecycle.byStoreId i (bookings db) = None)
           \/ exists res, t = Race.Returned res).
    assert (Hstep : forall t n, reading t ->
               snd (Race.step n t db) = db /\ reading (fst (Race.step n t db))).
    { intros t n [->|[[-> Hb]|(res & ->)]].
      - destruct (step_called n (Race.Cancel i) db) as [E|[E Hb]]; rewrite E; cbn [fst snd].
        + rewrite Hr. split; [reflexivity|]. right. right. eauto.
        + split; [reflexivity|]. right. left. now split.
      - cbn [Race.step]. rewrite (by_ref_id_read n (Race.Cancel i) db Hb), Hr.
        split; [reflexivity|]. right. right. cbn [fst]. eauto.
      - split; [reflexivity|]. right. right. cbn [Race.step fst]. eauto. }
    assert (Hrun : forall t, reading t ->
               snd (Race.run_alone nows t db) = db
               /\ reading (fst (Race.run_alone nows t db))).
    { unfold Race.run_alone. induction nows as [|n nows IH]; intros t Ht.
      - now split.
      - cbn [fold_left fst snd].
        destruct (Hstep t n Ht) as [Hd Hrd].
        destruct (Race.step n t db) as [t' d']. cbn [fst snd] in *. subst d'.
        now apply IH. }
    destruct (Hrun (Race.Called (Race.Cancel i)) (or_introl eq_refl)) as [Hd Hrd].
    split; [exact Hd|].
    intros r oid ev E. rewrite E in Hrd.
    destruct Hrd as [H|[[H _]|(res & H)]]; discriminate.
  - intros now' t.
    eapply Forall2_impl; [|apply step_booking_steps].
    intros x y. apply booking_step_arrived.
  - intros op. destruct (exec_op_db_step op db) as (_ & moved & created & E & F & _).
    exists moved, created. split; [exact E|].
    eapply Forall2_impl; [|exact F]. intros x y. apply booking_step_arrived.
Qed.

(** C8, as amended. After a successful create, history on the returned
    reference id returns the stored booking: origin and destination are the
    submitted codes upper-cased and trimmed, pieces and weight are the
    numbers [parseInt] reads from the submitted values (the leading integer,
    as the nearest double; stated for finite values), so a plain integer up
    to 2^53 is stored as submitted; the status is BOOKED and the timeline
    has exactly one entry. *)
Theorem create_then_history (env : Lifecycle.SaveEnv) (data : Lifecycle.BookingData)
    (db db' : DB) (b : Booking) :
  Lifecycle.createBooking env data db = (Mongo.Ok b, db') ->
  Lifecycle.getBookingHistory (ref_id b) db' = (Mongo.Ok b, db')
  /\ origin b = JS.trim (JS.toUpperCase (Lifecycle.bd_origin data))
  /\ destination b = JS.trim (JS.toUpperCase (Lifecycle.bd_destination data))
  /\ (JS.finite (pieces b) -> JS.parseInt (Lifecycle.bd_pieces data) = Some (pieces b))
  /\ (JS.finite (weight_kg b) ->
      JS.parseInt (Lifecycle.bd_weight_kg data) = Some (weight_kg b))
  /\ (forall text,
        text <> "" -> RefId.all_digits text = true -> RefId.decimal_value text <= JS.two53 ->
        (Lifecycle.bd_pieces data = text -> pieces b = RefId.decimal_value text)
        /\ (Lifecycle.bd_weight_kg data = text -> weight_kg b = RefId.decimal_value text))
  /\ status b = BOOKED
  /\ List.length (timeline b) = 1%nat.
Proof.
  intros H.
  apply createBooking_ok in H
    as (-> & Hid & Hr & Ho & Hd & Hp & Hw & _ & _ & Hs & Ht & Hfresh).
  split; [|split; [exact Ho|split; [exact Hd|split; [auto|split; [auto|split;
            [|split; [exact Hs | now rewrite Ht]]]]]]].
  - destruct (generateRefId_normal (Lifecycle.today env) (bookings db)) as (Hn & Hv & _).
    cbv zeta in Hn, Hv. rewrite <- Hr in Hn, Hv.
    unfold Lifecycle.getBookingHistory, Mongo.bind.
    rewrite findBookingByIdentifier_lookup. cbn [bookings].
    assert (Hl : Lifecycle.lookup (ref_id b) (bookings db ++ [b]) = Some b).
    { unfold Lifecycle.lookup, Lifecycle.byStoreId, Lifecycle.byRefId.
      rewrite Hv, Hn. apply find_app_last.
      - intros x Hx. apply String.eqb_neq. now apply Hfresh.
      - apply String.eqb_refl. }
    rewrite Hl. unfold Mongo.ret. f_equal. f_equal.
    destruct b as [i r o d p w s f t]. cbn in *. subst t. reflexivity.
  - intros text Hne Hdig Hsafe. split; intros E; rewrite E in *.
    + rewrite (parseInt_exact text Hne Hdig Hsafe) in Hp. congruence.
    + rewrite (parseInt_exact text Hne Hdig Hsafe) in Hw. congruence.
Qed.

Section RefIdLookup.
Import JS Mongo Lifecycle.

(** With unique reference ids, the query on [ref_id] returns the booking
    that carries it. *)
Lemma find_by_ref_id (bs : list Booking) (b : Booking) (r : string) :
  NoDup (map ref_id bs) -> In b bs -> ref_id b = r ->
  find (fun x => String.eqb (ref_id x) r) bs = Some b.
Proof.
  intros Hnd Hin Hr. induction bs as [|y bs IH]; [destruct Hin|].
  inversion Hnd as [|? ? Hnotin Hnd']; subst. cbn [find].
  destruct Hin as [->|Hin]; [now rewrite String.eqb_refl|].
  destruct (String.eqb (ref_id y) (ref_id b)) eqn:E; [|now apply IH].
  exfalso. apply Hnotin. apply String.eqb_eq in E. rewrite E. now apply in_map.
Qed.

End RefIdLookup.

(** C10, as amended. Every lifecycle operation resolves its identifier
    through [findBookingByIdentifier]; the reference-id stage looks up the
    identifier upper-cased and trimmed, so identifiers that differ in letter
    case or surrounding white space only resolve to the same booking when
    the store-id stage resolves neither, and a booking is found under its
    reference id written in any letter case and with white space around it;
    an identifier that is a valid ObjectId of a stored booking resolves to
    that booking, whatever the reference ids are. *)
Theorem identifier_resolution (db : DB) (i1 i2 : string) :
  JS.trim (JS.toUpperCase i1) = JS.trim (JS.toUpperCase i2) ->
  (* the reference-id stage *)
  Lifecycle.byRefId i1 (bookings db) = Lifecycle.byRefId i2 (bookings db)
  /\ Lifecycle.byRefId i1 (bookings db)
     = find (fun b => String.eqb (ref_id b) (JS.trim (JS.toUpperCase i1))) (bookings db)
  (* the same booking when the store-id stage resolves neither *)
  /\ (Lifecycle.byStoreId i1 (bookings db) = None ->
      Lifecycle.byStoreId i2 (bookings db) = None ->
      Lifecycle.findBookingByIdentifier i1 db = Lifecycle.findBookingByIdentifier i2 db)
  (* a booking is found under its reference id, however it is written *)
  /\ (forall b,
        NoDup (map ref_id (bookings db)) -> In b (bookings db) ->
        JS.trim (JS.toUpperCase i1) = ref_id b ->
        Lifecycle.byStoreId i1 (bookings db) = None ->
        Lifecycle.byStoreId i2 (bookings db) = None ->
        Lifecycle.findBookingByIdentifier i1 db = (Mongo.Ok (Some b), db)
        /\ Lifecycle.findBookingByIdentifier i2 db = (Mongo.Ok (Some b), db)
        /\ Mongo.Booking_findOne_ref_id (ref_id b) db = (Mongo.Ok (Some b), db))
  (* the store id comes first *)
  /\ (forall b,
        Mongo.ObjectId_isValid i1 = true ->
        find (fun x => String.eqb (_id x) (Mongo.toObjectId i1)) (bookings db) = Some b ->
        Lifecycle.findBookingByIdentifier i1 db = (Mongo.Ok (Some b), db))
  (* the four operations see the identifier through the resolution only *)
  /\ (Lifecycle.findBookingByIdentifier i1 db = Lifecycle.findBookingByIdentifier i2 db ->
      (forall now f, Lifecycle.departBooking now i1 f db = Lifecycle.departBooking now i2 f db)
      /\ (forall now f, Lifecycle.arriveBooking now i1 f db = Lifecycle.arriveBooking now i2 f db)
      /\ (forall now, Lifecycle.cancelBooking now i1 db = Lifecycle.cancelBooking now i2 db)
      /\ Lifecycle.getBookingHistory i1 db = Lifecycle.getBookingHistory i2 db)
  (* the route that fetches one booking resolves the same way *)
  /\ Lifecycle.getBooking i1 db = Lifecycle.findBookingByIdentifier i1 db.
Proof.
  intros Hn. split; [|split; [|split; [|split; [|split; [|split]]]]].
  - unfold Lifecycle.byRefId. now rewrite Hn.
  - reflexivity.
  - intros H1 H2. rewrite !findBookingByIdentifier_lookup.
    unfold Lifecycle.lookup. rewrite H1, H2.
    unfold Lifecycle.byRefId. now rewrite Hn.
  - intros b Hnd Hin Hr V1 V2.
    assert (Hf : forall r, r = ref_id b ->
              find (fun x => String.eqb (ref_id x) r) (bookings db) = Some b)
      by (intros r ->; now apply find_by_ref_id).
    rewrite !findBookingByIdentifier_lookup.
    unfold Lifecycle.lookup, Lifecycle.byRefId, Mongo.Booking_findOne_ref_id.
    rewrite V1, V2, <- Hn, !(Hf _ Hr), (Hf _ eq_refl). repeat split.
  - intros b Hv Hf. rewrite findBookingByIdentifier_lookup.
    unfold Lifecycle.lookup, Lifecycle.byStoreId. now rewrite Hv, Hf.
  - intros E. split; [|split; [|split]]; intros;
      unfold Lifecycle.departBooking, Lifecycle.arriveBooking, Lifecycle.cancelBooking,
        Lifecycle.getBookingHistory, Mongo.bind; now rewrite E.
  - unfold Lifecycle.getBooking, Lifecycle.findBookingByIdentifier, Mongo.bind.
    destruct (Mongo.ObjectId_isValid i1); [|reflexivity].
    destruct (Mongo.Booking_findById _ db) as [[[x|]|e] d]; reflexivity.
Qed.

(** C10, counterexample. The store id of a booking and the same text with
    a blank in front differ in surrounding white space only; the first
    resolves to the booking, the second is no ObjectId and names no
    reference id, and resolves to nothing: a cancellation under the first
    succeeds, under the second it throws 'Booking not found'. *)
Lemma identifier_blank_hides_store_id :
  let i1 := "bbbbbbbbbbbbbbbbbbbbbbb1" in
  let i2 := " bbbbbbbbbbbbbbbbbbbbbbb1" in
  JS.trim (JS.toUpperCase i1) = JS.trim (JS.toUpperCase i2)
  /\ Lifecycle.createBooking Examples.env1 Examples.data1 Examples.db0
     = (Mongo.Ok Examples.booking1, Examples.db1)
  /\ Lifecycle.findBookingByIdentifier i1 Examples.db1
     = (Mongo.Ok (Some Examples.booking1), Examples.db1)
  /\ Lifecycle.findBookingByIdentifier i2 Examples.db1 = (Mongo.Ok None, Examples.db1)
  /\ (exists u db', Lifecycle.cancelBooking 200 i1 Examples.db1 = (Mongo.Ok u, db'))
  /\ Lifecycle.cancelBooking 200 i2 Examples.db1
     = (Mongo.Err Mongo.BookingNotFound, Examples.db1).
Proof.
  cbv zeta. repeat split; try (vm_compute; reflexivity).
  eexists. eexists. vm_compute. reflexivity.
Qed.

(** ** The reference id of a new booking *)

Section RefIdHook.
Import JS RefId Mongo Lifecycle.

Lemma toUpperCase_digits (s : string) : all_digits s = true -> toUpperCase s = s.
Proof.
  induction s as [|c s IH]; cbn [all_digits toUpperCase]; intros H; [reflexivity|].
  apply andb_true_iff in H as [Hc Hs]. apply andb_true_iff in Hc as [H1 H2].
  apply Z.leb_le in H1, H2. rewrite (IH Hs). f_equal.
  unfold upper_char, is_lower.
  replace (97 <=? code c) with false by lia. reflexivity.
Qed.

Lemma prefixOf_valid (d : UTCDate) :
  valid_date d ->
  toUpperCase (prefixOf d) = prefixOf d /\ String.length (prefixOf d) = 14%nat.
Proof.
  intros Hv. unfold prefixOf. rewrite (dateStr_valid d Hv).
  destruct Hv as (Hy & Hm & Hd). split.
  - rewrite !toUpperCase_append.
    rewrite (toUpperCase_digits (pad 4 (year d))) by (apply all_digits_pad; lia).
    rewrite (toUpperCase_digits (pad 2 (month d))) by (apply all_digits_pad; lia).
    rewrite (toUpperCase_digits (pad 2 (day d))) by (apply all_digits_pad; lia).
    reflexivity.
  - rewrite !length_append.
    rewrite !length_pad by (cbn; lia). reflexivity.
Qed.




(** The id the hook builds after a last id of the day. *)
Lemma generateRefId_next (today : UTCDate) (bs : list Booking) (ds : string) :
  findLastRefId (prefixOf today) bs = Some (prefixOf today ++ ds) ->
  ds <> "" -> all_digits ds = true ->
  generateRefId today bs
  = prefixOf today
    ++ padStart 6 "0" (Number_toString (plus (toNumber (decimal_value ds)) 1)).
Proof.
  intros E Hne Hd. unfold generateRefId. cbv zeta. rewrite E.
  unfold nextSequence.
  rewrite split_refid by (apply all_digits_lacks; [cbn; lia | exact Hd]).
  rewrite parseInt_digits by assumption. reflexivity.
Qed.

(** Below 2^53 the next sequence number is the suffix plus one. *)
Lemma next_exact (v : Z) : 0 <= v < two53 -> plus (toNumber v) 1 = v + 1.
Proof.
  intros H. unfold plus. rewrite (toNumber_exact v) by lia.
  apply toNumber_exact. lia.
Qed.

End RefIdHook.



(** ** Two cancellations in flight *)

Section CancelRaceFacts.
Import JS Mongo Lifecycle Race.

Variables (db0 : DB) (b : Booking) (i1 i2 : string).
Hypothesis ids_unique : NoDup (map _id (bookings db0)).
Hypothesis resolves1 : lookup i1 (bookings db0) = Some b.
Hypothesis resolves2 : lookup i2 (bookings db0) = Some b.
Hypothesis booked : status b = BOOKED.

Lemma lookup_in (i : string) (bs : list Booking) (x : Booking) :
  lookup i bs = Some x -> In x bs.
Proof.
  unfold lookup, byStoreId, byRefId.
  destruct (ObjectId_isValid i).
  - destruct (find (fun y => String.eqb (_id y) (toObjectId i)) bs) as [y|] eqn:F.
    + intros H. inversion H; subst. now apply find_some in F.
    + intros H. now apply find_some in H.
  - intros H. now apply find_some in H.
Qed.

Lemma find_unique (q : Booking -> bool) (bs : list Booking) (x : Booking) :
  NoDup (map _id bs) -> In x bs -> q x = true ->
  (forall y, q y = true -> _id y = _id x) ->
  find q bs = Some x.
Proof.
  intros Hnd Hin Hq Hid. induction bs as [|y bs IH]; [destruct Hin|].
  inversion Hnd as [|? ? Hnotin Hnd']; subst. simpl.
  destruct Hin as [->|Hin]; [now rewrite Hq|].
  destruct (q y) eqn:E; [|now apply IH].
  exfalso. apply Hnotin. rewrite (Hid y E). now apply in_map.
Qed.

Lemma lookup_map (g : Booking -> Booking) (i : string) (bs : list Booking) :
  (forall x, _id (g x) = _id x) -> (forall x, ref_id (g x) = ref_id x) ->
  lookup i (map g bs) = option_map g (lookup i bs)
  /\ byStoreId i (map g bs) = option_map g (byStoreId i bs).
Proof.
  intros Hi Hr.
  assert (Hs : byStoreId i (map g bs) = option_map g (byStoreId i bs)).
  { unfold byStoreId. destruct (ObjectId_isValid i); [|reflexivity].
    apply find_map_stable. intros x. now rewrite Hi. }
  split; [|exact Hs].
  unfold lookup. rewrite Hs.
  destruct (byStoreId i bs); [reflexivity|]. simpl.
  unfold byRefId. apply find_map_stable. intros x. now rewrite Hr.
Qed.

Lemma find_map_none (q : Booking -> bool) (g : Booking -> Booking) (l : list Booking) :
  (forall x, q (g x) = false) -> find q (map g l) = None.
Proof.
  intros H. induction l as [|y l IH]; simpl; [reflexivity|]. now rewrite H.
Qed.

(** The write of the first cancellation to land. *)
Lemma first_write (ev : TimelineEvent) :
  exists u d,
    Booking_findOneAndUpdate (_id b) [BOOKED; DEPARTED] CANCELLED ev db0 = (Ok (Some u), d)
    /\ status u = CANCELLED
    /\ cancelled_db b i1 i2 d
    /\ (forall j, byStoreId j (bookings db0) = None -> byStoreId j (bookings d) = None).
Proof.
  set (m := fun x => String.eqb (_id x) (_id b) && includes [BOOKED; DEPARTED] (status x)).
  set (g := fun x => if m x then set_and_push CANCELLED ev x else x).
  assert (Hin : In b (bookings db0)) by (eapply lookup_in; exact resolves1).
  assert (Hmb : m b = true).
  { unfold m. rewrite String.eqb_refl, booked. reflexivity. }
  assert (Hmid : forall y, m y = true -> _id y = _id b).
  { intros y Hy. apply andb_true_iff in Hy as [Hy _]. now apply String.eqb_eq. }
  assert (Hfind : find m (bookings db0) = Some b) by (apply find_unique; auto).
  assert (Hsnd : snd (updateFirst m (set_and_push CANCELLED ev) (bookings db0))
                 = map g (bookings db0)).
  { apply (updateFirst_as_map (_id b)); auto. }
  assert (Hfst : fst (updateFirst m (set_and_push CANCELLED ev) (bookings db0))
                 = Some (set_and_push CANCELLED ev b)).
  { rewrite updateFirst_result, Hfind. reflexivity. }
  assert (Hgid : forall x, _id (g x) = _id x) by (intros x; unfold g; now destruct (m x)).
  assert (Hgref : forall x, ref_id (g x) = ref_id x) by (intros x; unfold g; now destruct (m x)).
  assert (Hgm : forall x, m (g x) = false).
  { intros x. unfold g. destruct (m x) eqn:E; [|exact E].
    unfold m. cbn [set_and_push status _id]. apply andb_false_r. }
  exists (set_and_push CANCELLED ev b), (mkDB (flights db0) (map g (bookings db0))).
  split; [|split; [reflexivity|split; [split|]]].
  - unfold Booking_findOneAndUpdate. fold m.
    destruct (updateFirst m (set_and_push CANCELLED ev) (bookings db0)) as [o r].
    cbn [fst snd] in *. now subst.
  - intros i Hi. cbn [bookings].
    destruct (lookup_map g i (bookings db0) Hgid Hgref) as [-> _].
    assert (Hl : lookup i (bookings db0) = Some b) by (destruct Hi; subst; assumption).
    rewrite Hl. cbn [option_map]. exists (g b). split; [reflexivity|].
    unfold g. now rewrite Hmb.
  - intros ev'. unfold Booking_findOneAndUpdate. fold m. cbn [bookings flights].
    rewrite updateFirst_no_match; [reflexivity|].
    apply find_map_none. exact Hgm.
  - intros j Hj. cbn [bookings].
    destruct (lookup_map g j (bookings db0) Hgid Hgref) as [_ ->]. now rewrite Hj.
Qed.


Lemma read_booked (now : Z) (i : string) :
  lookup i (bookings db0) = Some b ->
  read_result now (Cancel i) db0 = Writing (Cancel i) (_id b) (mkEvent CANCELLED now None).
Proof.
  intros H. unfold read_result. cbn [bookingId_of]. rewrite H.
  cbn [after_read]. now rewrite booked.
Qed.

Lemma resolves_either (i : string) : i = i1 \/ i = i2 -> lookup i (bookings db0) = Some b.
Proof. intros [->| ->]; assumption. Qed.

(** A request that has not written moves on, or its write is the first. *)
Lemma step_reading (now : Z) (i : string) (t : Thread) :
  i = i1 \/ i = i2 -> reading b db0 i t ->
  (snd (step now t db0) = db0 /\ reading b db0 i (fst (step now t db0)))
  \/ (won (fst (step now t db0))
      /\ cancelled_db b i1 i2 (snd (step now t db0))
      /\ forall j, byStoreId j (bookings db0) = None ->
                   byStoreId j (bookings (snd (step now t db0))) = None).
Proof.
  intros Hi [->|[[-> Hb]|(n & ->)]].
  - left. destruct (step_called now (Cancel i) db0) as [E|[E Hb]]; rewrite E; cbn [fst snd].
    + rewrite read_booked by now apply resolves_either.
      split; [reflexivity|]. right. right. eauto.
    + split; [reflexivity|]. right. left. now split.
  - left. cbn [step]. rewrite (by_ref_id_read now (Cancel i) db0 Hb).
    rewrite read_booked by now apply resolves_either.
    split; [reflexivity|]. right. right. cbn [fst]. eauto.
  - right. destruct (first_write (mkEvent CANCELLED n None)) as (u & d & E & Hu & Hc & Hs).
    cbn [step expected target]. rewrite E. cbn [fst snd].
    split; [|split; assumption]. exists u. now split.
Qed.

Lemma read_cancelled (d : DB) (now : Z) (i : string) :
  cancelled_db b i1 i2 d -> i = i1 \/ i = i2 ->
  read_result now (Cancel i) d = Returned (Err (CannotCancel CANCELLED)).
Proof.
  intros [Hl _] Hi. destruct (Hl i Hi) as (b' & Hb' & Hs).
  unfold read_result. cbn [bookingId_of]. rewrite Hb'.
  cbn [after_read]. now rewrite Hs.
Qed.

(** Once a cancellation is written, the other request can only fail. *)
Lemma step_lost (d : DB) (now : Z) (i : string) (t : Thread) :
  cancelled_db b i1 i2 d -> i = i1 \/ i = i2 -> lost b d i t ->
  snd (step now t d) = d /\ lost b d i (fst (step now t d)).
Proof.
  intros Hc Hi [[->|[[-> Hb]|(n & ->)]]|[->| ->]].
  - destruct (step_called now (Cancel i) d) as [E|[E Hb]]; rewrite E; cbn [fst snd].
    + rewrite (read_cancelled d now i Hc Hi). split; [reflexivity|]. right. now right.
    + split; [reflexivity|]. left. right. left. now split.
  - cbn [step]. rewrite (by_ref_id_read now (Cancel i) d Hb).
    rewrite (read_cancelled d now i Hc Hi). split; [reflexivity|]. right. now right.
  - cbn [step expected target write_failed]. rewrite (proj2 Hc).
    split; [reflexivity|]. right. now left.
  - split; [reflexivity|]. right. now left.
  - split; [reflexivity|]. right. now right.
Qed.

Lemma reading_transfer (d : DB) (j : string) (t : Thread) :
  (forall k, byStoreId k (bookings db0) = None -> byStoreId k (bookings d) = None) ->
  reading b db0 j t -> reading b d j t.
Proof.
  intros Hs [->|[[-> Hb]|(n & ->)]].
  - now left.
  - right. left. split; [reflexivity | now apply Hs].
  - right. right. eauto.
Qed.

Lemma step_won (now : Z) (t : Thread) (d : DB) : won t -> step now t d = (t, d).
Proof. intros (u & -> & _). reflexivity. Qed.

Lemma sys_step_inv (s : Sys) (turn : nat * Z) :
  race_inv db0 b i1 i2 s -> race_inv db0 b i1 i2 (sys_step s turn).
Proof.
  intros (t1 & t2 & Ht & H). destruct turn as [i now]. destruct s as [d ts].
  cbn [threads sys_db] in *. subst ts. unfold sys_step. cbn [threads sys_db].
  destruct i as [|[|k]]; cbn [nth_error].
  - (* the first request moves *)
    destruct H as [(-> & R1 & R2)|(Hc & [[W1 L2]|[L1 W2]])].
    + destruct (step_reading now i1 t1 (or_introl eq_refl) R1) as [[Hd Hr]|(Hw & Hc & Hs)];
        destruct (step now t1 db0) as [t' d']; cbn [fst snd replace_nth threads sys_db] in *.
      * subst d'. exists t', t2. split; [reflexivity|]. left. auto.
      * exists t', t2. split; [reflexivity|]. right. split; [exact Hc|]. left.
        split; [exact Hw|]. left. now apply reading_transfer.
    + rewrite (step_won now t1 d W1). cbn [replace_nth].
      exists t1, t2. split; [reflexivity|]. right. split; [exact Hc|]. now left.
    + destruct (step_lost d now i1 t1 Hc (or_introl eq_refl) L1) as [Hd Hl].
      destruct (step now t1 d) as [t' d']; cbn [fst snd replace_nth] in *. subst d'.
      exists t', t2. split; [reflexivity|]. right. split; [exact Hc|]. now right.
  - (* the second request moves *)
    destruct H as [(-> & R1 & R2)|(Hc & [[W1 L2]|[L1 W2]])].
    + destruct (step_reading now i2 t2 (or_intror eq_refl) R2) as [[Hd Hr]|(Hw & Hc & Hs)];
        destruct (step now t2 db0) as [t' d']; cbn [fst snd replace_nth threads sys_db] in *.
      * subst d'. exists t1, t'. split; [reflexivity|]. left. auto.
      * exists t1, t'. split; [reflexivity|]. right. split; [exact Hc|]. right.
        split; [|exact Hw]. left. now apply reading_transfer.
    + destruct (step_lost d now i2 t2 Hc (or_intror eq_refl) L2) as [Hd Hl].
      destruct (step now t2 d) as [t' d']; cbn [fst snd replace_nth] in *. subst d'.
      exists t1, t'. split; [reflexivity|]. right. split; [exact Hc|]. now left.
    + rewrite (step_won now t2 d W2). cbn [replace_nth].
      exists t1, t2. split; [reflexivity|]. right. split; [exact Hc|]. now right.
  - (* no such request *)
    destruct k; cbn [nth_error]; exists t1, t2; (split; [reflexivity | exact H]).
Qed.

Lemma run_inv (sched : list (nat * Z)) (s : Sys) :
  race_inv db0 b i1 i2 s -> race_inv db0 b i1 i2 (run sched s).
Proof.
  revert s. unfold run. induction sched as [|turn sched IH]; intros s H; [exact H|].
  cbn [fold_left]. apply IH, sys_step_inv, H.
Qed.

Lemma start_inv :
  race_inv db0 b i1 i2 (mkSys db0 [Called (Cancel i1); Called (Cancel i2)]).
Proof.
  exists (Called (Cancel i1)), (Called (Cancel i2)). split; [reflexivity|].
  left. repeat split; now left.
Qed.

(** A request that reads after the cancellation was written is refused on
    the status it reads, and never holds a write. *)
Lemma step_late (d : DB) (now : Z) (i : string) (t : Thread) :
  cancelled_db b i1 i2 d -> i = i1 \/ i = i2 -> Store.late d i t ->
  snd (step now t d) = d /\ Store.late d i (fst (step now t d)).
Proof.
  intros Hc Hi [->|[[-> Hb]| ->]].
  - destruct (step_called now (Cancel i) d) as [E|[E Hb]]; rewrite E; cbn [fst snd].
    + rewrite (read_cancelled d now i Hc Hi). split; [reflexivity|]. right. now right.
    + split; [reflexivity|]. right. left. now split.
  - cbn [step]. rewrite (by_ref_id_read now (Cancel i) d Hb).
    rewrite (read_cancelled d now i Hc Hi). split; [reflexivity|]. right. now right.
  - split; [reflexivity|]. right. now right.
Qed.

Lemma run_late_second (sched : list (nat * Z)) (d : DB) (t1 t2 : Thread) :
  cancelled_db b i1 i2 d -> won t1 -> Store.late d i2 t2 ->
  exists t2', run sched (mkSys d [t1; t2]) = mkSys d [t1; t2'] /\ Store.late d i2 t2'.
Proof.
  intros Hc W1. revert t2. unfold run.
  induction sched as [|[j now] sched IH]; intros t2 L2; cbn [fold_left].
  - exists t2. now split.
  - unfold sys_step at 2. cbn [threads sys_db].
    destruct j as [|[|k]]; cbn [nth_error].
    + rewrite (step_won now t1 d W1). cbn [replace_nth]. now apply IH.
    + destruct (step_late d now i2 t2 Hc (or_intror eq_refl) L2) as [Hd Hl].
      destruct (step now t2 d) as [t' d']. cbn [fst snd replace_nth] in *. subst d'.
      now apply IH.
    + destruct k; cbn [nth_error]; now apply IH.
Qed.

Lemma run_late_first (sched : list (nat * Z)) (d : DB) (t1 t2 : Thread) :
  cancelled_db b i1 i2 d -> Store.late d i1 t1 -> won t2 ->
  exists t1', run sched (mkSys d [t1; t2]) = mkSys d [t1'; t2] /\ Store.late d i1 t1'.
Proof.
  intros Hc L1 W2. revert t1 L1. unfold run.
  induction sched as [|[j now] sched IH]; intros t1 L1; cbn [fold_left].
  - exists t1. now split.
  - unfold sys_step at 2. cbn [threads sys_db].
    destruct j as [|[|k]]; cbn [nth_error].
    + destruct (step_late d now i1 t1 Hc (or_introl eq_refl) L1) as [Hd Hl].
      destruct (step now t1 d) as [t' d']. cbn [fst snd replace_nth] in *. subst d'.
      now apply IH.
    + rewrite (step_won now t2 d W2). cbn [replace_nth]. now apply IH.
    + destruct k; cbn [nth_error]; now apply IH.
Qed.

(** What a request that has not read yet looks like once the other has won. *)
Lemma unread_lost_is_late (d : DB) (i : string) (t : Thread) :
  lost b d i t -> Store.unread t -> Store.late d i t.
Proof.
  intros [[->|[[-> Hb]|(n & ->)]]|[->| ->]] [(r & E)|(r & E)]; try discriminate.
  - now left.
  - right. left. now split.
Qed.

End CancelRaceFacts.

Section ScheduleFacts.
Import JS Mongo Lifecycle Race.

Lemma nth_error_replace_nth {A} (l : list A) (i j : nat) (x : A) :
  nth_error (replace_nth j x l) i
  = if Nat.eqb i j then option_map (fun _ => x) (nth_error l j) else nth_error l i.
Proof.
  revert i j. induction l as [|y l IH]; intros i j.
  - destruct i, j; simpl; try reflexivity. now destruct (Nat.eqb i j).
  - destruct j as [|j]; destruct i as [|i]; simpl; try reflexivity. apply IH.
Qed.

Lemma turns_of_cons (i j : nat) (now : Z) (sched : list (nat * Z)) :
  turns_of i ((j, now) :: sched)
  = ((if Nat.eqb j i then 1 else 0) + turns_of i sched)%nat.
Proof.
  unfold turns_of. cbn [filter fst]. destruct (Nat.eqb j i); reflexivity.
Qed.

(** Every turn of a request takes one of its database operations at least. *)
Lemma run_remaining (sched : list (nat * Z)) (s : Sys) (i : nat) (t : Thread) :
  nth_error (threads s) i = Some t ->
  exists t', nth_error (threads (run sched s)) i = Some t'
             /\ (remaining t' <= remaining t - turns_of i sched)%nat.
Proof.
  revert s t. unfold run. induction sched as [|[j now] sched IH]; intros s t Ht.
  - exists t. split; [exact Ht | cbn; lia].
  - cbn [fold_left]. rewrite turns_of_cons.
    assert (H : exists t1, nth_error (threads (sys_step s (j, now))) i = Some t1
                /\ (remaining t1 <= remaining t - (if Nat.eqb j i then 1 else 0))%nat).
    { unfold sys_step. destruct (nth_error (threads s) j) as [tj|] eqn:Ej.
      - pose proof (step_remaining now tj (sys_db s)) as Hr.
        destruct (step now tj (sys_db s)) as [tj' d']. cbn [threads fst] in *.
        rewrite nth_error_replace_nth, Ej. cbn [option_map].
        destruct (Nat.eqb i j) eqn:E.
        + apply Nat.eqb_eq in E. subst j. rewrite Nat.eqb_refl.
          rewrite Ht in Ej. inversion Ej; subst. eauto.
        + rewrite Nat.eqb_sym, E. exists t. split; [exact Ht | lia].
      - exists t. split; [exact Ht|]. destruct (Nat.eqb j i) eqn:E; [|lia].
        apply Nat.eqb_eq in E. subst j. congruence. }
    destruct H as (t1 & Ht1 & Hle).
    destruct (IH _ _ Ht1) as (t' & Ht' & Hle').
    exists t'. split; [exact Ht'|]. lia.
Qed.

Lemma remaining_zero (t : Thread) : remaining t = 0%nat -> is_returned t = true.
Proof. destruct t; simpl; intros H; [discriminate..|reflexivity]. Qed.

Lemma step_past_read (now : Z) (t : Thread) (d : DB) :
  past_read t -> past_read (fst (step now t d)).
Proof.
  intros [(i & oid & ev & ->)|[(u & ->)| ->]].
  - cbn [step expected target write_failed].
    pose proof (findOneAndUpdate_result oid [BOOKED; DEPARTED] CANCELLED ev d) as H.
    destruct (Booking_findOneAndUpdate _ _ _ _ d) as [[[u|]|e] d']; cbn [fst] in *.
    + right. left. eauto.
    + right. now right.
    + discriminate.
  - right. left. cbn. eauto.
  - right. now right.
Qed.

Lemma run_past_read (sched : list (nat * Z)) (d : DB) (t1 t2 : Thread) :
  past_read t1 -> past_read t2 ->
  Forall past_read (threads (run sched (mkSys d [t1; t2]))).
Proof.
  revert d t1 t2. unfold run.
  induction sched as [|[j now] sched IH]; intros d t1 t2 H1 H2.
  - cbn. constructor; [exact H1|]. constructor; [exact H2 | constructor].
  - cbn [fold_left]. unfold sys_step at 2. cbn [threads sys_db].
    destruct j as [|[|k]]; cbn [nth_error].
    + pose proof (step_past_read now t1 d H1).
      destruct (step now t1 d) as [t' d']. cbn [replace_nth fst] in *. now apply IH.
    + pose proof (step_past_read now t2 d H2).
      destruct (step now t2 d) as [t' d']. cbn [replace_nth fst] in *. now apply IH.
    + destruct k; cbn [nth_error]; now apply IH.
Qed.

(** What every step keeps of a request holds of it to the end. *)
Lemma run_keeps (P : Thread -> Prop) (sched : list (nat * Z)) (s : Sys) (k : nat)
    (t : Thread) :
  (forall now x d, P x -> P (fst (step now x d))) ->
  nth_error (threads s) k = Some t -> P t ->
  exists t', nth_error (threads (run sched s)) k = Some t' /\ P t'.
Proof.
  intros Hstep. revert s t. unfold run.
  induction sched as [|[j now] sched IH]; intros s t Ht HP; cbn [fold_left].
  - exists t. now split.
  - assert (H : exists t1, nth_error (threads (sys_step s (j, now))) k = Some t1 /\ P t1).
    { unfold sys_step. destruct (nth_error (threads s) j) as [tj|] eqn:Ej.
      - pose proof (Hstep now tj (sys_db s)) as Hk.
        destruct (step now tj (sys_db s)) as [tj' d']. cbn [threads fst] in *.
        rewrite nth_error_replace_nth, Ej. cbn [option_map].
        destruct (Nat.eqb k j) eqn:E.
        + apply Nat.eqb_eq in E. subst j. rewrite Ht in Ej. inversion Ej; subst.
          exists tj'. split; [reflexivity | now apply Hk].
        + exists t. now split.
      - exists t. now split. }
    destruct H as (t1 & Ht1 & HP1). exact (IH _ _ Ht1 HP1).
Qed.

Lemma run_app (pre post : list (nat * Z)) (s : Sys) :
  run (pre ++ post) s = run post (run pre s).
Proof. unfold run. apply fold_left_app. Qed.

End ScheduleFacts.

(** C1, as amended. Two cancellations of one BOOKED booking in flight
    together both return, under every schedule that gives each request its
    turns; exactly one succeeds, with the booking CANCELLED, and the other
    fails. What it fails with is settled by the order of its read and the
    winner's write: a request that read the booking before that write, and
    so holds a write of its own, ends with success or with the
    update-failed error, a concurrency conflict - so the loser does when
    both had read before either wrote; a request that has not read when the
    other has succeeded ends with 'Cannot cancel booking with status:
    CANCELLED', an invalid transition. *)
Theorem cancel_race (db0 : DB) (b : Booking) (i1 i2 : string) (sched : list (nat * Z)) :
  NoDup (map _id (bookings db0)) ->
  Lifecycle.lookup i1 (bookings db0) = Some b ->
  Lifecycle.lookup i2 (bookings db0) = Some b ->
  status b = BOOKED ->
  let s0 := Race.mkSys db0 [Race.Called (Race.Cancel i1); Race.Called (Race.Cancel i2)] in
  let s := Race.run sched s0 in
  ((3 <= Race.turns_of 0 sched)%nat -> (3 <= Race.turns_of 1 sched)%nat ->
   Race.all_returned s = true)
  /\ (Race.all_returned s = true ->
      exists u e,
        status u = CANCELLED
        /\ (Race.threads s = [Race.Returned (Mongo.Ok u); Race.Returned (Mongo.Err e)]
            \/ Race.threads s = [Race.Returned (Mongo.Err e); Race.Returned (Mongo.Ok u)])
        /\ (Lifecycle.kind e = Lifecycle.ConcurrencyConflict
            \/ Lifecycle.kind e = Lifecycle.InvalidTransition)
        /\ exists b', Lifecycle.lookup i1 (bookings (Race.sys_db s)) = Some b'
                      /\ status b' = CANCELLED)
  /\ (forall pre post,
        sched = (pre ++ post)%list ->
        Forall Race.is_writing (Race.threads (Race.run pre s0)) ->
        Race.all_returned s = true ->
        Race.one_wins_other_conflicts s)
  /\ (forall pre post k t,
        sched = (pre ++ post)%list ->
        Race.all_returned s = true ->
        nth_error (Race.threads (Race.run pre s0)) k = Some t ->
        (* the request had read the booking, BOOKED, and held its write *)
        (Race.is_writing t ->
         (exists u, nth_error (Race.threads s) k = Some (Race.Returned (Mongo.Ok u)))
         \/ nth_error (Race.threads s) k
            = Some (Race.Returned (Mongo.Err Mongo.CancellationFailed)))
        (* the request had not read when the other had succeeded *)
        /\ (Store.unread t ->
            existsb Race.succeeded (Race.threads (Race.run pre s0)) = true ->
            nth_error (Race.threads s) k
            = Some (Race.Returned (Mongo.Err (Mongo.CannotCancel CANCELLED)))))
  /\ Lifecycle.kind Mongo.CancellationFailed = Lifecycle.ConcurrencyConflict
  /\ Lifecycle.kind (Mongo.CannotCancel CANCELLED) = Lifecycle.InvalidTransition.
Proof.
  intros Hnd H1 H2 Hb s0 s.
  pose proof (run_inv db0 b i1 i2 Hnd H1 H2 Hb sched s0 (start_inv db0 b i1 i2)) as Hinv.
  fold s in Hinv.
  assert (Hout : Race.all_returned s = true ->
      exists u e,
        status u = CANCELLED
        /\ (Race.threads s = [Race.Returned (Mongo.Ok u); Race.Returned (Mongo.Err e)]
            \/ Race.threads s = [Race.Returned (Mongo.Err e); Race.Returned (Mongo.Ok u)])
        /\ (e = Mongo.CancellationFailed \/ e = Mongo.CannotCancel CANCELLED)
        /\ exists b', Lifecycle.lookup i1 (bookings (Race.sys_db s)) = Some b'
                      /\ status b' = CANCELLED).
  { intros Hall. destruct Hinv as (t1 & t2 & Ht & H).
    unfold Race.all_returned in Hall. rewrite Ht in Hall. cbn in Hall.
    apply andb_true_iff in Hall as [R1 R2]. apply andb_true_iff in R2 as [R2 _].
    assert (Hnr : forall d i t, Race.reading b d i t -> Race.is_returned t = true -> False).
    { intros d i t [->|[[-> _]|(n & ->)]]; discriminate. }
    destruct H as [(_ & Rd1 & _)|(Hc & [[(u & -> & Hu) L2]|[L1 (u & -> & Hu)]])].
    - exfalso. eapply Hnr; eassumption.
    - destruct L2 as [Rd|[->| ->]]; [exfalso; eapply Hnr; eassumption| |].
      + exists u, Mongo.CancellationFailed. rewrite Ht.
        repeat split; auto. apply (proj1 Hc). now left.
      + exists u, (Mongo.CannotCancel CANCELLED). rewrite Ht.
        repeat split; auto. apply (proj1 Hc). now left.
    - destruct L1 as [Rd|[->| ->]]; [exfalso; eapply Hnr; eassumption| |].
      + exists u, Mongo.CancellationFailed. rewrite Ht.
        repeat split; auto. apply (proj1 Hc). now left.
      + exists u, (Mongo.CannotCancel CANCELLED). rewrite Ht.
        repeat split; auto. apply (proj1 Hc). now left. }
  split; [|split; [|split; [|split; [|split; reflexivity]]]].
  - intros T0 T1.
    destruct (run_remaining sched s0 0 (Race.Called (Race.Cancel i1)) eq_refl)
      as (t1' & E1 & R1).
    destruct (run_remaining sched s0 1 (Race.Called (Race.Cancel i2)) eq_refl)
      as (t2' & E2 & R2).
    fold s in E1, E2. destruct Hinv as (t1 & t2 & Ht & _).
    rewrite Ht in E1, E2. cbn in E1, E2. inversion E1; inversion E2; subst t1' t2'.
    cbn [Race.remaining] in R1, R2.
    unfold Race.all_returned. rewrite Ht. cbn.
    rewrite (remaining_zero t1), (remaining_zero t2) by lia. reflexivity.
  - intros Hall. destruct (Hout Hall) as (u & e & Hu & Ht & He & Hl).
    exists u, e. repeat split; auto.
    destruct He as [->| ->]; [now left | now right].
  - intros pre post -> Hw Hall.
    destruct (Hout Hall) as (u & e & Hu & Ht & He & _).
    exists u, e. repeat split; auto.
    destruct He as [->| ->]; [reflexivity|]. exfalso.
    (* both requests held their write: neither can read CANCELLED later *)
    pose proof (run_inv db0 b i1 i2 Hnd H1 H2 Hb pre s0 (start_inv db0 b i1 i2))
      as (t1 & t2 & Hpre & Hph).
    assert (Hpast : Forall Race.past_read (Race.threads s)).
    { unfold s. rewrite run_app.
      destruct (Race.run pre s0) as [d ts]. cbn [Race.threads Race.sys_db] in *. subst ts.
      inversion Hw as [|? ? W1 Hw']; subst. inversion Hw' as [|? ? W2 _]; subst.
      assert (Hcancel : forall i t, Race.reading b db0 i t \/ Race.lost b d i t ->
                                    Race.is_writing t -> Race.past_read t).
      { intros i t Hr (r & oid & ev & ->). left.
        destruct Hr as [[Hr|[[Hr _]|(n & Hr)]]|[[Hr|[[Hr _]|(n & Hr)]]|[Hr|Hr]]];
          inversion Hr; subst; eauto. }
      apply run_past_read.
      - destruct Hph as [(_ & R1 & _)|(_ & [[(u' & E & _) _]|[L1 _]])].
        + eapply Hcancel; [left; exact R1 | exact W1].
        + destruct W1 as (r & oid & ev & ->). discriminate.
        + eapply Hcancel; [right; exact L1 | exact W1].
      - destruct Hph as [(_ & _ & R2)|(_ & [[_ L2]|[_ (u' & E & _)]])].
        + eapply Hcancel; [left; exact R2 | exact W2].
        + eapply Hcancel; [right; exact L2 | exact W2].
        + destruct W2 as (r & oid & ev & ->). discriminate. }
    fold s in Ht.
    assert (Hbad : ~ Race.past_read (Race.Returned (Mongo.Err (Mongo.CannotCancel CANCELLED)))).
    { intros [(i & oid & ev & E)|[(u' & E)|E]]; discriminate. }
    destruct Ht as [Ht|Ht]; rewrite Ht in Hpast.
    + inversion Hpast as [|? ? _ Hp]; subst. inversion Hp; subst. auto.
    + inversion Hpast; subst. auto.
  - intros pre post k t -> Hall Hk.
    pose proof (run_inv db0 b i1 i2 Hnd H1 H2 Hb pre s0 (start_inv db0 b i1 i2))
      as (t1 & t2 & Hpre & Hph).
    assert (Hs : s = Race.run post (Race.run pre s0)) by (unfold s; apply run_app).
    clearbody s. subst s.
    assert (Hnr : forall d i x, Race.reading b d i x -> Race.is_returned x = true -> False).
    { intros d i x [->|[[-> _]|(n & ->)]]; discriminate. }
    assert (Hret : forall j x,
               nth_error (Race.threads (Race.run post (Race.run pre s0))) j = Some x ->
               exists res, x = Race.Returned res).
    { intros j x Hx. unfold Race.all_returned in Hall.
      rewrite forallb_forall in Hall. apply nth_error_In in Hx.
      specialize (Hall x Hx). destruct x; try discriminate. eauto. }
    clear Hout Hinv Hall.
    split.
    + intros Hw.
      assert (Hpr : Race.past_read t).
      { destruct Hw as (r & oid & ev & ->). left.
        assert (Hk' : In (Race.Writing r oid ev) [t1; t2])
          by (rewrite <- Hpre; eapply nth_error_In; exact Hk).
        assert (Hcancel : forall d i x, Race.reading b d i x \/ Race.lost b d i x ->
                                        x = Race.Writing r oid ev ->
                                        exists i0, r = Race.Cancel i0).
        { intros d i x Hr ->.
          destruct Hr as [[Hr|[[Hr _]|(n & Hr)]]|[[Hr|[[Hr _]|(n & Hr)]]|[Hr|Hr]]];
            inversion Hr; subst; eauto. }
        assert (Hr : exists i0, r = Race.Cancel i0).
        { destruct Hk' as [E1|[E2|[]]].
          - destruct Hph as [(_ & R1 & _)|(_ & [[(u' & E & _) _]|[L1 _]])].
            + eapply Hcancel; [left; exact R1 | exact E1].
            + rewrite E in E1. discriminate.
            + eapply Hcancel; [right; exact L1 | exact E1].
          - destruct Hph as [(_ & _ & R2)|(_ & [[_ L2]|[_ (u' & E & _)]])].
            + eapply Hcancel; [left; exact R2 | exact E2].
            + eapply Hcancel; [right; exact L2 | exact E2].
            + rewrite E in E2. discriminate. }
        destruct Hr as (i0 & ->). eauto. }
      destruct (run_keeps Race.past_read post (Race.run pre s0) k t step_past_read Hk Hpr)
        as (t' & Ht' & Hp').
      rewrite Ht'.
      destruct (Hret k t' Ht') as (res & ->).
      destruct Hp' as [(i & oid & ev & E)|[(u & E)|E]]; inversion E; subst; eauto.
    + intros Hu Hsome.
      destruct (Race.run pre s0) as [d ts]. cbn [Race.threads Race.sys_db] in *. subst ts.
      destruct Hph as [(_ & R1 & R2)|(Hc & [[W1 L2]|[L1 W2]])].
      * exfalso. cbn in Hsome. apply orb_true_iff in Hsome as [S|S].
        -- destruct t1 as [| | |[u|e]]; try discriminate.
           eapply Hnr; [exact R1 | reflexivity].
        -- rewrite orb_false_r in S. destruct t2 as [| | |[u|e]]; try discriminate.
           eapply Hnr; [exact R2 | reflexivity].
      * destruct k as [|[|k]]; cbn [nth_error] in Hk.
        -- inversion Hk; subst t. destruct W1 as (u & -> & _).
           destruct Hu as [(r & E)|(r & E)]; discriminate.
        -- inversion Hk; subst t.
           destruct (run_late_second b i1 i2 post d t1 t2 Hc W1
                       (unread_lost_is_late b d i2 t2 L2 Hu)) as (t2' & E & Hl).
           rewrite E in Hret |- *. cbn [Race.threads nth_error]. f_equal.
           destruct (Hret 1%nat t2' eq_refl) as (res & ->).
           destruct Hl as [Hl|[[Hl _]|Hl]]; inversion Hl; reflexivity.
        -- destruct k; discriminate.
      * destruct k as [|[|k]]; cbn [nth_error] in Hk.
        -- inversion Hk; subst t.
           destruct (run_late_first b i1 i2 post d t1 t2 Hc
                       (unread_lost_is_late b d i1 t1 L1 Hu) W2) as (t1' & E & Hl).
           rewrite E in Hret |- *. cbn [Race.threads nth_error]. f_equal.
           destruct (Hret 0%nat t1' eq_refl) as (res & ->).
           destruct Hl as [Hl|[[Hl _]|Hl]]; inversion Hl; reflexivity.
        -- inversion Hk; subst t. destruct W2 as (u & -> & _).
           destruct Hu as [(r & E)|(r & E)]; discriminate.
        -- destruct k; discriminate.
Qed.

(** C1, counterexample. Two cancellations of a BOOKED booking, both in
    flight; the first runs to its end before the second reads: the second
    fails on the status it reads, an invalid transition, not a concurrency
    conflict. *)
Lemma cancel_race_loser_reads_late :
  snd (Lifecycle.createBooking Examples.env1 Examples.data1 Examples.db0) = Examples.db1
  /\ Lifecycle.lookup "bbbbbbbbbbbbbbbbbbbbbbb1" (bookings Examples.db1) = Some Examples.booking1
  /\ Lifecycle.lookup "book-20260105-000001" (bookings Examples.db1) = Some Examples.booking1
  /\ status Examples.booking1 = BOOKED
  /\ Race.all_returned (Race.run Examples.one_then_other Examples.two_cancels) = true
  /\ ~ Race.one_wins_other_conflicts (Race.run Examples.one_then_other Examples.two_cancels).
Proof.
  repeat split; try (vm_compute; reflexivity).
  intros (u & e & _ & Hk & [H|H]); vm_compute in H; inversion H; subst;
    vm_compute in Hk; discriminate.
Qed.

(** ** Timelines *)

Section TimelineFacts.
Import JS Mongo Lifecycle.

Lemma updateFirst_members (m : Booking -> bool) (upd : Booking -> Booking)
    (bs : list Booking) (y : Booking) :
  In y (snd (updateFirst m upd bs)) ->
  In y bs \/ exists x, In x bs /\ y = upd x.
Proof.
  induction bs as [|b bs IH]; simpl; [tauto|].
  destruct (m b); simpl.
  - intros [<-|H]; [right; eauto | left; now right].
  - destruct (updateFirst m upd bs) as [o r]. simpl in *.
    intros [<-|H]; [left; now left|].
    destruct (IH H) as [H'|(x & Hx & ->)]; [left; now right | right; eauto].
Qed.

(** The stored bookings after an operation: those stored before, one of them
    with an event of the operation's clock reading pushed, or the booking
    just created. *)
Lemma exec_op_members (op : Op) (db : DB) (y : Booking) :
  In y (bookings (snd (exec_op op db))) ->
  In y (bookings db)
  \/ (exists x s ev, In x (bookings db) /\ y = set_and_push s ev x
                     /\ In (timestamp ev) (op_time op))
  \/ (exists t, timeline y = [mkEvent BOOKED t None] /\ In t (op_time op)).
Proof.
  assert (Hw : forall oid expected s ev,
             In (timestamp ev) (op_time op) ->
             In y (bookings (snd (Booking_findOneAndUpdate oid expected s ev db))) ->
             In y (bookings db)
             \/ (exists x s ev, In x (bookings db) /\ y = set_and_push s ev x
                                /\ In (timestamp ev) (op_time op))
             \/ (exists t, timeline y = [mkEvent BOOKED t None] /\ In t (op_time op))).
  { intros oid expected s ev Ht. unfold Booking_findOneAndUpdate.
    match goal with |- context [updateFirst ?m ?u ?l] =>
      pose proof (updateFirst_members m u l y) as H;
      destruct (updateFirst m u l) as [o r] end.
    cbn [snd bookings] in *. intros Hy.
    destruct (H Hy) as [H'|(x & Hx & ->)]; [now left|].
    right. left. exists x, s, ev. auto. }
  destruct op as [env data|now i f|now i f|now i|i]; cbn [exec_op op_time].
  - destruct (createBooking env data db) as [[b|e] db'] eqn:E; cbn [snd].
    + apply createBooking_ok in E as (-> & _ & _ & _ & _ & _ & _ & _ & _ & _ & Ht & _).
      cbn [bookings]. intros Hy. apply in_app_or in Hy as [Hy|[<-|[]]]; [now left|].
      right. right. exists (Lifecycle.now env). split; [exact Ht | now left].
    + apply createBooking_err in E. subst. now left.
  - rewrite departBooking_cases.
    destruct (lookup i (bookings db)) as [b|]; [|now left].
    destruct (includes [BOOKED] (status b)); [|now left].
    destruct (optObjectId f) as [fid|]; [|now left].
    specialize (Hw (_id b) [BOOKED] DEPARTED (mkEvent DEPARTED now fid) (or_introl eq_refl)).
    destruct (Booking_findOneAndUpdate _ _ _ _ db) as [[[u|]|e] db']; exact Hw.
  - rewrite arriveBooking_cases.
    destruct (lookup i (bookings db)) as [b|]; [|now left].
    destruct (includes [DEPARTED; BOOKED] (status b)); [|now left].
    destruct (optObjectId f) as [fid|]; [|now left].
    specialize (Hw (_id b) [DEPARTED; BOOKED] ARRIVED (mkEvent ARRIVED now fid)
                   (or_introl eq_refl)).
    destruct (Booking_findOneAndUpdate _ _ _ _ db) as [[[u|]|e] db']; exact Hw.
  - rewrite cancelBooking_cases.
    destruct (lookup i (bookings db)) as [b|]; [|now left].
    destruct (Status_eqb (status b) ARRIVED); [now left|].
    destruct (includes [BOOKED; DEPARTED] (status b)); [|now left].
    specialize (Hw (_id b) [BOOKED; DEPARTED] CANCELLED (mkEvent CANCELLED now None)
                   (or_introl eq_refl)).
    destruct (Booking_findOneAndUpdate _ _ _ _ db) as [[[u|]|e] db']; exact Hw.
  - unfold getBookingHistory, bind. rewrite findBookingByIdentifier_lookup.
    destruct (lookup i (bookings db)); now left.
Qed.

Lemma Sorted_snoc (l : list Z) (z : Z) :
  Sorted Z.le l -> (forall a, In a l -> a <= z) -> Sorted Z.le (l ++ [z]).
Proof.
  intros Hs Hle. induction l as [|a l IH]; simpl.
  - repeat constructor.
  - inversion Hs as [|? ? Hs' Hhd]; subst. constructor.
    + apply IH; [exact Hs'|]. intros x Hx. apply Hle. now right.
    + destruct l as [|c l]; simpl.
      * constructor. apply Hle. now left.
      * constructor. now inversion Hhd.
Qed.

(** Pushing an event that is not older than the events recorded keeps a
    timeline as it should be. *)
Lemma timeline_ok_push (x : Booking) (s : Status) (ev : TimelineEvent) :
  timeline_ok x ->
  (forall e, In e (timeline x) -> timestamp e <= timestamp ev) ->
  timeline_ok (set_and_push s ev x).
Proof.
  intros (Hne & Hs & Hh) Hle. unfold timeline_ok. cbn [set_and_push timeline].
  split; [|split].
  - destruct (timeline x); discriminate.
  - rewrite map_app. apply Sorted_snoc; [exact Hs|].
    intros a Ha. apply in_map_iff in Ha as (e & <- & He). now apply Hle.
  - destruct (timeline x); [now elim Hne | exact Hh].
Qed.

(** Bookings whose timelines are as they should be, and older than every
    clock reading yet to come. *)
Lemma exec_ops_timelines (ops : list Op) (db : DB) :
  StronglySorted Z.le (flat_map op_time ops) ->
  (forall b, In b (bookings db) ->
     timeline_ok b
     /\ forall e t, In e (timeline b) -> In t (flat_map op_time ops) -> timestamp e <= t) ->
  forall b, In b (bookings (exec_ops ops db)) -> timeline_ok b.
Proof.
  revert db. unfold exec_ops.
  induction ops as [|op ops IH]; intros db Hs Hinv; cbn [fold_left flat_map] in *.
  - intros b Hb. now apply Hinv.
  - assert (Hsplit : StronglySorted Z.le (flat_map op_time ops)
                     /\ forall t0 t, In t0 (op_time op) -> In t (flat_map op_time ops) ->
                                     t0 <= t).
    { revert Hs. generalize (flat_map op_time ops) as rest.
      destruct op; cbn [op_time app]; intros rest Hs.
      1-4: inversion Hs as [|? ? Hs' Hall]; subst; split; [exact Hs'|];
        intros t0 t [<-|[]] Ht; rewrite Forall_forall in Hall; now apply Hall.
      split; [exact Hs | intros t0 t []]. }
    destruct Hsplit as [Hs' Hfut].
    apply IH; [exact Hs'|].
    intros y Hy. apply exec_op_members in Hy
      as [Hy|[(x & s & ev & Hx & -> & Ht)|(t0 & Hty & Ht0)]].
    + destruct (Hinv y Hy) as [Hok Hle]. split; [exact Hok|].
      intros e t He Ht. apply Hle; [exact He|]. apply in_or_app. now right.
    + destruct (Hinv x Hx) as [Hok Hle]. split.
      * apply timeline_ok_push; [exact Hok|].
        intros e He. apply Hle; [exact He|]. apply in_or_app. now left.
      * cbn [set_and_push timeline]. intros e t He Ht'.
        apply in_app_or in He as [He|[<-|[]]].
        -- apply Hle; [exact He|]. apply in_or_app. now right.
        -- now apply Hfut.
    + split.
      * unfold timeline_ok. rewrite Hty. cbn. repeat split; try discriminate.
        repeat constructor.
      * rewrite Hty. intros e t [<-|[]] Ht. cbn [timestamp]. now apply Hfut.
Qed.

Lemma insert_by_sorted {A} (key : A -> Z) (x : A) (l : list A) :
  Sorted Z.le (map key l) -> Sorted Z.le (map key (insert_by key x l)).
Proof.
  induction l as [|y l IH]; cbn [insert_by map]; intros Hs.
  - repeat constructor.
  - destruct (key x <=? key y) eqn:E; cbn [map].
    + constructor; [exact Hs|]. constructor. lia.
    + inversion Hs as [|? ? Hs' Hhd]; subst. constructor; [now apply IH|].
      destruct l as [|z l]; cbn [insert_by map].
      * constructor. lia.
      * destruct (key x <=? key z); cbn [map]; constructor; [lia|].
        now inversion Hhd.
Qed.

Lemma sort_by_sorted {A} (key : A -> Z) (l : list A) : Sorted Z.le (map key (sort_by key l)).
Proof.
  induction l as [|x l IH]; cbn [sort_by fold_right map]; [constructor|].
  now apply insert_by_sorted.
Qed.

Lemma sort_by_permutation {A} (key : A -> Z) (l : list A) : Permutation l (sort_by key l).
Proof.
  assert (Hi : forall x s, Permutation (x :: s) (insert_by key x s)).
  { intros x s. induction s as [|y s IH]; cbn [insert_by]; [reflexivity|].
    destruct (key x <=? key y); [reflexivity|].
    rewrite perm_swap. now constructor. }
  induction l as [|x l IH]; cbn [sort_by fold_right]; [constructor|].
  rewrite <- Hi. now constructor.
Qed.

(** Whatever the stored order, history returns the events of the stored
    timeline in time order, and writes nothing. *)
Lemma history_timeline_sorted (i : string) (db db' : DB) (h : Booking) :
  getBookingHistory i db = (Ok h, db') ->
  db' = db
  /\ Sorted Z.le (map timestamp (timeline h))
  /\ exists b, lookup i (bookings db) = Some b /\ Permutation (timeline b) (timeline h).
Proof.
  unfold getBookingHistory, bind. rewrite findBookingByIdentifier_lookup.
  destruct (lookup i (bookings db)) as [b|]; [|discriminate].
  unfold ret. intros H. inversion H; subst. cbn [with_timeline timeline].
  split; [reflexivity|]. split; [apply sort_by_sorted|].
  exists b. split; [reflexivity | apply sort_by_permutation].
Qed.

End TimelineFacts.


(** ** Flight references at creation *)

Section FlightRefFacts.
Import JS Mongo Lifecycle.

Lemma mapResult_valid (l : list string) :
  forallb ObjectId_isValid l = true ->
  mapResult newObjectId l = Ok (map toObjectId l).
Proof.
  induction l as [|s l IH]; simpl; [reflexivity|].
  intros H. apply andb_true_iff in H as [Hs Hl].
  unfold newObjectId at 1. rewrite Hs, (IH Hl). reflexivity.
Qed.

Lemma filter_length_le {A} (p : A -> bool) (l : list A) :
  (List.length (filter p l) <= List.length l)%nat.
Proof.
  induction l as [|x l IH]; simpl; [lia|]. destruct (p x); simpl; lia.
Qed.

Lemma filter_length_all {A} (p : A -> bool) (l : list A) :
  List.length (filter p l) = List.length l <-> forall x, In x l -> p x = true.
Proof.
  induction l as [|x l IH]; simpl; [tauto|].
  pose proof (filter_length_le p l) as Hle.
  destruct (p x) eqn:E; simpl; split.
  - intros H y [<-|Hy]; [exact E|]. apply IH; [lia | exact Hy].
  - intros H. f_equal. apply IH. intros y Hy. apply H. now right.
  - intros H. lia.
  - intros H. specialize (H x (or_introl eq_refl)). congruence.
Qed.

Lemma asked_ids_distinct (stored : list ObjectId) (ids : list ObjectId) :
  NoDup ids -> NoDup (filter (fun i => existsb (String.eqb i) stored) ids).
Proof.
  intros Hnd. induction Hnd as [|i ids Hi Hnd IH]; cbn [filter]; [constructor|].
  destruct (existsb (String.eqb i) stored); [|exact IH].
  constructor; [|exact IH].
  rewrite filter_In. tauto.
Qed.

Lemma found_ids_distinct (ids : list ObjectId) (fs : list Flight) :
  NoDup (map flight_id fs) ->
  NoDup (map flight_id (filter (fun f => existsb (String.eqb (flight_id f)) ids) fs)).
Proof.
  induction fs as [|g fs IH]; cbn [map filter]; intros Hnd; [constructor|].
  inversion Hnd as [|? ? Hg Hrest]; subst.
  destruct (existsb (String.eqb (flight_id g)) ids); [|exact (IH Hrest)].
  cbn [map]. constructor; [|exact (IH Hrest)].
  rewrite in_map_iff. intros (h & E & Hh).
  apply filter_In in Hh as [Hh _]. apply Hg. rewrite <- E. now apply in_map.
Qed.

(** The flights [Flight.find] returns are as many as the identifiers asked
    for that are stored, when no identifier is asked for twice. *)
Lemma found_count (ids : list ObjectId) (fs : list Flight) :
  NoDup ids -> NoDup (map flight_id fs) ->
  List.length (filter (fun f => existsb (String.eqb (flight_id f)) ids) fs)
  = List.length (filter (fun i => existsb (String.eqb i) (map flight_id fs)) ids).
Proof.
  intros Hi Hf.
  rewrite <- (length_map flight_id).
  apply Permutation_length, NoDup_Permutation.
  - now apply found_ids_distinct.
  - now apply asked_ids_distinct.
  - intros x. rewrite in_map_iff, filter_In. split.
    + intros (f & <- & Hfl). apply filter_In in Hfl as [Hin Hex].
      apply existsb_exists in Hex as (i & Hi' & E). apply String.eqb_eq in E. subst i.
      split; [exact Hi'|]. apply existsb_exists. exists (flight_id f).
      split; [now apply in_map | apply String.eqb_refl].
    + intros [Hx Hex]. apply existsb_exists in Hex as (y & Hy & E).
      apply String.eqb_eq in E. subst y. apply in_map_iff in Hy as (f & <- & Hfl).
      exists f. split; [reflexivity|]. apply filter_In. split; [exact Hfl|].
      apply existsb_exists. exists (flight_id f). split; [exact Hx | apply String.eqb_refl].
Qed.

(** A flight asked for twice is found once. *)
Lemma repeated_ref_count (i : ObjectId) (fs : list Flight) :
  NoDup (map flight_id fs) ->
  (List.length (filter (fun f => existsb (String.eqb (flight_id f)) [i; i]) fs) <= 1)%nat.
Proof.
  assert (Hm : forall g, existsb (String.eqb (flight_id g)) [i; i] = true -> flight_id g = i).
  { intros g E. cbn in E. apply orb_true_iff in E as [E|E];
      [|apply orb_true_iff in E as [E|E]; [|discriminate]];
      now apply String.eqb_eq in E. }
  induction fs as [|g l IH]; intros Hf; [simpl; lia|].
  inversion Hf as [|? ? Hg Hl]; subst. cbn [filter].
  destruct (existsb (String.eqb (flight_id g)) [i; i]) eqn:E; [|now apply IH].
  destruct (filter (fun f => existsb (String.eqb (flight_id f)) [i; i]) l) as [|h r] eqn:F;
    [simpl; lia|].
  exfalso. apply Hg.
  assert (Hh : In h (filter (fun f => existsb (String.eqb (flight_id f)) [i; i]) l))
    by (rewrite F; now left).
  apply filter_In in Hh as [Hh Hex].
  rewrite (Hm g E), <- (Hm h Hex). now apply in_map.
Qed.

End FlightRefFacts.

(** C6. [createBooking] throws 'One or more flight IDs are invalid' exactly
    when some flight reference resolves to no stored flight, as long as no
    flight is referred to twice; a list that names a stored flight twice is
    rejected with the same error although every entry resolves. *)
Theorem flight_references_checked (env : Lifecycle.SaveEnv) (data : Lifecycle.BookingData)
    (db : DB) :
  NoDup (map flight_id (flights db)) ->
  forallb Mongo.ObjectId_isValid (Lifecycle.bd_flightIds data) = true ->
  let refs := map Mongo.toObjectId (Lifecycle.bd_flightIds data) in
  let resolves := fun i => exists f, In f (flights db) /\ flight_id f = i in
  (NoDup refs ->
   (Lifecycle.createBooking env data db = (Mongo.Err Mongo.InvalidFlightIds, db)
    <-> exists i, In i refs /\ ~ resolves i))
  /\ (forall i, refs = [i; i] -> resolves i ->
      Lifecycle.createBooking env data db = (Mongo.Err Mongo.InvalidFlightIds, db))
  /\ Lifecycle.kind Mongo.InvalidFlightIds = Lifecycle.InvalidFlightReference.
Proof.
  intros Hf Hv refs resolves.
  assert (Hres : forall i, existsb (String.eqb i) (map flight_id (flights db)) = true
                           <-> resolves i).
  { intros i. rewrite existsb_exists. split.
    - intros (y & Hy & E). apply String.eqb_eq in E. subst y.
      apply in_map_iff in Hy as (f & E & Hin). now exists f.
    - intros (f & Hin & E). exists i. split; [|apply String.eqb_refl].
      rewrite <- E. now apply in_map. }
  assert (Hsave : forall r, Lifecycle.save env r db <> (Mongo.Err Mongo.InvalidFlightIds, db)).
  { intros r. rewrite save_cases. destruct (Lifecycle.validate r); cbv zeta;
      [destruct (existsb _ (bookings db))|]; discriminate. }
  split; [|split; [|reflexivity]].
  - intros Hnd. rewrite createBooking_cases. cbv zeta.
    rewrite (mapResult_valid _ Hv). fold refs.
    destruct (Nat.ltb 0 (List.length (Lifecycle.bd_flightIds data))) eqn:L.
    + rewrite (found_count refs (flights db) Hnd Hf).
      replace (List.length (Lifecycle.bd_flightIds data)) with (List.length refs)
        by apply length_map.
      destruct (Nat.eqb _ _) eqn:E.
      * apply Nat.eqb_eq in E.
        pose proof (proj1 (filter_length_all _ _) E) as E'. clear E. rename E' into E.
        split.
        -- intros H. now apply Hsave in H.
        -- intros (i & Hi & Hn). elim Hn. apply Hres. now apply E.
      * split; [|reflexivity]. intros _.
        apply Nat.eqb_neq in E.
        destruct (existsb (fun i => negb (existsb (String.eqb i) (map flight_id (flights db))))
                          refs) eqn:X.
        -- apply existsb_exists in X as (i & Hi & Hn). exists i. split; [exact Hi|].
           intros Hr. apply Hres in Hr. rewrite Hr in Hn. discriminate.
        -- elim E. apply (proj2 (filter_length_all _ _)). intros i Hi.
           destruct (existsb (String.eqb i) (map flight_id (flights db))) eqn:Y;
             [reflexivity|].
           rewrite <- not_true_iff_false in X. elim X. apply existsb_exists.
           exists i. split; [exact Hi | now rewrite Y].
    + apply Nat.ltb_ge in L.
      assert (Hnil : refs = []).
      { unfold refs. destruct (Lifecycle.bd_flightIds data); [reflexivity | simpl in L; lia]. }
      split.
      * intros H. now apply Hsave in H.
      * intros (i & Hi & _). rewrite Hnil in Hi. destruct Hi.
  - intros i Hrefs (f & Hin & Hid).
    rewrite createBooking_cases. cbv zeta.
    rewrite (mapResult_valid _ Hv). fold refs.
    assert (Hlen : List.length (Lifecycle.bd_flightIds data) = 2%nat).
    { rewrite <- (length_map Mongo.toObjectId). fold refs. now rewrite Hrefs. }
    rewrite Hlen, Hrefs. cbn [Nat.ltb Nat.leb].
    pose proof (repeated_ref_count i (flights db) Hf) as Hone.
    destruct (Nat.eqb _ 2) eqn:E; [|reflexivity].
    apply Nat.eqb_eq in E. lia.
Qed.

(** ** The route finder *)

Section RouteFacts.
Import JS Mongo Routes.

Lemma insert_by_In {A} (key : A -> Z) (x y : A) (l : list A) :
  In y (insert_by key x l) <-> y = x \/ In y l.
Proof.
  induction l as [|z l IH]; simpl; [intuition|].
  destruct (key x <=? key z); simpl; [intuition|].
  rewrite IH. intuition.
Qed.

(** Sorting keeps the elements. *)
Lemma sort_by_In {A} (key : A -> Z) (y : A) (l : list A) :
  In y (sort_by key l) <-> In y l.
Proof.
  induction l as [|x l IH]; simpl; [tauto|].
  rewrite insert_by_In, IH. intuition.
Qed.

Lemma formatFlight_id (f : Flight) : formatFlight f = f.
Proof. now destruct f. Qed.

Lemma within_spec (lo hi t : Z) : within lo hi t = true <-> lo <= t <= hi.
Proof. unfold within. rewrite andb_true_iff. lia. Qed.

(** The transit routes are the pairs of catalogue flights that chain within
    the windows, no more and no less. *)
Lemma transit_members (z : Zone) (catalog : list Flight) (o d : string) (s e : Z)
    (r : TransitRoute) :
  In r (getTransitRoutes z catalog o d s e) <->
  exists f1 f2,
    In f1 catalog /\ In f2 catalog
    /\ flight_origin f1 = o /\ flight_destination f1 <> d
    /\ s <= departureDateTime f1 <= e
    /\ flight_origin f2 = flight_destination f1 /\ flight_destination f2 = d
    /\ arrivalDateTime f1 <= departureDateTime f2 <= secondLegEndDate z (arrivalDateTime f1)
    /\ r = mkTransit f1 f2 (flight_destination f1)
             (calculateDuration (arrivalDateTime f1) (departureDateTime f2))
             (calculateDuration (departureDateTime f1) (arrivalDateTime f2)).
Proof.
  unfold getTransitRoutes.
  set (firsts := sort_by departureDateTime (filter _ catalog)).
  assert (Hfirst : forall f1, In f1 firsts <->
            In f1 catalog /\ flight_origin f1 = o /\ flight_destination f1 <> d
            /\ s <= departureDateTime f1 <= e).
  { intros f1. unfold firsts. rewrite sort_by_In, filter_In, !andb_true_iff.
    rewrite negb_true_iff, String.eqb_eq, String.eqb_neq, within_spec. tauto. }
  assert (Hvia : forall f1, In r (routesVia z catalog d f1) <->
            exists f2, In f2 catalog
              /\ flight_origin f2 = flight_destination f1 /\ flight_destination f2 = d
              /\ arrivalDateTime f1 <= departureDateTime f2
                 <= secondLegEndDate z (arrivalDateTime f1)
              /\ r = mkTransit f1 f2 (flight_destination f1)
                       (calculateDuration (arrivalDateTime f1) (departureDateTime f2))
                       (calculateDuration (departureDateTime f1) (arrivalDateTime f2))).
  { intros f1. unfold routesVia. rewrite in_map_iff. split.
    - intros (f2 & <- & H2). apply sort_by_In, filter_In in H2 as [H2 Hc].
      rewrite !andb_true_iff, !String.eqb_eq, within_spec in Hc.
      exists f2. rewrite !formatFlight_id. tauto.
    - intros (f2 & H2 & Ho & Hd & Hw & ->). exists f2.
      rewrite !formatFlight_id. split; [reflexivity|].
      apply sort_by_In, filter_In. split; [exact H2|].
      rewrite !andb_true_iff, !String.eqb_eq, within_spec. tauto. }
  destruct (Nat.eqb (List.length firsts) 0) eqn:E.
  - apply Nat.eqb_eq, List.length_zero_iff_nil in E. split; [intros []|].
    intros (f1 & f2 & H1 & _ & Ho & Hd & Hw & _).
    assert (Hin : In f1 firsts) by (apply Hfirst; tauto).
    rewrite E in Hin. destruct Hin.
  - rewrite sort_by_In, in_flat_map. split.
    + intros (f1 & H1 & Hr). apply Hfirst in H1. apply Hvia in Hr as (f2 & Hr).
      exists f1, f2. tauto.
    + intros (f1 & f2 & H1 & H2 & Ho & Hd & Hw & Hr).
      exists f1. split; [apply Hfirst; tauto|]. apply Hvia. exists f2. tauto.
Qed.

(** The transit routes come shortest first. *)
Lemma transit_sorted (z : Zone) (catalog : list Flight) (o d : string) (s e : Z) :
  Sorted Z.le (map totalDuration (getTransitRoutes z catalog o d s e)).
Proof.
  unfold getTransitRoutes. destruct (Nat.eqb _ 0); [constructor | apply sort_by_sorted].
Qed.

(** Division by the length of a day, bracketed. *)
Lemma day_bracket (x q : Z) :
  Day x = q <-> q * msPerDay <= x <= q * msPerDay + (msPerDay - 1).
Proof.
  unfold Day, msPerDay.
  pose proof (Z.div_mod x 86400000 ltac:(lia)) as E.
  pose proof (Z.mod_pos_bound x 86400000 ltac:(lia)) as B.
  split; intros H; [subst q; lia|].
  assert (x / 86400000 < q + 1) by (apply Z.div_lt_upper_bound; lia).
  assert (q <= x / 86400000) by (apply Z.div_le_lower_bound; lia).
  lia.
Qed.

Lemma day_le (x q : Z) : Day x <= q <-> x <= q * msPerDay + (msPerDay - 1).
Proof.
  pose proof (proj1 (day_bracket x (Day x)) eq_refl) as B. unfold msPerDay in *.
  split; intros H; [nia|].
  destruct (Z_le_gt_dec (Day x) q) as [L|G]; [exact L | nia].
Qed.

Lemma day_ge (x q : Z) : q <= Day x <-> q * msPerDay <= x.
Proof.
  pose proof (proj1 (day_bracket x (Day x)) eq_refl) as B. unfold msPerDay in *.
  split; intros H; [nia|].
  destruct (Z_le_gt_dec q (Day x)) as [L|G]; [exact L | nia].
Qed.

Lemma day_mono (x y : Z) : x <= y -> Day x <= Day y.
Proof. intros H. unfold Day, msPerDay. apply Z.div_le_mono; lia. Qed.

(** A day and a time of day make the reading that has them. *)
Lemma makeDate_parts (D t : Z) :
  0 <= t < msPerDay -> Day (MakeDate D t) = D /\ TimeWithinDay (MakeDate D t) = t.
Proof.
  intros H. unfold Day, TimeWithinDay, MakeDate.
  replace (D * msPerDay + t) with (t + D * msPerDay) by lia.
  unfold msPerDay in *.
  rewrite Z.div_add, Z.mod_add by lia.
  rewrite Z.div_small, Z.mod_small by lia. lia.
Qed.

Lemma makeDate_next (l : Z) : MakeDate (Day l + 1) (TimeWithinDay l) = l + msPerDay.
Proof.
  unfold MakeDate, Day, TimeWithinDay, msPerDay.
  pose proof (Z.div_mod l 86400000 ltac:(lia)). lia.
Qed.

(** [setDate] with the next day of the month asks for the same reading one
    day on. *)
Lemma setDate_next_reading (z : Zone) (a : Z) :
  setDate_next z a = UTC z (LocalTime z a + msPerDay).
Proof.
  unfold setDate_next, local_day, time_of_day. now rewrite makeDate_next.
Qed.

Lemma setDate_next_day (z : Zone) (a : Z) :
  reads_back z (LocalTime z a + msPerDay) ->
  local_day z (setDate_next z a) = local_day z a + 1
  /\ time_of_day z (setDate_next z a) = time_of_day z a.
Proof.
  intros H. unfold local_day, time_of_day.
  rewrite setDate_next_reading. unfold reads_back in H. rewrite H.
  rewrite <- makeDate_next.
  apply makeDate_parts. unfold TimeWithinDay, msPerDay. apply Z.mod_pos_bound. lia.
Qed.

(** The end of the second leg's window is the instant taken for the last
    millisecond of the local day after the arrival, and shows it when the
    zone has that reading. *)
Lemma secondLegEndDate_reading (z : Zone) (a : Z) :
  reads_back z (LocalTime z a + msPerDay) ->
  secondLegEndDate z a = UTC z (MakeDate (local_day z a + 1) (msPerDay - 1)).
Proof.
  intros H. unfold secondLegEndDate, setHours_end.
  now rewrite (proj1 (setDate_next_day z a H)).
Qed.

Lemma secondLegEndDate_spec (z : Zone) (a : Z) :
  reads_back z (LocalTime z a + msPerDay) ->
  reads_back z (MakeDate (local_day z a + 1) (msPerDay - 1)) ->
  local_day z (secondLegEndDate z a) = local_day z a + 1
  /\ time_of_day z (secondLegEndDate z a) = msPerDay - 1.
Proof.
  intros H1 H2. rewrite (secondLegEndDate_reading z a H1).
  unfold local_day at 1, time_of_day. unfold reads_back in H2. rewrite H2.
  apply makeDate_parts. unfold msPerDay. lia.
Qed.

(** A zone that keeps its offset has every reading once, in order. *)
Lemma fixed_reads_back (tz l : Z) : reads_back (fixed tz) l.
Proof. unfold reads_back, LocalTime, UTC, fixed. cbn [offset_at offset_of_local]. lia. Qed.

Lemma fixed_days_in_order (tz : Z) : days_in_order (fixed tz).
Proof.
  intros t t' H. unfold local_day, LocalTime, fixed. cbn [offset_at offset_of_local]. apply day_mono. lia.
Qed.

Lemma fixed_day_starts (tz D : Z) : day_starts (fixed tz) D.
Proof.
  intros t. unfold local_day, LocalTime, UTC, MakeDate, fixed. cbn [offset_at offset_of_local].
  rewrite day_ge. lia.
Qed.

Lemma fixed_day_ends (tz D : Z) : day_ends (fixed tz) D.
Proof.
  intros t. unfold local_day, LocalTime, UTC, MakeDate, fixed. cbn [offset_at offset_of_local].
  rewrite day_le. lia.
Qed.

(** A zone with one clock change: the readings that occur, the order of its
    days, and the days whose midnight does not fall in the hour changed. *)
Lemma one_change_reads_back (c b a l : Z) :
  l < c + b \/ c + a <= l -> reads_back (one_change c b a) l.
Proof.
  intros H. unfold reads_back, LocalTime, UTC, one_change. cbn [offset_at offset_of_local].
  destruct (Z.ltb_spec l (c + Z.max b a)) as [L|L].
  - destruct (Z.ltb_spec (l - b) c); lia.
  - destruct (Z.ltb_spec (l - a) c); lia.
Qed.

Lemma one_change_days_in_order (c b a : Z) :
  Day (c + b - 1) <= Day (c + a) -> days_in_order (one_change c b a).
Proof.
  intros H t t' Ht. unfold local_day, LocalTime, one_change. cbn [offset_at offset_of_local].
  destruct (Z.ltb_spec t c), (Z.ltb_spec t' c); try lia.
  - apply day_mono. lia.
  - transitivity (Day (c + b - 1)); [apply day_mono; lia|].
    transitivity (Day (c + a)); [exact H | apply day_mono; lia].
  - apply day_mono. lia.
Qed.

Lemma one_change_day_starts (c b a D : Z) :
  MakeDate D 0 <= c + Z.min b a \/ c + Z.max b a <= MakeDate D 0 ->
  day_starts (one_change c b a) D.
Proof.
  intros H t. unfold local_day, LocalTime, UTC, one_change. cbn [offset_at offset_of_local].
  rewrite day_ge. unfold MakeDate in *.
  destruct (Z.ltb_spec (D * msPerDay + 0) (c + Z.max b a)), (Z.ltb_spec t c); lia.
Qed.

Lemma one_change_day_ends (c b a D : Z) :
  MakeDate D (msPerDay - 1) < c + Z.min b a \/ c + Z.max b a <= MakeDate D (msPerDay - 1) ->
  day_ends (one_change c b a) D.
Proof.
  intros H t. unfold local_day, LocalTime, UTC, one_change. cbn [offset_at offset_of_local].
  rewrite day_le. unfold MakeDate in *.
  destruct (Z.ltb_spec (D * msPerDay + (msPerDay - 1)) (c + Z.max b a)), (Z.ltb_spec t c);
    lia.
Qed.

(** The window of a search is the local day of the date, whole, when the
    instants taken for its first and last millisecond bound it. *)
Lemma day_window (z : Zone) (date t : Z) :
  day_starts z (local_day z date) -> day_ends z (local_day z date) ->
  (setHours_start z date <= t <= setHours_end z date
   <-> local_day z t = local_day z date).
Proof.
  intros Hs He. unfold setHours_start, setHours_end.
  specialize (Hs t). specialize (He t). lia.
Qed.

(** The second leg's window ends with the local day after the arrival. *)
Lemma next_day_window (z : Zone) (a t : Z) :
  reads_back z (LocalTime z a + msPerDay) ->
  day_ends z (local_day z a + 1) ->
  (t <= secondLegEndDate z a <-> local_day z t <= local_day z a + 1).
Proof.
  intros Hr He. rewrite (secondLegEndDate_reading z a Hr). apply He.
Qed.

(** The sample zone. *)
Lemma new_york_days_in_order : days_in_order Samples.new_york.
Proof. apply one_change_days_in_order. vm_compute. discriminate. Qed.

End RouteFacts.

(** C4. In every transit route returned, the second leg departs no earlier
    than the first leg arrives and no later than the instant [setDate] and
    [setHours] make of the arrival: the one the time zone of the server
    takes for 23:59:59.999 of the local calendar day after the arrival. On
    the server's clock that instant reads 23:59:59.999 of the day after the
    arrival's, and the departure falls on the arrival's local day or the
    next, whenever the clock has the two readings asked for and its calendar
    never goes back. A zone that keeps one offset meets these conditions at
    every arrival, and there the window ends less than 48 hours after the
    arrival; in New York, for a landing at 00:30 on the day the clocks go
    back, it ends 48 hours 30 minutes after the landing, less a
    millisecond, and a leg leaving 48 hours 15 minutes after it is paired.
    In the catalogue DEL to HYD 08:00 to 10:30, HYD to BLR 14:00, HYD to BLR
    09:00, the pair with the 09:00 leg, which leaves before the first leg
    lands, is not a transit route from DEL to BLR, while the pair with the
    14:00 leg is, with a layover of 210 minutes and 450 minutes in all. *)
Theorem transit_window :
  (forall z catalog origin destination date r,
      In r (Routes.transit (Routes.getRoutes z catalog origin destination date)) ->
      let arrival := arrivalDateTime (Routes.firstLeg r) in
      let departure := departureDateTime (Routes.secondLeg r) in
      let next := Routes.LocalTime z arrival + Routes.msPerDay in
      let last := Routes.MakeDate (Routes.local_day z arrival + 1) 86399999 in
      arrival <= departure <= Routes.secondLegEndDate z arrival
      /\ Routes.secondLegEndDate z arrival
         = Routes.UTC z (Routes.MakeDate (Routes.local_day z (Routes.UTC z next)) 86399999)
      /\ (Routes.reads_back z next ->
          Routes.secondLegEndDate z arrival = Routes.UTC z last)
      /\ (Routes.reads_back z next -> Routes.reads_back z last ->
          Routes.local_day z (Routes.secondLegEndDate z arrival)
          = Routes.local_day z arrival + 1
          /\ Routes.time_of_day z (Routes.secondLegEndDate z arrival) = 86399999)
      /\ (Routes.reads_back z next -> Routes.reads_back z last ->
          Routes.days_in_order z ->
          Routes.local_day z arrival <= Routes.local_day z departure
          <= Routes.local_day z arrival + 1))
  /\ (forall tz,
        (forall l, Routes.reads_back (Routes.fixed tz) l)
        /\ Routes.days_in_order (Routes.fixed tz)
        /\ (forall a, a < Routes.secondLegEndDate (Routes.fixed tz) a
                       < a + 2 * Routes.msPerDay))
  /\ (let z := Samples.new_york in
      let arrival := arrivalDateTime Samples.nightLegF in
      Routes.reads_back z (Routes.LocalTime z arrival + Routes.msPerDay)
      /\ Routes.reads_back z (Routes.MakeDate (Routes.local_day z arrival + 1) 86399999)
      /\ Routes.days_in_order z
      /\ Routes.time_of_day z arrival = 1800000
      /\ Routes.secondLegEndDate z arrival = arrival + (2 * Routes.msPerDay + 1800000 - 1)
      /\ departureDateTime Samples.lateLegF = arrival + (2 * Routes.msPerDay + 900000)
      /\ Routes.transit (Routes.getRoutes z Samples.ny_catalog "JFK" "LAX" Samples.nov3)
         = [Routes.mkTransit Samples.nightLegF Samples.lateLegF "MIA" 2895 3270])
  /\ (let found := Routes.transit (Routes.getRoutes (Routes.fixed 0) Examples.catalog
                                                      "DEL" "BLR" Examples.day0) in
      In Examples.earlyLegF Examples.catalog
      /\ flight_origin Examples.earlyLegF = flight_destination Examples.firstLegF
      /\ flight_destination Examples.earlyLegF = "BLR"
      /\ departureDateTime Examples.earlyLegF < arrivalDateTime Examples.firstLegF
      /\ (forall r, In r found -> Routes.secondLeg r <> Examples.earlyLegF)
      /\ found = [Routes.mkTransit Examples.firstLegF Examples.secondLegF "HYD" 210 450]).
Proof.
  split; [|split; [|split]].
  - intros z catalog origin destination date r Hr. cbv zeta.
    unfold Routes.getRoutes in Hr. cbn [Routes.transit] in Hr.
    apply transit_members in Hr
      as (f1 & f2 & _ & _ & _ & _ & _ & _ & _ & Hw & ->).
    cbn [Routes.firstLeg Routes.secondLeg].
    split; [exact Hw|].
    split.
    { unfold Routes.secondLegEndDate, Routes.setHours_end.
      now rewrite setDate_next_reading. }
    split; [apply secondLegEndDate_reading|].
    split; [apply secondLegEndDate_spec|].
    intros H1 H2 Hord.
    destruct (secondLegEndDate_spec z (arrivalDateTime f1) H1 H2) as [Hd _].
    split; [apply Hord; lia|].
    rewrite <- Hd. apply Hord. lia.
  - intros tz. split; [apply fixed_reads_back|]. split; [apply fixed_days_in_order|].
    intros a.
    destruct (secondLegEndDate_spec (Routes.fixed tz) a
                (fixed_reads_back tz _) (fixed_reads_back tz _)) as [Hd Ht].
    unfold Routes.local_day, Routes.time_of_day, Routes.LocalTime in Hd, Ht.
    cbn [Routes.offset_at Routes.fixed] in Hd, Ht.
    set (e := Routes.secondLegEndDate (Routes.fixed tz) a) in *.
    pose proof (proj1 (day_bracket (e + tz) _) Hd) as B.
    pose proof (proj1 (day_bracket (a + tz) _) eq_refl) as A.
    unfold Routes.TimeWithinDay, Routes.Day, Routes.msPerDay in *.
    pose proof (Z.div_mod (e + tz) 86400000 ltac:(lia)). lia.
  - cbv zeta. split; [vm_compute; reflexivity|]. split; [vm_compute; reflexivity|].
    split; [exact new_york_days_in_order|].
    repeat split; vm_compute; reflexivity.
  - cbv zeta.
    assert (E : Routes.transit (Routes.getRoutes (Routes.fixed 0) Examples.catalog
                                                 "DEL" "BLR" Examples.day0)
                = [Routes.mkTransit Examples.firstLegF Examples.secondLegF "HYD" 210 450])
      by (vm_compute; reflexivity).
    rewrite E.
    split; [right; right; now left|].
    split; [reflexivity|]. split; [reflexivity|].
    split; [vm_compute; reflexivity|].
    split; [|reflexivity].
    intros r [<-|[]]. cbn [Routes.secondLeg]. discriminate.
Qed.

(** C9. No transit route has a first leg that lands at the destination asked
    for: the first leg's destination differs from the normalised destination
    of the query (and from the destination as typed, when the catalogue
    holds normalised codes); a catalogue flight to the destination is the
    first leg of no transit route; and every direct route flies from the
    origin to the destination. *)
Theorem direct_not_in_transit (z : Routes.Zone) (catalog : list Flight)
    (origin destination : string) (date : Z) :
  let found := Routes.getRoutes z catalog origin destination date in
  (forall r, In r (Routes.transit found) ->
     flight_destination (Routes.firstLeg r) <> JS.trim (JS.toUpperCase destination))
  /\ (forall f r,
        In f catalog ->
        flight_destination f = JS.trim (JS.toUpperCase destination) ->
        In r (Routes.transit found) ->
        Routes.firstLeg r <> Routes.formatFlight f)
  /\ ((forall f, In f catalog ->
         JS.trim (JS.toUpperCase (flight_destination f)) = flight_destination f) ->
      forall r, In r (Routes.transit found) ->
                flight_destination (Routes.firstLeg r) <> destination)
  /\ (forall d, In d (Routes.direct found) ->
        flight_origin (Routes.direct_flight d) = JS.trim (JS.toUpperCase origin)
        /\ flight_destination (Routes.direct_flight d) = JS.trim (JS.toUpperCase destination)).
Proof.
  cbv zeta. unfold Routes.getRoutes. cbn [Routes.transit Routes.direct].
  split; [|split; [|split]].
  - intros r Hr. apply transit_members in Hr
      as (f1 & f2 & _ & _ & _ & Hd & _ & _ & _ & _ & ->).
    exact Hd.
  - intros f r Hf Hfd Hr E. apply transit_members in Hr
      as (f1 & f2 & _ & _ & _ & Hd & _ & _ & _ & _ & ->).
    cbn [Routes.firstLeg] in E. rewrite formatFlight_id in E. subst f1. contradiction.
  - intros Hnorm r Hr E. apply transit_members in Hr
      as (f1 & f2 & H1 & _ & _ & Hd & _ & _ & _ & _ & ->).
    cbn [Routes.firstLeg] in E. apply Hd.
    rewrite <- E. symmetry. now apply Hnorm.
  - intros d Hd. unfold Routes.getDirectFlights in Hd.
    apply in_map_iff in Hd as (f & <- & Hf).
    apply sort_by_In, filter_In in Hf as [_ Hc].
    rewrite !andb_true_iff, !String.eqb_eq in Hc.
    cbn [Routes.direct_flight]. rewrite formatFlight_id. tauto.
Qed.

(** ** The theorems at the sample data *)

(** C8, counterexample. A creation that submits the origin in lower case and
    the destination with a leading blank: history on the returned reference
    id gives "DEL" and "BLR", not the codes as submitted. *)
Lemma create_history_not_verbatim :
  exists b db' h,
    Lifecycle.createBooking Examples.env1 Examples.data1 Examples.db0 = (Mongo.Ok b, db')
    /\ Lifecycle.getBookingHistory (ref_id b) db' = (Mongo.Ok h, db')
    /\ origin h = "DEL" /\ Lifecycle.bd_origin Examples.data1 = "del"
    /\ origin h <> Lifecycle.bd_origin Examples.data1
    /\ destination h <> Lifecycle.bd_destination Examples.data1.
Proof.
  exists Examples.booking1, Examples.db1, Examples.booking1.
  split; [vm_compute; reflexivity|].
  split; [vm_compute; reflexivity|].
  repeat split; try reflexivity; cbn; discriminate.
Qed.


Lemma cancel_race_witness :
  NoDup (map _id (bookings Examples.db1))
  /\ Lifecycle.lookup "bbbbbbbbbbbbbbbbbbbbbbb1" (bookings Examples.db1) = Some Examples.booking1
  /\ Lifecycle.lookup "book-20260105-000001" (bookings Examples.db1) = Some Examples.booking1
  /\ status Examples.booking1 = BOOKED
  /\ Race.one_wins_other_conflicts (Race.run Examples.reads_then_writes Examples.two_cancels)
  /\ nth_error (Race.threads (Race.run Examples.one_then_other Examples.two_cancels)) 1
     = Some (Race.Returned (Mongo.Err (Mongo.CannotCancel CANCELLED))).
Proof.
  assert (Hnd : NoDup (map _id (bookings Examples.db1))).
  { cbn. constructor; [intros []|constructor]. }
  assert (H1 : Lifecycle.lookup "bbbbbbbbbbbbbbbbbbbbbbb1" (bookings Examples.db1)
               = Some Examples.booking1) by (vm_compute; reflexivity).
  assert (H2 : Lifecycle.lookup "book-20260105-000001" (bookings Examples.db1)
               = Some Examples.booking1) by (vm_compute; reflexivity).
  split; [exact Hnd|]. split; [exact H1|]. split; [exact H2|]. split; [reflexivity|].
  split.
  - destruct (cancel_race Examples.db1 Examples.booking1 _ _ Examples.reads_then_writes
                Hnd H1 H2 eq_refl) as (_ & _ & H3 & _).
    apply (H3 [(0%nat, 201); (1%nat, 202)] [(1%nat, 203); (0%nat, 204)]).
    + reflexivity.
    + vm_compute. constructor; [|constructor; [|constructor]]; do 3 eexists; reflexivity.
    + vm_compute. reflexivity.
  - destruct (cancel_race Examples.db1 Examples.booking1 _ _ Examples.one_then_other
                Hnd H1 H2 eq_refl) as (_ & _ & _ & H4 & _).
    destruct (H4 [(0%nat, 201); (0%nat, 202)] [(1%nat, 203); (1%nat, 204)] 1%nat
                 (Race.Called (Race.Cancel "book-20260105-000001")) eq_refl)
      as [_ Hlate].
    + vm_compute. reflexivity.
    + vm_compute. reflexivity.
    + apply Hlate.
      * left. eexists. reflexivity.
      * vm_compute. reflexivity.
Defined.

Lemma cancel_after_arrival_witness :
  Lifecycle.lookup "BOOK-20260105-000001" (bookings Examples.db_arrived) = Some Examples.arrived1
  /\ status Examples.arrived1 = ARRIVED
  /\ Lifecycle.cancelBooking 300 "BOOK-20260105-000001" Examples.db_arrived
     = (Mongo.Err Mongo.CannotCancelArrived, Examples.db_arrived).
Proof.
  assert (H : Lifecycle.lookup "BOOK-20260105-000001" (bookings Examples.db_arrived)
              = Some Examples.arrived1) by (vm_compute; reflexivity).
  split; [exact H|]. split; [reflexivity|].
  exact (proj1 (cancel_after_arrival 300 _ Examples.db_arrived Examples.arrived1 H eq_refl)).
Defined.

Lemma transitions_follow_table_witness :
  exists u db',
    Lifecycle.departBooking 200 "bbbbbbbbbbbbbbbbbbbbbbb1" None Examples.db1 = (Mongo.Ok u, db')
    /\ status u = DEPARTED.
Proof.
  destruct (Lifecycle.departBooking 200 "bbbbbbbbbbbbbbbbbbbbbbb1" None Examples.db1)
    as [[u|e] db'] eqn:E.
  - exists u, db'. split; [reflexivity|].
    destruct transitions_follow_table as (_ & Hd & _).
    destruct (Hd _ _ _ _ _ _ E) as (b & x & ev & _ & _ & _ & _ & _ & Hu & _).
    rewrite Hu. reflexivity.
  - vm_compute in E. discriminate.
Defined.

Lemma transit_window_witness :
  let z := Samples.new_york in
  let r := Routes.mkTransit Samples.nightLegF Samples.lateLegF "MIA" 2895 3270 in
  let arrival := arrivalDateTime (Routes.firstLeg r) in
  let departure := departureDateTime (Routes.secondLeg r) in
  In r (Routes.transit (Routes.getRoutes z Samples.ny_catalog "jfk" " lax" Samples.nov3))
  /\ Routes.reads_back z (Routes.LocalTime z arrival + Routes.msPerDay)
  /\ Routes.reads_back z (Routes.MakeDate (Routes.local_day z arrival + 1) 86399999)
  /\ Routes.days_in_order z
  /\ arrival <= departure <= Routes.secondLegEndDate z arrival
  /\ Routes.time_of_day z (Routes.secondLegEndDate z arrival) = 86399999
  /\ Routes.local_day z arrival <= Routes.local_day z departure
     <= Routes.local_day z arrival + 1.
Proof.
  cbv zeta.
  assert (H : In (Routes.mkTransit Samples.nightLegF Samples.lateLegF "MIA" 2895 3270)
                 (Routes.transit (Routes.getRoutes Samples.new_york Samples.ny_catalog
                                                   "jfk" " lax" Samples.nov3)))
    by (vm_compute; left; reflexivity).
  destruct (proj1 transit_window Samples.new_york Samples.ny_catalog "jfk" " lax"
              Samples.nov3 _ H) as (Hw & _ & _ & Hread & Hdays).
  cbn [Routes.firstLeg Routes.secondLeg] in *.
  assert (R1 : Routes.reads_back Samples.new_york
                 (Routes.LocalTime Samples.new_york (arrivalDateTime Samples.nightLegF)
                  + Routes.msPerDay)) by (vm_compute; reflexivity).
  assert (R2 : Routes.reads_back Samples.new_york
                 (Routes.MakeDate
                    (Routes.local_day Samples.new_york (arrivalDateTime Samples.nightLegF) + 1)
                    86399999)) by (vm_compute; reflexivity).
  split; [exact H|]. split; [exact R1|]. split; [exact R2|].
  split; [exact new_york_days_in_order|].
  split; [exact Hw|].
  split; [exact (proj2 (Hread R1 R2))|].
  exact (Hdays R1 R2 new_york_days_in_order).
Defined.

Lemma flight_references_checked_witness :
  NoDup (map flight_id (flights Examples.db0))
  /\ forallb Mongo.ObjectId_isValid (Lifecycle.bd_flightIds Examples.data_twice) = true
  /\ (exists f, In f (flights Examples.db0) /\ flight_id f = "aaaaaaaaaaaaaaaaaaaaaaa1")
  /\ Lifecycle.createBooking Examples.env1 Examples.data_twice Examples.db0
     = (Mongo.Err Mongo.InvalidFlightIds, Examples.db0).
Proof.
  assert (Hnd : NoDup (map flight_id (flights Examples.db0))).
  { cbn. repeat constructor; cbn; intros H;
      repeat (destruct H as [H|H]; [discriminate|]); exact H. }
  assert (Hr : exists f, In f (flights Examples.db0) /\ flight_id f = "aaaaaaaaaaaaaaaaaaaaaaa1").
  { exists Examples.firstLegF. split; [now left | reflexivity]. }
  split; [exact Hnd|]. split; [reflexivity|]. split; [exact Hr|].
  destruct (flight_references_checked Examples.env1 Examples.data_twice Examples.db0
              Hnd eq_refl) as (_ & Htwice & _).
  exact (Htwice "aaaaaaaaaaaaaaaaaaaaaaa1" eq_refl Hr).
Defined.

Lemma create_then_history_witness :
  Lifecycle.createBooking Examples.env1 Examples.data1 Examples.db0
  = (Mongo.Ok Examples.booking1, Examples.db1)
  /\ Lifecycle.getBookingHistory "BOOK-20260105-000001" Examples.db1
     = (Mongo.Ok Examples.booking1, Examples.db1).
Proof.
  assert (H : Lifecycle.createBooking Examples.env1 Examples.data1 Examples.db0
              = (Mongo.Ok Examples.booking1, Examples.db1)) by (vm_compute; reflexivity).
  split; [exact H|].
  exact (proj1 (create_then_history _ _ _ _ _ H)).
Defined.

Lemma direct_not_in_transit_witness :
  let r := Routes.mkTransit Examples.firstLegF Examples.secondLegF "HYD" 210 450 in
  In r (Routes.transit (Routes.getRoutes (Routes.fixed 0) Examples.catalog "del" " blr" Examples.day0))
  /\ flight_destination (Routes.firstLeg r) <> "BLR"
  /\ Routes.firstLeg r <> Routes.formatFlight Examples.directF.
Proof.
  cbv zeta.
  assert (H : In (Routes.mkTransit Examples.firstLegF Examples.secondLegF "HYD" 210 450)
                 (Routes.transit (Routes.getRoutes (Routes.fixed 0) Examples.catalog "del" " blr"
                                                   Examples.day0)))
    by (vm_compute; left; reflexivity).
  destruct (direct_not_in_transit (Routes.fixed 0) Examples.catalog "del" " blr" Examples.day0)
    as (Hdest & Hfirst & _).
  split; [exact H|]. split.
  - exact (Hdest _ H).
  - apply (Hfirst Examples.directF _); [right; right; right; now left | reflexivity | exact H].
Defined.

Lemma identifier_resolution_witness :
  JS.trim (JS.toUpperCase " book-20260105-000001 ") = JS.trim (JS.toUpperCase "BOOK-20260105-000001")
  /\ Lifecycle.findBookingByIdentifier " book-20260105-000001 " Examples.db1
     = (Mongo.Ok (Some Examples.booking1), Examples.db1)
  /\ Lifecycle.findBookingByIdentifier "BOOK-20260105-000001" Examples.db1
     = (Mongo.Ok (Some Examples.booking1), Examples.db1)
  /\ Lifecycle.findBookingByIdentifier "BBBBBBBBBBBBBBBBBBBBBBB1" Examples.db1
     = (Mongo.Ok (Some Examples.booking1), Examples.db1).
Proof.
  assert (Hn : JS.trim (JS.toUpperCase " book-20260105-000001 ")
               = JS.trim (JS.toUpperCase "BOOK-20260105-000001")) by reflexivity.
  assert (Hnd : NoDup (map ref_id (bookings Examples.db1))).
  { cbn. constructor; [intros []|constructor]. }
  destruct (identifier_resolution Examples.db1 _ _ Hn) as (_ & _ & _ & Href & _).
  destruct (Href Examples.booking1 Hnd (or_introl eq_refl) eq_refl eq_refl eq_refl)
    as (F1 & F2 & _).
  split; [exact Hn|]. split; [exact F1|]. split; [exact F2|].
  destruct (identifier_resolution Examples.db1 "BBBBBBBBBBBBBBBBBBBBBBB1"
              "BBBBBBBBBBBBBBBBBBBBBBB1" eq_refl) as (_ & _ & _ & _ & Hid & _).
  apply Hid; reflexivity.
Defined.

(** * Further properties of the lifecycle *)

Section OperationShape.
Import JS Mongo Lifecycle Store.

Lemma findOneAndUpdate_none (oid : ObjectId) (expected : list Status) (s : Status)
    (ev : TimelineEvent) (db db' : DB) :
  Booking_findOneAndUpdate oid expected s ev db = (Ok None, db') -> db' = db.
Proof.
  intros E.
  pose proof (findOneAndUpdate_result oid expected s ev db) as Hr.
  rewrite E in Hr. cbn [fst] in Hr.
  destruct (find _ (bookings db)) as [x|] eqn:F; [discriminate|].
  unfold Booking_findOneAndUpdate in E.
  rewrite (updateFirst_no_match _ _ _ F) in E. inversion E. now destruct db.
Qed.

Lemma findOneAndUpdate_total (oid : ObjectId) (expected : list Status) (s : Status)
    (ev : TimelineEvent) (db db' : DB) (e : Error) :
  Booking_findOneAndUpdate oid expected s ev db <> (Err e, db').
Proof.
  intros E. pose proof (findOneAndUpdate_result oid expected s ev db) as Hr.
  rewrite E in Hr. discriminate.
Qed.

(** What an operation does to the database: nothing, one insertion at the
    end, or one conditional write along the table that pushes an event named
    after the new status and stamped with the operation's clock reading. *)
Lemma exec_op_shape (op : Op) (db : DB) :
  snd (exec_op op db) = db
  \/ (exists b, fst (exec_op op db) = Ok b
                /\ snd (exec_op op db) = mkDB (flights db) (bookings db ++ [b])
                /\ exists env data, op = OpCreate env data)
  \/ (exists oid expected s ev u,
        exec_op op db = (Ok u, snd (Booking_findOneAndUpdate oid expected s ev db))
        /\ fst (Booking_findOneAndUpdate oid expected s ev db) = Ok (Some u)
        /\ (forall a, In a expected -> table a s = true)
        /\ event ev = s /\ In (timestamp ev) (op_time op)).
Proof.
  destruct op as [env data|now i f|now i f|now i|i]; cbn [exec_op op_time].
  - destruct (createBooking env data db) as [[b|e] db'] eqn:E; cbn [fst snd].
    + right. left. exists b. split; [reflexivity|].
      apply createBooking_ok in E as (-> & _). split; [reflexivity | eauto].
    + left. now apply createBooking_err in E.
  - rewrite departBooking_cases.
    destruct (lookup i (bookings db)) as [b|]; [|now left].
    destruct (includes [BOOKED] (status b)); [|now left].
    destruct (optObjectId f) as [fid|]; [|now left].
    destruct (Booking_findOneAndUpdate (_id b) [BOOKED] DEPARTED (mkEvent DEPARTED now fid) db)
      as [[[u|]|e] db'] eqn:E.
    + right. right. exists (_id b), [BOOKED], DEPARTED, (mkEvent DEPARTED now fid), u.
      rewrite E. repeat split; auto using table_depart. now left.
    + left. now apply findOneAndUpdate_none in E.
    + now apply findOneAndUpdate_total in E.
  - rewrite arriveBooking_cases.
    destruct (lookup i (bookings db)) as [b|]; [|now left].
    destruct (includes [DEPARTED; BOOKED] (status b)); [|now left].
    destruct (optObjectId f) as [fid|]; [|now left].
    destruct (Booking_findOneAndUpdate (_id b) [DEPARTED; BOOKED] ARRIVED
                (mkEvent ARRIVED now fid) db) as [[[u|]|e] db'] eqn:E.
    + right. right.
      exists (_id b), [DEPARTED; BOOKED], ARRIVED, (mkEvent ARRIVED now fid), u.
      rewrite E. repeat split; auto using table_arrive. now left.
    + left. now apply findOneAndUpdate_none in E.
    + now apply findOneAndUpdate_total in E.
  - rewrite cancelBooking_cases.
    destruct (lookup i (bookings db)) as [b|]; [|now left].
    destruct (Status_eqb (status b) ARRIVED); [now left|].
    destruct (includes [BOOKED; DEPARTED] (status b)); [|now left].
    destruct (Booking_findOneAndUpdate (_id b) [BOOKED; DEPARTED] CANCELLED
                (mkEvent CANCELLED now None) db) as [[[u|]|e] db'] eqn:E.
    + right. right.
      exists (_id b), [BOOKED; DEPARTED], CANCELLED, (mkEvent CANCELLED now None), u.
      rewrite E. repeat split; auto using table_cancel. now left.
    + left. now apply findOneAndUpdate_none in E.
    + now apply findOneAndUpdate_total in E.
  - unfold getBookingHistory, bind. rewrite findBookingByIdentifier_lookup.
    destruct (lookup i (bookings db)); now left.
Qed.

(** A conditional write, booking by booking. *)
Lemma findOneAndUpdate_grows (oid : ObjectId) (expected : list Status) (ev : TimelineEvent)
    (db : DB) :
  (forall a, In a expected -> table a (event ev) = true) ->
  Forall2 grows (bookings db)
          (bookings (snd (Booking_findOneAndUpdate oid expected (event ev) ev db))).
Proof.
  intros Ht. unfold Booking_findOneAndUpdate.
  match goal with |- context [updateFirst ?m ?u ?l] =>
    pose proof (updateFirst_Forall2 grows m u l) as H;
    destruct (updateFirst m u l) as [o r] end.
  cbn [snd bookings] in *. apply H.
  - intros x. split; [repeat split | now left].
  - intros x Hx. apply andb_true_iff in Hx as [_ Hx]. apply includes_In in Hx.
    split; [repeat split|]. right. exists ev. cbn [set_and_push timeline status].
    repeat split. now apply Ht.
Qed.

Lemma Forall2_grows_refl (bs : list Booking) : Forall2 grows bs bs.
Proof.
  induction bs; constructor; auto. split; [repeat split | now left].
Qed.

End OperationShape.

(** An operation, booking by booking. *)
Lemma exec_op_moves (op : Lifecycle.Op) (db : DB) :
  let db' := snd (Lifecycle.exec_op op db) in
  flights db' = flights db
  /\ exists moved created,
       bookings db' = (moved ++ created)%list
       /\ Forall2 Store.grows (bookings db) moved
       /\ (created = []
           \/ exists env data b,
                op = Lifecycle.OpCreate env data /\ created = [b]
                /\ fst (Lifecycle.exec_op op db) = Mongo.Ok b /\ status b = BOOKED).
Proof.
  cbv zeta.
  destruct (exec_op_shape op db)
    as [->|[(b & Hb & -> & env & data & ->)|(o & x & s & ev & u & -> & _ & Ht & <- & _)]].
  - split; [reflexivity|]. exists (bookings db), []. rewrite app_nil_r.
    split; [reflexivity|]. split; [apply Forall2_grows_refl | now left].
  - split; [reflexivity|]. exists (bookings db), [b]. cbn [bookings].
    split; [reflexivity|]. split; [apply Forall2_grows_refl|].
    right. exists env, data, b. repeat split; auto.
    cbn [Lifecycle.exec_op] in Hb.
    destruct (Lifecycle.createBooking env data db) as [[b'|e] d] eqn:E; [|discriminate].
    cbn in Hb. inversion Hb; subst.
    now apply createBooking_ok in E as (_ & _ & _ & _ & _ & _ & _ & _ & _ & Hs & _).
  - cbn [snd]. split; [apply findOneAndUpdate_flights|].
    exists (bookings (snd (Mongo.Booking_findOneAndUpdate o x (event ev) ev db))), [].
    rewrite app_nil_r. split; [reflexivity|].
    split; [now apply findOneAndUpdate_grows | now left].
Qed.

(** X1. An operation that fails writes nothing: whenever create, depart,
    arrive, cancel or history throws, the database is the one it started
    from. *)
Theorem failed_operation_writes_nothing (op : Lifecycle.Op) (db db' : DB) (e : Mongo.Error) :
  Lifecycle.exec_op op db = (Mongo.Err e, db') -> db' = db.
Proof.
  intros E. destruct (exec_op_shape op db) as [H|[(b & Hb & _)|(o & x & s & ev & u & H & _)]].
  - rewrite E in H. exact H.
  - rewrite E in Hb. discriminate.
  - rewrite E in H. discriminate.
Qed.

(** X2. No operation removes or reorders a stored booking or changes its
    [_id], [ref_id], origin, destination, pieces, weight or flights; an
    operation leaves a stored booking as it is or pushes one event at the end
    of its timeline, named after the new status, a table edge from the old;
    a creation adds one BOOKED booking at the end of the collection and no
    other operation adds any; no booking is removed or moved. *)
Theorem operations_keep_identity (op : Lifecycle.Op) (db : DB) :
  let db' := snd (Lifecycle.exec_op op db) in
  flights db' = flights db
  /\ exists moved created,
       bookings db' = (moved ++ created)%list
       /\ Forall2 Store.grows (bookings db) moved
       /\ (created = []
           \/ exists env data b,
                op = Lifecycle.OpCreate env data /\ created = [b]
                /\ fst (Lifecycle.exec_op op db) = Mongo.Ok b /\ status b = BOOKED)
       /\ List.length moved = List.length (bookings db)
       /\ map _id moved = map _id (bookings db)
       /\ map ref_id moved = map ref_id (bookings db).
Proof.
  cbv zeta. destruct (exec_op_moves op db) as (Hf & moved & created & E & Hm & Hc).
  split; [exact Hf|]. exists moved, created.
  split; [exact E|]. split; [exact Hm|]. split; [exact Hc|].
  clear E Hc. induction Hm as [|x y l l' Hxy Hm IH]; [repeat split|].
  destruct IH as (I1 & I2 & I3).
  destruct Hxy as [(Hi & Hr & _) _]. cbn [List.length map].
  repeat split; congruence.
Qed.

Section StoreInvariants.
Import JS Mongo Lifecycle Store.

(** A property of stored bookings that creation establishes and growth keeps
    holds after every sequence of operations. *)
Lemma exec_ops_Forall (P : Booking -> Prop) :
  (forall x y, grows x y -> P x -> P y) ->
  (forall env data db b db', createBooking env data db = (Ok b, db') -> P b) ->
  forall ops db, Forall P (bookings db) -> Forall P (bookings (exec_ops ops db)).
Proof.
  intros Hg Hc. unfold exec_ops.
  induction ops as [|op ops IH]; intros db HP; cbn [fold_left]; [exact HP|].
  apply IH.
  destruct (exec_op_moves op db) as (_ & moved & created & -> & Hm & Hcr).
  apply Forall_app. split.
  - clear Hcr. induction Hm as [|x y l l' Hxy Hm IHm]; [constructor|].
    inversion HP; subst. constructor; [eapply Hg; eassumption | now apply IHm].
  - destruct Hcr as [->|(env & data & b & -> & -> & Hb & _)]; [constructor|].
    constructor; [|constructor]. cbn [exec_op] in Hb.
    destruct (createBooking env data db) as [[b'|e] d] eqn:E; [|discriminate].
    cbn in Hb. inversion Hb; subst. eapply Hc; eassumption.
Qed.

Lemma chained_snoc (l : list Status) (a s : Status) :
  chained l = true -> last l a = s -> l <> [] -> forall s', table s s' = true ->
  chained (l ++ [s']) = true.
Proof.
  intros Hc Hl Hne s' Ht. induction l as [|x l IH]; [now elim Hne|].
  destruct l as [|y l].
  - cbn in *. subst. now rewrite Ht.
  - cbn [app chained] in *. apply andb_true_iff in Hc as [Hxy Hc].
    rewrite Hxy. cbn [andb]. apply IH; [exact Hc | exact Hl | discriminate].
Qed.

Lemma grows_path (x y : Booking) : grows x y -> lifecycle_path x -> lifecycle_path y.
Proof.
  intros [_ [->|(ev & Ht & Hs & Htab)]] (Hh & Hc & Hl); [now repeat split|].
  unfold lifecycle_path. rewrite Ht, map_app. cbn [map].
  assert (Hne : map event (timeline x) <> []).
  { destruct (map event (timeline x)); [discriminate | discriminate]. }
  split; [|split].
  - destruct (map event (timeline x)); [now elim Hne | exact Hh].
  - eapply chained_snoc; try eassumption. now rewrite <- Hs.
  - rewrite last_last. now symmetry.
Qed.

Lemma path_bounds (b : Booking) :
  lifecycle_path b ->
  (List.length (timeline b) <= 3)%nat /\ status b <> DELIVERED
  /\ (List.length (timeline b) = 3%nat -> status b = ARRIVED \/ status b = CANCELLED).
Proof.
  intros (Hh & Hc & Hl). rewrite <- (length_map event). revert Hh Hc Hl.
  generalize (status b) as s. generalize (map event (timeline b)) as l.
  intros l s Hh Hc Hl.
  destruct l as [|a l]; [discriminate|]. cbn in Hh. injection Hh as ->.
  destruct l as [|b1 l].
  { cbn in *. subst. repeat split; try lia; discriminate. }
  destruct l as [|c l].
  { cbn in *. rewrite andb_true_r in Hc. subst.
    destruct s; try discriminate; repeat split; try lia; discriminate. }
  destruct l as [|d l].
  { cbn in *. apply andb_true_iff in Hc as [H1 H2]. rewrite andb_true_r in H2. subst.
    destruct b1; try discriminate; destruct s; try discriminate;
      repeat split; try lia; try discriminate; auto. }
  exfalso. cbn [Store.chained] in Hc.
  apply andb_true_iff in Hc as [H1 H2]. apply andb_true_iff in H2 as [H2 H3].
  apply andb_true_iff in H3 as [H3 _].
  destruct b1; try discriminate; destruct c; try discriminate;
    destruct d; discriminate.
Qed.

End StoreInvariants.

(** X3. In a store whose bookings have timelines that are table paths from
    BOOKED to their status, every sequence of operations keeps them so: the
    event names of each timeline start with BOOKED, each follows the one
    before along the transition table, and the last is the booking's status.
    Hence no timeline has more than three events, a timeline of three ends
    ARRIVED or CANCELLED, and no booking is ever DELIVERED. *)
Theorem timelines_are_table_paths (ops : list Lifecycle.Op) (db : DB) :
  Forall Store.lifecycle_path (bookings db) ->
  forall b, In b (bookings (Lifecycle.exec_ops ops db)) ->
    Store.lifecycle_path b
    /\ (List.length (timeline b) <= 3)%nat
    /\ status b <> DELIVERED
    /\ (List.length (timeline b) = 3%nat -> status b = ARRIVED \/ status b = CANCELLED).
Proof.
  intros H0 b Hb.
  assert (Hp : Store.lifecycle_path b).
  { revert b Hb. apply Forall_forall.
    apply (exec_ops_Forall Store.lifecycle_path); [exact grows_path| |exact H0].
    intros env data d x d' E.
    apply createBooking_ok in E as (_ & _ & _ & _ & _ & _ & _ & _ & _ & Hs & Ht & _).
    unfold Store.lifecycle_path. rewrite Ht, Hs. now repeat split. }
  split; [exact Hp | now apply path_bounds].
Qed.

Section KeyFacts.
Import JS Mongo Lifecycle Store.

Lemma grows_keys (l l' : list Booking) :
  Forall2 grows l l' -> map _id l' = map _id l /\ map ref_id l' = map ref_id l.
Proof.
  induction 1 as [|x y l l' [(Hi & Hr & _) _] _ [IH1 IH2]]; [now split|].
  cbn [map]. now rewrite Hi, Hr, IH1, IH2.
Qed.

Lemma exec_op_unique (op : Op) (db : DB) :
  unique_keys db -> unique_keys (snd (exec_op op db)).
Proof.
  intros [Hi Hr]. unfold unique_keys.
  destruct (exec_op_moves op db) as (_ & moved & created & -> & Hm & Hcr).
  destruct (grows_keys _ _ Hm) as [Ei Er].
  destruct Hcr as [->|(env & data & b & -> & -> & Hb & _)].
  - rewrite app_nil_r, Ei, Er. now split.
  - cbn [exec_op] in Hb.
    destruct (createBooking env data db) as [[b'|e] d] eqn:E; [|discriminate].
    cbn in Hb. inversion Hb; subst b'.
    apply createBooking_ok in E as (_ & _ & _ & _ & _ & _ & _ & _ & _ & _ & _ & Hfresh).
    rewrite !map_app, Ei, Er. cbn [map].
    split; apply NoDup_app; try assumption; try (constructor; [intros []|constructor]).
    + intros a Ha [<-|[]]. apply in_map_iff in Ha as (x & E & Hx).
      now apply (proj1 (Hfresh x Hx)).
    + intros a Ha [<-|[]]. apply in_map_iff in Ha as (x & E & Hx).
      now apply (proj2 (Hfresh x Hx)).
Qed.

(** The booking a successful creation stores has passed the validators. *)
Lemma createBooking_validated (env : SaveEnv) (data : BookingData) (db db' : DB)
    (b : Booking) :
  createBooking env data db = (Ok b, db') -> origin b <> "" /\ destination b <> "".
Proof.
  rewrite createBooking_cases. cbv zeta. intros H.
  assert (Hs : save env (new_Booking (new_id env)
                (trim (toUpperCase (bd_origin data)))
                (trim (toUpperCase (bd_destination data)))
                (parseInt (bd_pieces data)) (parseInt (bd_weight_kg data))
                (bd_flightIds data) BOOKED) db = (Ok b, db')).
  { destruct (Nat.ltb 0 _); [|exact H].
    destruct (mapResult _ _); [|discriminate].
    destruct (Nat.eqb _ _); [exact H | discriminate]. }
  clear H. revert Hs.
  rewrite save_cases. unfold validate, new_Booking, schema_code.
  cbn -[trim toUpperCase RefId.generateRefId].
  destruct (parseInt (bd_pieces data)) as [p|]; [|discriminate].
  destruct (parseInt (bd_weight_kg data)) as [w|]; [|discriminate].
  destruct (_ && _) eqn:V; [|discriminate].
  cbn -[trim toUpperCase RefId.generateRefId].
  destruct (existsb _ (bookings db)); [discriminate|].
  intros H. inversion H; subst. cbn -[trim toUpperCase].
  apply andb_true_iff in V as [V _]. apply andb_true_iff in V as [V _].
  apply andb_true_iff in V as [Vo Vd].
  apply negb_true_iff, String.eqb_neq in Vo. apply negb_true_iff, String.eqb_neq in Vd.
  now split.
Qed.

Lemma NoDup_id_eq (bs : list Booking) (x y : Booking) :
  NoDup (map _id bs) -> In x bs -> In y bs -> _id x = _id y -> x = y.
Proof.
  induction bs as [|z bs IH]; intros Hnd Hx Hy E; [destruct Hx|].
  inversion Hnd as [|? ? Hz Hnd']; subst.
  destruct Hx as [->|Hx], Hy as [->|Hy]; auto.
  - elim Hz. rewrite E. now apply in_map.
  - elim Hz. rewrite <- E. now apply in_map.
Qed.

(** With unique ids, a conditional write keyed on a stored booking whose
    status is expected replaces that booking and nothing else, and the
    identifiers that resolved to it resolve to its update. *)
Lemma write_hits (expected : list Status) (s : Status) (ev : TimelineEvent)
    (db : DB) (b : Booking) :
  NoDup (map _id (bookings db)) -> In b (bookings db) ->
  includes expected (status b) = true ->
  let u := set_and_push s ev b in
  let db' := mkDB (flights db)
               (map (fun x => if String.eqb (_id x) (_id b) then u else x) (bookings db)) in
  Booking_findOneAndUpdate (_id b) expected s ev db = (Ok (Some u), db')
  /\ forall i, lookup i (bookings db) = Some b -> lookup i (bookings db') = Some u.
Proof.
  intros Hnd Hin Hst u db'.
  set (m := fun x => String.eqb (_id x) (_id b) && includes expected (status x)).
  set (g := fun x => if m x then set_and_push s ev x else x).
  assert (Hmb : m b = true) by (unfold m; now rewrite String.eqb_refl, Hst).
  assert (Hmid : forall y, m y = true -> _id y = _id b).
  { intros y Hy. apply andb_true_iff in Hy as [Hy _]. now apply String.eqb_eq. }
  assert (Hfind : find m (bookings db) = Some b) by (apply find_unique; auto).
  assert (Hmap : map g (bookings db)
                 = map (fun x => if String.eqb (_id x) (_id b) then u else x) (bookings db)).
  { apply map_ext_in. intros x Hx. unfold g, m.
    destruct (String.eqb (_id x) (_id b)) eqn:E; [|reflexivity].
    apply String.eqb_eq in E.
    assert (x = b) by (eapply NoDup_id_eq; eassumption). subst x.
    now rewrite Hst. }
  split.
  - unfold Booking_findOneAndUpdate. fold m.
    pose proof (updateFirst_as_map (_id b) m (set_and_push s ev) (bookings db) Hnd Hmid) as Hs.
    pose proof (updateFirst_result m (set_and_push s ev) (bookings db)) as Hf.
    destruct (updateFirst m (set_and_push s ev) (bookings db)) as [o r].
    cbn [fst snd] in *. subst o r. rewrite Hfind. cbn [option_map].
    unfold db'. now rewrite <- Hmap.
  - intros i Hi. unfold db'. cbn [bookings]. rewrite <- Hmap.
    assert (Hgid : forall x, _id (g x) = _id x) by (intros x; unfold g; now destruct (m x)).
    assert (Hgref : forall x, ref_id (g x) = ref_id x) by (intros x; unfold g; now destruct (m x)).
    destruct (lookup_map g i (bookings db) Hgid Hgref) as [-> _].
    rewrite Hi. cbn [option_map]. unfold g. now rewrite Hmb.
Qed.

End KeyFacts.

(** X4. The unique indexes are kept: in a store where no two bookings share
    an [_id] or a [ref_id], none do after any sequence of operations. *)
Theorem unique_keys_kept (ops : list Lifecycle.Op) (db : DB) :
  Store.unique_keys db -> Store.unique_keys (Lifecycle.exec_ops ops db).
Proof.
  revert db. unfold Lifecycle.exec_ops.
  induction ops as [|op ops IH]; intros db H; cbn [fold_left]; [exact H|].
  apply IH, exec_op_unique, H.
Qed.

(** X5. Every stored booking keeps what the schema promises: in a store
    whose bookings have non-empty origin and destination codes in normal form
    (upper case, trimmed), at least one piece, a weight that is not negative
    and a non-empty upper-case reference id, so have all bookings after any
    sequence of operations. *)
Theorem stored_bookings_schema_ok (ops : list Lifecycle.Op) (db : DB) :
  Forall Store.schema_ok (bookings db) ->
  Forall Store.schema_ok (bookings (Lifecycle.exec_ops ops db)).
Proof.
  apply exec_ops_Forall.
  - intros x y [(Hi & Hr & Ho & Hd & Hp & Hw & _) _].
    unfold Store.schema_ok. now rewrite Hr, Ho, Hd, Hp, Hw.
  - intros env data d b d' E.
    destruct (createBooking_validated _ _ _ _ _ E) as [Vo Vd].
    apply createBooking_ok in E as (_ & _ & Hr & Ho & Hd & _ & _ & Hp & Hw & _).
    destruct (generateRefId_normal (Lifecycle.today env) (bookings d)) as (_ & _ & Hne).
    cbv zeta in Hne.
    unfold Store.schema_ok. rewrite Hr, Ho, Hd, !normalise_idem, toUpperCase_idem.
    rewrite <- Ho, <- Hd. repeat split; auto.
Qed.

(** X6. With unique ids, what a transition does is decided by the status of
    the booking its identifier resolves to, for a flight id that is absent
    or well formed. Depart from BOOKED, arrive and cancel from BOOKED or
    DEPARTED succeed: the booking is replaced by itself with the new status
    and one more event, nothing else changes, and the identifier resolves to
    the result afterwards. From any other status the transition throws its
    status error, an invalid transition, and writes nothing. *)
Theorem transition_decision (db : DB) (i : string) (b : Booking) (now : Z)
    (f : option string) (fid : option ObjectId) :
  NoDup (map _id (bookings db)) ->
  Lifecycle.lookup i (bookings db) = Some b ->
  Lifecycle.optObjectId f = Mongo.Ok fid ->
  let result := fun s flight => Mongo.set_and_push s (mkEvent s now flight) b in
  let replaced := fun u =>
    mkDB (flights db)
         (map (fun x => if String.eqb (_id x) (_id b) then u else x) (bookings db)) in
  (* depart *)
  (status b = BOOKED ->
   Lifecycle.departBooking now i f db
   = (Mongo.Ok (result DEPARTED fid), replaced (result DEPARTED fid))
   /\ Lifecycle.lookup i (bookings (replaced (result DEPARTED fid)))
      = Some (result DEPARTED fid))
  /\ (status b <> BOOKED ->
      Lifecycle.departBooking now i f db = (Mongo.Err (Mongo.CannotDepart (status b)), db))
  (* arrive *)
  /\ (status b = BOOKED \/ status b = DEPARTED ->
      Lifecycle.arriveBooking now i f db
      = (Mongo.Ok (result ARRIVED fid), replaced (result ARRIVED fid))
      /\ Lifecycle.lookup i (bookings (replaced (result ARRIVED fid)))
         = Some (result ARRIVED fid))
  /\ (status b <> BOOKED -> status b <> DEPARTED ->
      Lifecycle.arriveBooking now i f db = (Mongo.Err (Mongo.CannotArrive (status b)), db))
  (* cancel *)
  /\ (status b = BOOKED \/ status b = DEPARTED ->
      Lifecycle.cancelBooking now i db
      = (Mongo.Ok (result CANCELLED None), replaced (result CANCELLED None))
      /\ Lifecycle.lookup i (bookings (replaced (result CANCELLED None)))
         = Some (result CANCELLED None))
  /\ (status b = ARRIVED ->
      Lifecycle.cancelBooking now i db = (Mongo.Err Mongo.CannotCancelArrived, db))
  /\ (status b = CANCELLED \/ status b = DELIVERED ->
      Lifecycle.cancelBooking now i db = (Mongo.Err (Mongo.CannotCancel (status b)), db))
  /\ (forall s, Lifecycle.kind (Mongo.CannotDepart s) = Lifecycle.InvalidTransition
                /\ Lifecycle.kind (Mongo.CannotArrive s) = Lifecycle.InvalidTransition
                /\ Lifecycle.kind (Mongo.CannotCancel s) = Lifecycle.InvalidTransition).
Proof.
  intros Hnd Hl Hf result replaced.
  assert (Hin : In b (bookings db)) by (eapply lookup_in; exact Hl).
  assert (Hw : forall expected s flight,
             Mongo.includes expected (status b) = true ->
             Mongo.Booking_findOneAndUpdate (_id b) expected s (mkEvent s now flight) db
             = (Mongo.Ok (Some (result s flight)), replaced (result s flight))
             /\ Lifecycle.lookup i (bookings (replaced (result s flight)))
                = Some (result s flight)).
  { intros expected s flight Hs.
    destruct (write_hits expected s (mkEvent s now flight) db b Hnd Hin Hs) as [E Hlk].
    split; [exact E | now apply Hlk]. }
  repeat split.
  - rewrite departBooking_cases, Hl, H, Hf. cbn [Mongo.includes existsb Status_eqb orb].
    destruct (Hw [BOOKED] DEPARTED fid) as [E _]; [now rewrite H|]. now rewrite E.
  - destruct (Hw [BOOKED] DEPARTED fid) as [_ E]; [now rewrite H | exact E].
  - intros Hs. rewrite departBooking_cases, Hl.
    destruct (status b); try reflexivity. now elim Hs.
  - rewrite arriveBooking_cases, Hl.
    assert (Hs : Mongo.includes [DEPARTED; BOOKED] (status b) = true)
      by (destruct H as [-> | ->]; reflexivity).
    rewrite Hs, Hf. destruct (Hw [DEPARTED; BOOKED] ARRIVED fid Hs) as [E _]. now rewrite E.
  - assert (Hs : Mongo.includes [DEPARTED; BOOKED] (status b) = true)
      by (destruct H as [-> | ->]; reflexivity).
    now destruct (Hw [DEPARTED; BOOKED] ARRIVED fid Hs).
  - intros H1 H2. rewrite arriveBooking_cases, Hl.
    destruct (status b); try reflexivity; [now elim H1 | now elim H2].
  - rewrite cancelBooking_cases, Hl.
    assert (Hs : Mongo.includes [BOOKED; DEPARTED] (status b) = true)
      by (destruct H as [-> | ->]; reflexivity).
    assert (Ha : Status_eqb (status b) ARRIVED = false)
      by (destruct H as [-> | ->]; reflexivity).
    rewrite Ha, Hs. destruct (Hw [BOOKED; DEPARTED] CANCELLED None Hs) as [E _].
    now rewrite E.
  - assert (Hs : Mongo.includes [BOOKED; DEPARTED] (status b) = true)
      by (destruct H as [-> | ->]; reflexivity).
    now destruct (Hw [BOOKED; DEPARTED] CANCELLED None Hs).
  - intros Hs. rewrite cancelBooking_cases, Hl, Hs. reflexivity.
  - intros Hs. rewrite cancelBooking_cases, Hl. destruct Hs as [-> | ->]; reflexivity.
Qed.

Section HistoryFacts.
Import JS Mongo Lifecycle Store.

(** Sorting a list that is in order already changes nothing. *)
Lemma sort_by_of_sorted {A} (key : A -> Z) (l : list A) :
  Sorted Z.le (map key l) -> sort_by key l = l.
Proof.
  induction l as [|x l IH]; cbn [map sort_by fold_right]; intros Hs; [reflexivity|].
  inversion Hs as [|? ? Hs' Hhd]; subst.
  fold (sort_by key l). rewrite (IH Hs').
  destruct l as [|y r]; cbn [insert_by]; [reflexivity|].
  cbn [map] in Hhd. inversion Hhd; subst.
  replace (key x <=? key y) with true by lia. reflexivity.
Qed.

(** The sort is stable: elements of one key keep their order. *)
Lemma insert_by_stable {A} (key : A -> Z) (k : Z) (x : A) (l : list A) :
  filter (fun y => key y =? k) (insert_by key x l)
  = if key x =? k then x :: filter (fun y => key y =? k) l
    else filter (fun y => key y =? k) l.
Proof.
  induction l as [|y r IH]; cbn [insert_by filter].
  - destruct (key x =? k); reflexivity.
  - destruct (key x <=? key y) eqn:L; cbn [filter].
    + destruct (key x =? k); reflexivity.
    + rewrite IH. destruct (key x =? k) eqn:X; [|reflexivity].
      replace (key y =? k) with false by lia. reflexivity.
Qed.

Lemma sort_by_stable {A} (key : A -> Z) (k : Z) (l : list A) :
  filter (fun y => key y =? k) (sort_by key l) = filter (fun y => key y =? k) l.
Proof.
  induction l as [|x l IH]; cbn [sort_by fold_right filter]; [reflexivity|].
  fold (sort_by key l). rewrite insert_by_stable, IH. reflexivity.
Qed.

End HistoryFacts.

(** X7. History is a read: it fails with 'Booking not found' when the
    identifier resolves to nothing, and otherwise returns the stored booking
    with its timeline sorted by timestamp, oldest first - the same events,
    those of equal timestamp in their stored order - and writes nothing. A
    timeline stored in time order is returned as it is. *)
Theorem history_view (i : string) (db : DB) :
  match Lifecycle.lookup i (bookings db) with
  | None => Lifecycle.getBookingHistory i db = (Mongo.Err Mongo.BookingNotFound, db)
  | Some b =>
      exists h,
        Lifecycle.getBookingHistory i db = (Mongo.Ok h, db)
        /\ Store.same_identity b h /\ status h = status b
        /\ Sorted Z.le (map timestamp (timeline h))
        /\ Permutation (timeline b) (timeline h)
        /\ (forall t, filter (fun e => timestamp e =? t) (timeline h)
                      = filter (fun e => timestamp e =? t) (timeline b))
        /\ (Sorted Z.le (map timestamp (timeline b)) -> h = b)
  end.
Proof.
  unfold Lifecycle.getBookingHistory, Mongo.bind.
  rewrite findBookingByIdentifier_lookup.
  destruct (Lifecycle.lookup i (bookings db)) as [b|]; [|reflexivity].
  eexists. split; [reflexivity|]. cbn [Lifecycle.with_timeline timeline status].
  split; [repeat split|]. split; [reflexivity|].
  split; [apply sort_by_sorted|]. split; [apply sort_by_permutation|].
  split; [intros t; apply sort_by_stable|].
  intros Hs. rewrite (sort_by_of_sorted _ _ Hs). now destruct b.
Qed.

Section HookFacts.
Import JS Mongo Lifecycle Store.

Lemma Status_eqb_refl_local (s : Status) : Status_eqb s s = true.
Proof. now destruct s. Qed.

Lemma timeline_end (l : list TimelineEvent) :
  l = [] \/ exists l0 e0, l = (l0 ++ [e0])%list.
Proof.
  destruct l as [|x r]; [now left|right].
  destruct (exists_last (l := x :: r)) as (l0 & e0 & E); [discriminate|eauto].
Qed.

Lemma last_some_snoc {A} (l : list A) (x : A) : last (map Some (l ++ [x])) None = Some x.
Proof. rewrite map_app. cbn [map]. apply last_last. Qed.

Lemma last_event_snoc (l : list TimelineEvent) (x : TimelineEvent) (d : Status) :
  last (map event (l ++ [x])) d = event x.
Proof. rewrite map_app. cbn [map]. apply last_last. Qed.

End HookFacts.

(** X8. The timeline hook of [save]. A new document gets a timeline of one
    event, its status at the clock reading, whatever timeline it was built
    with. On an existing document a modified status is appended as one event
    unless the last event names it already (then nothing changes); either
    way the last event names the status afterwards, the events before are
    kept, and running the hook again changes nothing. With the status not
    modified the hook changes nothing. *)
Theorem timeline_hook (now : Z) (b : Booking) :
  (forall m, Lifecycle.preSaveTimeline true m now b
             = Lifecycle.with_timeline b [mkEvent (status b) now None])
  /\ Lifecycle.preSaveTimeline false false now b = b
  /\ (let b' := Lifecycle.preSaveTimeline false true now b in
      status b' = status b /\ Store.same_identity b b'
      /\ (forall d, last (map event (timeline b')) d = status b)
      /\ ((b' = b /\ exists l e, timeline b = (l ++ [e])%list /\ event e = status b)
          \/ (timeline b' = (timeline b ++ [mkEvent (status b) now None])%list
              /\ forall l e, timeline b = (l ++ [e])%list -> event e <> status b))
      /\ forall now', Lifecycle.preSaveTimeline false true now' b' = b').
Proof.
  split; [reflexivity|]. split; [reflexivity|]. cbv zeta.
  unfold Lifecycle.preSaveTimeline. cbn [negb].
  destruct (timeline_end (timeline b)) as [T|(l0 & e0 & T)].
  - rewrite T. cbn [map last]. cbn [Lifecycle.with_timeline status timeline app].
    split; [reflexivity|]. split; [repeat split|].
    split; [reflexivity|]. split.
    + right. split; [reflexivity|]. intros l e E. now destruct l.
    + intros now'. cbn [map last event]. rewrite Status_eqb_refl_local. reflexivity.
  - rewrite T, last_some_snoc.
    destruct (Status_eqb (event e0) (status b)) eqn:E.
    + apply Status_eqb_eq in E.
      split; [reflexivity|]. split; [repeat split|].
      split; [intros d; now rewrite T, last_event_snoc|]. split.
      * left. split; [reflexivity|]. eauto.
      * intros now'. rewrite T, last_some_snoc.
        replace (Status_eqb (event e0) (status b)) with true
          by (symmetry; now apply Status_eqb_eq).
        reflexivity.
    + cbn [Lifecycle.with_timeline status timeline].
      split; [reflexivity|]. split; [repeat split|].
      split; [intros d; now rewrite last_event_snoc|]. split.
      * right. split; [reflexivity|].
        intros l e El He. apply app_inj_tail in El as [_ ->].
        apply Status_eqb_eq in He. congruence.
      * intros now'. rewrite last_some_snoc. cbn [event].
        rewrite Status_eqb_refl_local. reflexivity.
Qed.

(** ** Reference ids: order, freshness, overflow *)

Section RefIdOrder.
Import JS RefId Mongo Lifecycle Store.

Lemma ascii_compare_code (c d : ascii) : Ascii.compare c d = (code c ?= code d).
Proof. unfold Ascii.compare, code. symmetry. apply N2Z.inj_compare. Qed.

(** On digit strings of one length the code-unit order is the numeric order. *)
Lemma compare_digits (a b : string) :
  String.length a = String.length b -> all_digits a = true -> all_digits b = true ->
  String.compare a b = (decimal_value a ?= decimal_value b).
Proof.
  revert b. induction a as [|c a IH]; intros [|d b] L Ha Hb; try discriminate;
    [reflexivity|].
  cbn [String.length] in L. injection L as L.
  cbn [all_digits] in Ha, Hb.
  apply andb_true_iff in Ha as [Hc Ha]. apply andb_true_iff in Hc as [Hc1 Hc2].
  apply andb_true_iff in Hb as [Hd Hb]. apply andb_true_iff in Hd as [Hd1 Hd2].
  apply Z.leb_le in Hc1, Hc2, Hd1, Hd2.
  cbn [String.compare]. rewrite ascii_compare_code.
  unfold decimal_value. cbn [decimal_value_from].
  rewrite (decimal_value_from_shift a), (decimal_value_from_shift b).
  pose proof (decimal_value_range a Ha) as Ra.
  pose proof (decimal_value_range b Hb) as Rb.
  unfold decimal_value in Ra, Rb. rewrite <- L in *.
  set (P := 10 ^ Z.of_nat (String.length a)) in *.
  assert (IHb := IH b L Ha Hb). clearbody P. clear IH.
  destruct (code c ?= code d) eqn:E.
  - apply Z.compare_eq in E. rewrite IHb, E.
    unfold decimal_value. symmetry. apply Z.add_compare_mono_l.
  - change (code c < code d) in E. symmetry. apply Z.compare_lt_iff.
    assert ((code c - 48 + 1) * P <= (code d - 48) * P)
      by (apply Z.mul_le_mono_nonneg_r; lia).
    lia.
  - apply Z.compare_gt_iff in E. symmetry. apply Z.compare_gt_iff.
    assert ((code d - 48 + 1) * P <= (code c - 48) * P)
      by (apply Z.mul_le_mono_nonneg_r; lia).
    lia.
Qed.

Lemma compare_after_prefix (p a b : string) :
  String.compare (p ++ a) (p ++ b) = String.compare a b.
Proof.
  induction p as [|c p IH]; cbn [append String.compare]; [reflexivity|].
  rewrite ascii_compare_code, Z.compare_refl. exact IH.
Qed.

Lemma append_cancel (p a b : string) : p ++ a = p ++ b -> a = b.
Proof.
  induction p as [|c p IH]; cbn [append]; intros H; [exact H|].
  injection H as H. auto.
Qed.

Lemma startsWith_rest (p s : string) : startsWith p s = true -> exists r, s = p ++ r.
Proof.
  unfold startsWith. revert s. induction p as [|c p IH]; intros s H.
  - exists s. reflexivity.
  - destruct s as [|d s]; cbn [String.prefix] in H; [discriminate|].
    destruct (ascii_dec c d) as [->|]; [|discriminate].
    destruct (IH s H) as (r & ->). exists r. reflexivity.
Qed.

Lemma drop_append (p s : string) : drop (String.length p) (p ++ s) = s.
Proof. induction p as [|c p IH]; cbn; [now destruct s | exact IH]. Qed.

Lemma sequence_of_append (p ds : string) : sequence_of p (p ++ ds) = decimal_value ds.
Proof. unfold sequence_of. now rewrite drop_append. Qed.

(** The fold of [greater] returns an element of greatest rank, for any rank
    the order agrees with on the strings folded. *)
Lemma fold_greater_ranked (rank : string -> Z) (l : list string) (acc : option string) :
  (forall x y, (In x l \/ acc = Some x) -> (In y l \/ acc = Some y) ->
               String.compare x y = (rank x ?= rank y)) ->
  match fold_left greater l acc with
  | Some m => (acc = Some m \/ In m l)
              /\ forall x, In x l \/ acc = Some x -> rank x <= rank m
  | None => acc = None /\ l = []
  end.
Proof.
  revert acc. induction l as [|x l IH]; intros acc Hc; cbn [fold_left].
  - destruct acc as [a|]; [|now split].
    split; [now left|]. intros y [[]|Hy]. inversion Hy. lia.
  - assert (Hg : exists g, greater acc x = Some g
                  /\ (g = x \/ acc = Some g)
                  /\ rank x <= rank g /\ forall a, acc = Some a -> rank a <= rank g).
    { destruct acc as [a|]; cbn [greater].
      - rewrite (Hc a x) by (auto using in_eq).
        destruct (rank a ?= rank x) eqn:E.
        + apply Z.compare_eq in E. exists a. repeat split; auto; try lia.
          intros ? [= <-]. lia.
        + change (rank a < rank x) in E. exists x. repeat split; auto; try lia.
          intros ? [= <-]. lia.
        + apply Z.compare_gt_iff in E. exists a. repeat split; auto; try lia.
          intros ? [= <-]. lia.
      - exists x. repeat split; auto; try lia. discriminate. }
    destruct Hg as (g & Eg & Hg & Hx & Ha). rewrite Eg.
    assert (Hsub : forall y, In y l \/ Some g = Some y -> In y (x :: l) \/ acc = Some y).
    { intros y [Hy|[= <-]]; [left; now right|].
      destruct Hg as [->|Hg]; [left; now left | now right]. }
    specialize (IH (Some g) (fun a b Ha' Hb' => Hc a b (Hsub a Ha') (Hsub b Hb'))).
    destruct (fold_left greater l (Some g)) as [m|]; [|destruct IH; discriminate].
    destruct IH as [Hm Hmax]. split.
    + destruct Hm as [[= <-]|Hm]; [|right; now right].
      destruct Hg as [->|Hg]; [right; now left | now left].
    + assert (Hgm : rank g <= rank m) by (apply Hmax; now right).
      intros y [[<-|Hy]|Hy].
      * lia.
      * apply Hmax. now left.
      * specialize (Ha y Hy). lia.
Qed.

(** In a well-formed day the query for the last reference id returns an id of
    the day with the greatest sequence number. *)
Lemma findLastRefId_well_formed (p : string) (bs : list Booking) :
  day_well_formed p bs ->
  match findLastRefId p bs with
  | None => forall b, In b bs -> startsWith p (ref_id b) = false
  | Some m =>
      exists ds, m = p ++ ds /\ String.length ds = 6%nat /\ all_digits ds = true
                 /\ In m (map ref_id bs)
                 /\ forall b es, In b bs -> ref_id b = p ++ es ->
                                 decimal_value es <= decimal_value ds
  end.
Proof.
  intros Hwf. unfold findLastRefId.
  set (l := map ref_id (filter (fun b => startsWith p (ref_id b)) bs)).
  assert (Hl : forall x, In x l -> exists ds, x = p ++ ds /\ String.length ds = 6%nat
                                              /\ all_digits ds = true /\ In x (map ref_id bs)).
  { intros x Hx. apply in_map_iff in Hx as (b & <- & Hb).
    apply filter_In in Hb as [Hb Hp].
    destruct (Hwf b Hb Hp) as (ds & E & L & D). exists ds. repeat split; auto.
    now apply in_map. }
  pose proof (fold_greater_ranked (sequence_of p) l None) as H.
  destruct (fold_left greater l None) as [m|].
  - destruct H as [[Hm|Hm] Hmax]; [| discriminate |].
    { intros x y [Hx|Hx] [Hy|Hy]; try discriminate.
      destruct (Hl x Hx) as (dx & -> & Lx & Dx & _).
      destruct (Hl y Hy) as (dy & -> & Ly & Dy & _).
      rewrite compare_after_prefix, !sequence_of_append.
      apply compare_digits; congruence. }
    destruct (Hl m Hm) as (ds & -> & L & D & Hin).
    exists ds. repeat split; auto.
    intros b es Hb Eb.
    assert (Hbl : In (ref_id b) l).
    { apply in_map. apply filter_In. split; [exact Hb|].
      rewrite Eb. apply prefix_append. }
    specialize (Hmax (ref_id b) (or_introl Hbl)).
    rewrite Eb, !sequence_of_append in Hmax. exact Hmax.
  - destruct H as [_ Hnil].
    { intros x y [Hx|Hx] [Hy|Hy]; try discriminate.
      destruct (Hl x Hx) as (dx & -> & Lx & Dx & _).
      destruct (Hl y Hy) as (dy & -> & Ly & Dy & _).
      rewrite compare_after_prefix, !sequence_of_append.
      apply compare_digits; congruence. }
    intros b Hb. destruct (startsWith p (ref_id b)) eqn:E; [|reflexivity].
    assert (Hbl : In (ref_id b) l).
    { apply in_map. apply filter_In. now split. }
    rewrite Hnil in Hbl. destruct Hbl.
Qed.

(** The id the hook builds after a last id of the day with six digits. *)
Lemma generateRefId_after (today : UTCDate) (bs : list Booking) (ds : string) :
  findLastRefId (prefixOf today) bs = Some (prefixOf today ++ ds) ->
  String.length ds = 6%nat -> all_digits ds = true ->
  generateRefId today bs
  = prefixOf today ++ padStart 6 "0" (Number_toString (decimal_value ds + 1)).
Proof.
  intros E L Hd.
  assert (Hne : ds <> "") by (intros ->; discriminate).
  rewrite (generateRefId_next today bs ds E Hne Hd).
  pose proof (decimal_value_range ds Hd) as R. rewrite L in R.
  change (10 ^ Z.of_nat 6) with 1000000 in R.
  rewrite next_exact by (unfold two53; lia). reflexivity.
Qed.

Lemma six_digits_full (ds : string) :
  String.length ds = 6%nat -> all_digits ds = true ->
  decimal_value ds = 999999 -> ds = "999999".
Proof.
  intros L D V. apply String.compare_eq_iff.
  rewrite compare_digits by (auto; reflexivity).
  rewrite V. reflexivity.
Qed.

End RefIdOrder.

Section RefIdFresh.
Import JS RefId Mongo Lifecycle Store.

Lemma pad_value (n : Z) : 0 <= n -> decimal_value (pad 6 n) = n.
Proof.
  intros Hn. unfold pad, padStart.
  rewrite decimal_value_repeat_zero. now apply decimal_value_toString.
Qed.

(** The hook's id in a well-formed day that is not full. *)
Lemma generateRefId_fresh (today : UTCDate) (bs : list Booking) :
  day_well_formed (prefixOf today) bs ->
  ~ In (prefixOf today ++ "999999") (map ref_id bs) ->
  exists sfx,
    generateRefId today bs = prefixOf today ++ sfx
    /\ String.length sfx = 6%nat /\ all_digits sfx = true
    /\ ~ In (generateRefId today bs) (map ref_id bs)
    /\ (forall b, In b bs -> startsWith (prefixOf today) (ref_id b) = true ->
          String.compare (ref_id b) (generateRefId today bs) = Lt
          /\ sequence_of (prefixOf today) (ref_id b) < decimal_value sfx)
    /\ ((decimal_value sfx = 1
         /\ forall b, In b bs -> startsWith (prefixOf today) (ref_id b) = false)
        \/ exists b, In b bs /\ startsWith (prefixOf today) (ref_id b) = true
                     /\ decimal_value sfx = sequence_of (prefixOf today) (ref_id b) + 1).
Proof.
  intros Hwf Hfull. set (p := prefixOf today) in *.
  pose proof (findLastRefId_well_formed p bs Hwf) as H.
  destruct (findLastRefId p bs) as [m|] eqn:E.
  - destruct H as (ds & -> & L & D & Hin & Hmax).
    assert (Hne : ds <> "") by (intros ->; discriminate).
    pose proof (decimal_value_range ds D) as R. rewrite L in R.
    change (10 ^ Z.of_nat 6) with 1000000 in R.
    assert (Hn : decimal_value ds <> 999999).
    { intros V. apply Hfull. now rewrite <- (six_digits_full ds L D V). }
    assert (Eg : generateRefId today bs = p ++ pad 6 (decimal_value ds + 1))
      by (apply generateRefId_after; assumption).
    assert (Lp : String.length (pad 6 (decimal_value ds + 1)) = 6%nat)
      by (apply length_pad; [lia | change (10 ^ Z.of_nat 6) with 1000000; lia]).
    assert (Dp : all_digits (pad 6 (decimal_value ds + 1)) = true)
      by (apply all_digits_pad; lia).
    assert (Vp : decimal_value (pad 6 (decimal_value ds + 1)) = decimal_value ds + 1)
      by (apply pad_value; lia).
    assert (Hlt : forall b, In b bs -> startsWith p (ref_id b) = true ->
              exists es, ref_id b = p ++ es /\ String.length es = 6%nat
                         /\ all_digits es = true /\ decimal_value es <= decimal_value ds).
    { intros b Hb Hp. destruct (Hwf b Hb Hp) as (es & Eb & Le & De).
      exists es. repeat split; auto. exact (Hmax b es Hb Eb). }
    exists (pad 6 (decimal_value ds + 1)). rewrite Eg.
    split; [reflexivity|]. split; [exact Lp|]. split; [exact Dp|]. split; [|split].
    + intros Hr. apply in_map_iff in Hr as (b & Eb & Hb).
      destruct (Hlt b Hb) as (es & Ee & _ & _ & Hle).
      { rewrite Eb. apply prefix_append. }
      rewrite Ee in Eb. apply append_cancel in Eb. subst es. lia.
    + intros b Hb Hp. destruct (Hlt b Hb Hp) as (es & -> & Le & De & Hle).
      rewrite compare_after_prefix, sequence_of_append.
      rewrite compare_digits by congruence. rewrite Vp.
      split; [apply Z.compare_lt_iff|]; lia.
    + right. apply in_map_iff in Hin as (b & Eb & Hb). exists b.
      split; [exact Hb|]. rewrite Eb. split; [apply prefix_append|].
      now rewrite sequence_of_append.
  - assert (Eg : generateRefId today bs = p ++ "000001").
    { unfold generateRefId. cbv zeta. fold p. rewrite E. reflexivity. }
    exists "000001". rewrite Eg.
    split; [reflexivity|]. split; [reflexivity|]. split; [reflexivity|]. split; [|split].
    + intros Hr. apply in_map_iff in Hr as (b & Eb & Hb).
      specialize (H b Hb). rewrite Eb, (prefix_append p) in H. discriminate.
    + intros b Hb Hp. rewrite (H b Hb) in Hp. discriminate.
    + left. split; [reflexivity | exact H].
Qed.

Lemma prefix_same_length (p q s : string) :
  String.length p = String.length q -> String.prefix p (q ++ s) = true -> p = q.
Proof.
  revert q. induction p as [|c p IH]; intros [|d q] L H; try discriminate; [reflexivity|].
  cbn [append String.prefix] in H. injection L as L.
  destruct (ascii_dec c d) as [->|]; [|discriminate].
  f_equal. eauto.
Qed.

Lemma mapResult_error (l : list string) (e : Error) :
  mapResult newObjectId l = Err e -> e = BSONError.
Proof.
  induction l as [|x l IH]; cbn [mapResult]; [discriminate|].
  unfold newObjectId at 1. destruct (ObjectId_isValid x); [|now intros [= <-]].
  destruct (mapResult newObjectId l); [discriminate|].
  intros [= <-]. now apply IH.
Qed.

Lemma validate_id (d : Draft) (doc : Booking) : validate d = Some doc -> _id doc = d_id d.
Proof.
  unfold validate. destruct (d_pieces d), (d_weight_kg d); try discriminate.
  destruct (_ && _); intros [= <-]; reflexivity.
Qed.

(** The errors of [createBooking]; a duplicate key names a stored booking with
    the new store id or the generated reference id. *)
Lemma createBooking_errors (env : SaveEnv) (data : BookingData) (db db' : DB) (e : Error) :
  createBooking env data db = (Err e, db') ->
  e = BSONError \/ e = InvalidFlightIds \/ e = ValidationFailed
  \/ (e = DuplicateKey
      /\ exists x, In x (bookings db)
                   /\ (_id x = new_id env
                       \/ ref_id x = toUpperCase (generateRefId (today env) (bookings db)))).
Proof.
  rewrite createBooking_cases. cbv zeta. rewrite save_cases.
  set (d := new_Booking _ _ _ _ _ _ _).
  assert (Hsave :
    match validate d with
    | Some doc =>
        let r := toUpperCase (generateRefId (today env) (bookings db)) in
        let b := mkBooking (_id doc) r (origin doc) (destination doc) (pieces doc)
                   (weight_kg doc) (status doc) (flightIds doc)
                   [mkEvent (status doc) (now env) None] in
        if existsb (fun x => String.eqb (_id x) (_id doc) || String.eqb (ref_id x) r)
             (bookings db)
        then (Err DuplicateKey, db)
        else (Ok b, mkDB (flights db) (bookings db ++ [b]))
    | None => (Err ValidationFailed, db)
    end = (Err e, db') ->
    e = ValidationFailed
    \/ (e = DuplicateKey
        /\ exists x, In x (bookings db)
                     /\ (_id x = new_id env
                         \/ ref_id x = toUpperCase (generateRefId (today env) (bookings db))))).
  { destruct (validate d) as [doc|] eqn:V; cbv zeta; [|intros [= <- _]; now left].
    apply validate_id in V. change (d_id d) with (new_id env) in V. rewrite V.
    destruct (existsb _ (bookings db)) eqn:X; [|discriminate].
    intros [= <- _]. right. split; [reflexivity|].
    apply existsb_exists in X as (x & Hx & Hq). exists x. split; [exact Hx|].
    apply orb_true_iff in Hq as [Hq|Hq]; apply String.eqb_eq in Hq; auto. }
  destruct (Nat.ltb 0 _).
  - destruct (mapResult newObjectId _) as [ids|e0] eqn:M.
    + destruct (Nat.eqb _ _).
      * intros H. destruct (Hsave H) as [->|H']; auto.
      * intros [= <- _]. auto.
    + intros [= <- _]. left. exact (mapResult_error _ _ M).
  - intros H. destruct (Hsave H) as [->|H']; auto.
Qed.

End RefIdFresh.

(** X9. The reference-id hook in a day that is not full. When every stored id
    under the day's prefix is the prefix and six digits, and 999999 is not
    among them, the generated id is the prefix and six digits again, is held
    by no stored booking, comes after every stored id of the day in the
    store's string order, and carries sequence 1 (no id that day) or one more
    than a stored id's sequence; with it stored the day is well formed
    still. *)
Theorem fresh_ref_id (today : RefId.UTCDate) (bs : list Booking) :
  Store.day_well_formed (RefId.prefixOf today) bs ->
  ~ In (RefId.prefixOf today ++ "999999") (map ref_id bs) ->
  exists sfx,
    RefId.generateRefId today bs = RefId.prefixOf today ++ sfx
    /\ String.length sfx = 6%nat /\ RefId.all_digits sfx = true
    /\ ~ In (RefId.generateRefId today bs) (map ref_id bs)
    /\ (forall b, In b bs -> JS.startsWith (RefId.prefixOf today) (ref_id b) = true ->
          String.compare (ref_id b) (RefId.generateRefId today bs) = Lt
          /\ Store.sequence_of (RefId.prefixOf today) (ref_id b) < RefId.decimal_value sfx)
    /\ ((RefId.decimal_value sfx = 1
         /\ forall b, In b bs -> JS.startsWith (RefId.prefixOf today) (ref_id b) = false)
        \/ exists b, In b bs /\ JS.startsWith (RefId.prefixOf today) (ref_id b) = true
                     /\ RefId.decimal_value sfx
                        = Store.sequence_of (RefId.prefixOf today) (ref_id b) + 1)
    /\ (forall b', ref_id b' = RefId.generateRefId today bs ->
          Store.day_well_formed (RefId.prefixOf today) (bs ++ [b'])%list).
Proof.
  intros Hwf Hfull.
  destruct (generateRefId_fresh today bs Hwf Hfull) as (sfx & Eg & L & D & Hrest).
  exists sfx. split; [exact Eg|]. split; [exact L|]. split; [exact D|].
  destruct Hrest as (H1 & H2 & H3). split; [exact H1|]. split; [exact H2|].
  split; [exact H3|].
  intros b' Hb' x Hx Hp. apply in_app_iff in Hx as [Hx|[<-|[]]].
  - exact (Hwf x Hx Hp).
  - exists sfx. rewrite Hb', Eg. auto.
Qed.

Section CreationStages.
Import JS RefId Mongo Lifecycle Store Creation.

(** The stages put together are [createBooking]. *)
Lemma createBooking_staged (env : SaveEnv) (data : BookingData) (db : DB) :
  createBooking env data db
  = bind (request env data) Booking_insert db.
Proof.
  unfold createBooking, request, checkFlights, prepare, draftOf, save, bind. cbv zeta.
  destruct (Nat.ltb 0 (List.length (bd_flightIds data))).
  - unfold lift. destruct (mapResult newObjectId (bd_flightIds data)) as [ids|e];
      [|reflexivity].
    destruct (Flight_find_in ids db) as [[fs|e] d]; [|reflexivity].
    destruct (negb _); cbn [throw ret]; [reflexivity|].
    destruct (validate _) as [doc|]; [|reflexivity].
    cbn [throw ret]. destruct (preSaveRefId true (today env) doc d) as [[doc1|e] d1];
      reflexivity.
  - cbn [ret]. destruct (validate _) as [doc|]; [|reflexivity].
    destruct (preSaveRefId true (today env) doc db) as [[doc1|e] d1]; reflexivity.
Qed.

(** A request reads the collections and writes nothing before its insert. *)
Lemma request_reads (env : SaveEnv) (data : BookingData) (db : DB) :
  snd (request env data db) = db.
Proof.
  unfold request, checkFlights, prepare, bind. cbv zeta.
  assert (Hp : forall d,
    snd (match validate (draftOf env data) with
         | Some doc =>
             fun db0 => match preSaveRefId true (today env) doc db0 with
                        | (Ok a, db') => ret (preSaveTimeline true false (now env) a) db'
                        | (Err e, db') => (Err e, db')
                        end
         | None => throw ValidationFailed
         end d) = d).
  { intros d. destruct (validate _) as [doc|]; [|reflexivity].
    unfold preSaveRefId. destruct (_ && _); reflexivity. }
  destruct (Nat.ltb 0 (List.length (bd_flightIds data))); [|apply Hp].
  unfold lift. destruct (mapResult newObjectId (bd_flightIds data)) as [ids|e];
    [|reflexivity].
  unfold Flight_find_in. cbn [fst snd]. destruct (negb _); [reflexivity | apply Hp].
Qed.

Lemma createBooking_stages (env : SaveEnv) (data : BookingData) (db db' : DB) (b : Booking) :
  createBooking env data db = (Ok b, db') ->
  request env data db = (Ok b, db) /\ Booking_insert b db = (Ok b, db').
Proof.
  rewrite createBooking_staged. unfold bind.
  pose proof (request_reads env data db) as Hd.
  destruct (request env data db) as [[doc|e] d]; cbn [snd] in Hd; subst d; [|discriminate].
  intros H. assert (doc = b).
  { unfold Booking_insert in H. destruct (existsb _ _); inversion H. reflexivity. }
  subst doc. now split.
Qed.

End CreationStages.

(** X10. A creation served alone, in a day that is not full, never trips the
    unique indexes: with a store id not taken and the day's ids well formed
    and below 999999, [createBooking] does not fail with a duplicate key;
    when it succeeds the booking carries the generated id as it is, greater
    than the day's stored ids, and the ids of every day stay well formed.
    Two creations of one day in flight together are another matter: the
    hook of each reads the last id before the other's insert, so both build
    the same id; the insert served first stores its booking, the other
    fails with the duplicate key and stores nothing - though either request
    served alone, or after the other's insert, gets an id of its own. *)
Theorem create_takes_fresh_ref_id (env : Lifecycle.SaveEnv) (data : Lifecycle.BookingData)
    (db : DB) :
  RefId.valid_date (Lifecycle.today env) ->
  Store.day_well_formed (RefId.prefixOf (Lifecycle.today env)) (bookings db) ->
  ~ In (RefId.prefixOf (Lifecycle.today env) ++ "999999") (map ref_id (bookings db)) ->
  (forall x, In x (bookings db) -> _id x <> Lifecycle.new_id env) ->
  (forall e db', Lifecycle.createBooking env data db = (Mongo.Err e, db') ->
                 e <> Mongo.DuplicateKey)
  /\ (forall b db', Lifecycle.createBooking env data db = (Mongo.Ok b, db') ->
        ref_id b = RefId.generateRefId (Lifecycle.today env) (bookings db)
        /\ (forall x, In x (bookings db) ->
              JS.startsWith (RefId.prefixOf (Lifecycle.today env)) (ref_id x) = true ->
              String.compare (ref_id x) (ref_id b) = Lt)
        /\ (forall d, RefId.valid_date d ->
              Store.day_well_formed (RefId.prefixOf d) (bookings db) ->
              Store.day_well_formed (RefId.prefixOf d) (bookings db')))
  /\ (forall env2 data2 b1 db1 b2 db2,
        Lifecycle.today env2 = Lifecycle.today env ->
        Lifecycle.createBooking env data db = (Mongo.Ok b1, db1) ->
        Lifecycle.createBooking env2 data2 db = (Mongo.Ok b2, db2) ->
        ref_id b2 = ref_id b1
        /\ Creation.createBooking_overlapped env env2 data data2 db
           = (Mongo.Ok b1, Mongo.Err Mongo.DuplicateKey, db1)
        /\ Creation.createBooking_overlapped env2 env data2 data db
           = (Mongo.Ok b2, Mongo.Err Mongo.DuplicateKey, db2)
        /\ bookings db1 = (bookings db ++ [b1])%list
        /\ (forall e d, Lifecycle.createBooking env2 data2 db1 = (Mongo.Err e, d) ->
              e = Mongo.DuplicateKey ->
              Lifecycle.new_id env2 = Lifecycle.new_id env
              \/ In (RefId.prefixOf (Lifecycle.today env) ++ "999999")
                    (map ref_id (bookings db1)))).
Proof.
  intros Hv Hwf Hfull Hid.
  destruct (generateRefId_fresh _ _ Hwf Hfull) as (sfx & Eg & L & D & Hfresh & Hlt & _).
  destruct (prefixOf_valid _ Hv) as [Hup Hlen].
  assert (Er : JS.toUpperCase (RefId.generateRefId (Lifecycle.today env) (bookings db))
               = RefId.generateRefId (Lifecycle.today env) (bookings db)).
  { rewrite Eg, toUpperCase_append, Hup, (toUpperCase_digits sfx D). reflexivity. }
  assert (Hkept : forall b db', Lifecycle.createBooking env data db = (Mongo.Ok b, db') ->
            forall d, RefId.valid_date d ->
              Store.day_well_formed (RefId.prefixOf d) (bookings db) ->
              Store.day_well_formed (RefId.prefixOf d) (bookings db')).
  { intros b db' H. apply createBooking_ok in H.
    destruct H as (-> & _ & Hr & _). rewrite Er in Hr.
    intros d Hd Hwd x Hx Hp. cbn [bookings] in Hx.
    apply in_app_iff in Hx as [Hx|[<-|[]]]; [exact (Hwd x Hx Hp)|].
    rewrite Hr, Eg in Hp |- *.
    destruct (prefixOf_valid _ Hd) as [_ Hlen'].
    assert (Ep : RefId.prefixOf d = RefId.prefixOf (Lifecycle.today env))
      by (apply (prefix_same_length _ _ sfx); [congruence | exact Hp]).
    rewrite Ep. exists sfx. auto. }
  split; [|split].
  - intros e db' H. destruct (createBooking_errors _ _ _ _ _ H)
      as [->| [->| [->| (-> & x & Hx & [Hq|Hq])]]]; try discriminate.
    + elim (Hid x Hx Hq).
    + elim Hfresh. rewrite <- Er, <- Hq. now apply in_map.
  - intros b db' H. split; [|split; [|exact (Hkept b db' H)]].
    + apply createBooking_ok in H. destruct H as (_ & _ & Hr & _). now rewrite Er in Hr.
    + apply createBooking_ok in H. destruct H as (_ & _ & Hr & _). rewrite Er in Hr.
      intros x Hx Hp. rewrite Hr. exact (proj1 (Hlt x Hx Hp)).
  - intros env2 data2 b1 db1 b2 db2 Hday H1 H2.
    destruct (createBooking_stages _ _ _ _ _ H1) as [R1 I1].
    destruct (createBooking_stages _ _ _ _ _ H2) as [R2 I2].
    pose proof (createBooking_ok _ _ _ _ _ H1) as (Ed1 & Hi1 & Hr1 & _).
    pose proof (createBooking_ok _ _ _ _ _ H2) as (Ed2 & _ & Hr2 & _).
    assert (Hsame : ref_id b2 = ref_id b1) by (rewrite Hr1, Hr2, Hday; reflexivity).
    assert (Hdup : forall x y l d, ref_id x = ref_id y ->
              Mongo.Booking_insert x (mkDB d (l ++ [y])%list)
              = (Mongo.Err Mongo.DuplicateKey, mkDB d (l ++ [y])%list)).
    { intros x y l d E. unfold Mongo.Booking_insert. cbn [bookings].
      rewrite existsb_app. cbn [existsb]. rewrite E, String.eqb_refl, !orb_true_r.
      reflexivity. }
    split; [exact Hsame|]. split; [|split; [|split]].
    + unfold Creation.createBooking_overlapped. rewrite R1, R2.
      cbn [Creation.insert_prepared]. rewrite I1, Ed1. now rewrite Hdup.
    + unfold Creation.createBooking_overlapped. rewrite R2, R1.
      cbn [Creation.insert_prepared]. rewrite I2, Ed2. rewrite Hdup; [reflexivity|].
      now symmetry.
    + rewrite Ed1. reflexivity.
    + intros e d He ->.
      pose proof (createBooking_ok _ _ _ _ _ H2) as (_ & Hi2 & _ & _ & _ & _ & _ & _ & _ & _ & _ & Hnew2).
      destruct (createBooking_errors _ _ _ _ _ He)
        as [Hx| [Hx| [Hx| (_ & x & Hx & [Hq|Hq])]]]; try discriminate.
      * rewrite Ed1 in Hx. cbn [bookings] in Hx.
        apply in_app_iff in Hx as [Hx|[<-|[]]]; [|left; congruence].
        elim (proj1 (Hnew2 x Hx)). congruence.
      * destruct (in_dec string_dec (RefId.prefixOf (Lifecycle.today env) ++ "999999")
                    (map ref_id (bookings db1))) as [Hin|Hout]; [now right|].
        exfalso.
        pose proof (Hkept b1 db1 H1 _ Hv Hwf) as Hwf1.
        destruct (generateRefId_fresh _ _ Hwf1 Hout) as (sfx1 & Eg1 & _ & D1 & Hfresh1 & _).
        apply Hfresh1. rewrite Hday in Hq.
        rewrite Eg1, toUpperCase_append, Hup, (toUpperCase_digits sfx1 D1), <- Eg1 in Hq.
        rewrite <- Hq. now apply in_map.
Qed.

(** X11. The end of the six-digit sequence. Once a day holds the id with
    sequence 999999, the hook builds the seven-digit id 1000000 (the stored
    string order puts 1000000 before 999999, so 999999 stays the last id);
    the first creation after that stores it, and from then on every creation
    of that day fails and writes nothing. *)
Theorem day_sequence_exhausted (env : Lifecycle.SaveEnv) (data : Lifecycle.BookingData)
    (db : DB) :
  let p := RefId.prefixOf (Lifecycle.today env) in
  RefId.valid_date (Lifecycle.today env) ->
  (forall b, In b (bookings db) -> JS.startsWith p (ref_id b) = true ->
     exists ds, ref_id b = p ++ ds /\ RefId.all_digits ds = true
                /\ (String.length ds = 6%nat \/ ds = "1000000")) ->
  In (p ++ "999999") (map ref_id (bookings db)) ->
  RefId.generateRefId (Lifecycle.today env) (bookings db) = p ++ "1000000"
  /\ (forall b db', Lifecycle.createBooking env data db = (Mongo.Ok b, db') ->
        ref_id b = p ++ "1000000" /\ ~ In (p ++ "1000000") (map ref_id (bookings db)))
  /\ (In (p ++ "1000000") (map ref_id (bookings db)) ->
      exists e, Lifecycle.createBooking env data db = (Mongo.Err e, db)
                /\ (e = Mongo.BSONError \/ e = Mongo.InvalidFlightIds
                    \/ e = Mongo.ValidationFailed \/ e = Mongo.DuplicateKey)).
Proof.
  intros p Hv Hday Hin.
  assert (Hlast : RefId.findLastRefId p (bookings db) = Some (p ++ "999999")).
  { apply findLastRefId_greatest; [exact Hin | apply prefix_append |].
    intros b Hb Hp. destruct (Hday b Hb Hp) as (ds & -> & D & [L| ->]);
      unfold JS.str_le; rewrite compare_after_prefix.
    - rewrite compare_digits by (auto; reflexivity).
      pose proof (decimal_value_range ds D) as R. rewrite L in R.
      change (10 ^ Z.of_nat 6) with 1000000 in R.
      change (RefId.decimal_value "999999") with 999999.
      intros G. apply Z.compare_gt_iff in G. lia.
    - discriminate. }
  assert (Eg : RefId.generateRefId (Lifecycle.today env) (bookings db) = p ++ "1000000").
  { unfold p in *. rewrite (generateRefId_after _ _ "999999" Hlast);
      reflexivity. }
  destruct (prefixOf_valid _ Hv) as [Hup _]. fold p in Hup.
  assert (Er : JS.toUpperCase (RefId.generateRefId (Lifecycle.today env) (bookings db))
               = p ++ "1000000").
  { rewrite Eg, toUpperCase_append, Hup. reflexivity. }
  assert (Hok : forall b db', Lifecycle.createBooking env data db = (Mongo.Ok b, db') ->
            ref_id b = p ++ "1000000" /\ ~ In (p ++ "1000000") (map ref_id (bookings db))).
  { intros b db' H. apply createBooking_ok in H.
    destruct H as (_ & _ & Hr & _ & _ & _ & _ & _ & _ & _ & _ & Hnew).
    rewrite Er in Hr. split; [exact Hr|].
    intros Hx. apply in_map_iff in Hx as (x & Ex & Hx).
    destruct (Hnew x Hx) as [_ Hne]. congruence. }
  split; [exact Eg|]. split; [exact Hok|].
  intros Hfull.
  destruct (Lifecycle.createBooking env data db) as [[b|e] db'] eqn:C.
  - destruct (Hok b db' eq_refl) as [_ Hno]. elim (Hno Hfull).
  - pose proof (createBooking_err _ _ _ _ _ C) as ->.
    exists e. split; [reflexivity|].
    destruct (createBooking_errors _ _ _ _ _ C) as [?|[?|[?|[? _]]]]; auto.
Qed.

(** ** The route finder: windows, completeness, ranking, durations *)

Section WindowFacts.
Import JS Mongo Routes.

Lemma direct_members (catalog : list Flight) (o d : string) (s e : Z) (r : DirectRoute) :
  In r (getDirectFlights catalog o d s e) <->
  exists f, In f catalog /\ flight_origin f = o /\ flight_destination f = d
            /\ s <= departureDateTime f <= e
            /\ r = mkDirect f (calculateDuration (departureDateTime f) (arrivalDateTime f)).
Proof.
  unfold getDirectFlights. cbv zeta. rewrite in_map_iff. split.
  - intros (f & <- & Hf). apply sort_by_In, filter_In in Hf as [Hf Hc].
    rewrite !andb_true_iff, !String.eqb_eq, within_spec in Hc.
    exists f. rewrite formatFlight_id. tauto.
  - intros (f & Hf & Ho & Hd & Hw & ->). exists f. rewrite formatFlight_id.
    split; [reflexivity|]. apply sort_by_In, filter_In. split; [exact Hf|].
    rewrite !andb_true_iff, !String.eqb_eq, within_spec. tauto.
Qed.

Lemma direct_departures (catalog : list Flight) (o d : string) (s e : Z) :
  map (fun r => departureDateTime (direct_flight r)) (getDirectFlights catalog o d s e)
  = map departureDateTime
      (sort_by departureDateTime
         (filter (fun f => String.eqb (flight_origin f) o
                           && String.eqb (flight_destination f) d
                           && within s e (departureDateTime f)) catalog)).
Proof.
  unfold getDirectFlights. cbv zeta. rewrite map_map. apply map_ext.
  intros f. reflexivity.
Qed.

Lemma direct_flights_found (catalog : list Flight) (o d : string) (s e : Z) :
  map direct_flight (getDirectFlights catalog o d s e)
  = sort_by departureDateTime
      (filter (fun f => String.eqb (flight_origin f) o
                        && String.eqb (flight_destination f) d
                        && within s e (departureDateTime f)) catalog).
Proof.
  unfold getDirectFlights. cbv zeta. rewrite map_map.
  rewrite (map_ext _ (fun f => f)) by (intros f; apply formatFlight_id).
  apply map_id.
Qed.

Lemma calculateDuration_bounds (s e : Z) :
  60000 * calculateDuration s e - 30000 <= e - s < 60000 * calculateDuration s e + 30000.
Proof.
  unfold calculateDuration.
  pose proof (Z.div_mod (e - s + 30000) 60000 ltac:(lia)).
  pose proof (Z.mod_pos_bound (e - s + 30000) 60000 ltac:(lia)). lia.
Qed.

Lemma calculateDuration_mono (s e s' e' : Z) :
  e - s <= e' - s' -> calculateDuration s e <= calculateDuration s' e'.
Proof. intros H. unfold calculateDuration. apply Z.div_le_mono; lia. Qed.

End WindowFacts.

(** X12. The search window. [getRoutes] looks for departures between the
    two instants [setHours] makes of the date asked for: the ones the time
    zone of the server takes for 00:00:00.000 and for 23:59:59.999 of the
    local calendar day of the date. Every direct route and every first leg
    found departs between them, and a catalogue flight from the origin to
    the destination is found exactly when it does. Where the zone has the
    two readings the instants show them; where they bound their day, the
    window is that local day, whole, and holds the date. Under one offset
    the window is a millisecond short of 24 hours, and for a date-only
    string, midnight UTC of day [Dn], the day searched is [Dn] at or east of
    Greenwich and [Dn - 1] west of it. On the day of a clock change the
    window is longer or shorter by the change. *)
Theorem search_window (z : Routes.Zone) (catalog : list Flight)
    (origin destination : string) (date : Z) :
  let s := Routes.setHours_start z date in
  let e := Routes.setHours_end z date in
  let D := Routes.local_day z date in
  let found := Routes.getRoutes z catalog origin destination date in
  (forall r, In r (Routes.direct found) ->
     s <= departureDateTime (Routes.direct_flight r) <= e)
  /\ (forall r, In r (Routes.transit found) ->
        s <= departureDateTime (Routes.firstLeg r) <= e)
  /\ (forall f, In f catalog ->
        flight_origin f = JS.trim (JS.toUpperCase origin) ->
        flight_destination f = JS.trim (JS.toUpperCase destination) ->
        (s <= departureDateTime f <= e
         <-> In f (map Routes.direct_flight (Routes.direct found))))
  /\ s = Routes.UTC z (Routes.MakeDate D 0)
  /\ e = Routes.UTC z (Routes.MakeDate D 86399999)
  /\ (Routes.reads_back z (Routes.MakeDate D 0) ->
      Routes.local_day z s = D /\ Routes.time_of_day z s = 0)
  /\ (Routes.reads_back z (Routes.MakeDate D 86399999) ->
      Routes.local_day z e = D /\ Routes.time_of_day z e = 86399999)
  /\ (Routes.day_starts z D -> Routes.day_ends z D ->
      s <= date <= e /\ forall t, s <= t <= e <-> Routes.local_day z t = D)
  /\ (forall tz, z = Routes.fixed tz ->
        e - s = 86399999 /\ Routes.day_starts z D /\ Routes.day_ends z D
        /\ (forall Dn, date = Dn * Routes.msPerDay ->
              (0 <= tz < Routes.msPerDay -> D = Dn)
              /\ (- Routes.msPerDay <= tz < 0 -> D = Dn - 1)))
  /\ (forall change before after, z = Routes.one_change change before after ->
        Routes.MakeDate D 0 <= change + Z.min before after ->
        change + Z.max before after <= Routes.MakeDate D 86399999 ->
        e - s = 86399999 + (before - after)
        /\ Routes.day_starts z D /\ Routes.day_ends z D).
Proof.
  cbv zeta.
  split; [|split; [|split; [|split; [|split; [|split; [|split; [|split; [|split]]]]]]]].
  - intros r Hr. unfold Routes.getRoutes in Hr. cbn [Routes.direct] in Hr.
    apply direct_members in Hr as (f & _ & _ & _ & Hw & ->). exact Hw.
  - intros r Hr. unfold Routes.getRoutes in Hr. cbn [Routes.transit] in Hr.
    apply transit_members in Hr as (f1 & f2 & _ & _ & _ & _ & Hw & _ & _ & _ & ->).
    exact Hw.
  - intros f Hf Ho Hd. unfold Routes.getRoutes. cbn [Routes.direct].
    rewrite direct_flights_found, sort_by_In, filter_In.
    rewrite !andb_true_iff, !String.eqb_eq, within_spec. tauto.
  - reflexivity.
  - reflexivity.
  - intros H. unfold Routes.setHours_start, Routes.local_day at 1, Routes.time_of_day.
    unfold Routes.reads_back in H. rewrite H.
    apply makeDate_parts. unfold Routes.msPerDay. lia.
  - intros H. unfold Routes.setHours_end, Routes.local_day at 1, Routes.time_of_day.
    unfold Routes.reads_back in H. change (Routes.msPerDay - 1) with 86399999.
    rewrite H. apply makeDate_parts. unfold Routes.msPerDay. lia.
  - intros Hs He. split; [apply day_window; auto | intros t; now apply day_window].
  - intros tz ->. split; [|split; [apply fixed_day_starts|split; [apply fixed_day_ends|]]].
    + unfold Routes.setHours_start, Routes.setHours_end, Routes.UTC, Routes.MakeDate,
        Routes.fixed, Routes.msPerDay. cbn [Routes.offset_of_local]. lia.
    + intros Dn ->. unfold Routes.local_day, Routes.LocalTime, Routes.fixed.
      cbn [Routes.offset_at].
      split; intros H; apply day_bracket; unfold Routes.msPerDay in *; lia.
  - intros c b a -> Hs He.
    split; [|split; [apply one_change_day_starts; now left
                    |apply one_change_day_ends; now right]].
    set (D := Routes.local_day (Routes.one_change c b a) date) in *.
    unfold Routes.setHours_start, Routes.setHours_end. fold D.
    unfold Routes.UTC, Routes.one_change. cbn [Routes.offset_of_local].
    change (Routes.msPerDay - 1) with 86399999.
    unfold Routes.MakeDate in *.
    destruct (Z.ltb_spec (D * Routes.msPerDay + 0) (c + Z.max b a)),
             (Z.ltb_spec (D * Routes.msPerDay + 86399999) (c + Z.max b a)); lia.
Qed.

(** X13. The direct routes of a search are the catalogue flights from the
    normalised origin to the normalised destination that depart within the
    search window, no more and no fewer, each with its duration in minutes,
    in order of departure. Where the window's instants bound the local day
    of the date, these are the flights that depart on that local day. *)
Theorem direct_routes (z : Routes.Zone) (catalog : list Flight)
    (origin destination : string) (date : Z) :
  let found := Routes.direct (Routes.getRoutes z catalog origin destination date) in
  let s := Routes.setHours_start z date in
  let e := Routes.setHours_end z date in
  let D := Routes.local_day z date in
  (forall r, In r found <->
     exists f, In f catalog
       /\ flight_origin f = JS.trim (JS.toUpperCase origin)
       /\ flight_destination f = JS.trim (JS.toUpperCase destination)
       /\ s <= departureDateTime f <= e
       /\ r = Routes.mkDirect f (Routes.calculateDuration (departureDateTime f)
                                                          (arrivalDateTime f)))
  /\ (Routes.day_starts z D -> Routes.day_ends z D ->
      forall r, In r found <->
        exists f, In f catalog
          /\ flight_origin f = JS.trim (JS.toUpperCase origin)
          /\ flight_destination f = JS.trim (JS.toUpperCase destination)
          /\ Routes.local_day z (departureDateTime f) = D
          /\ r = Routes.mkDirect f (Routes.calculateDuration (departureDateTime f)
                                                             (arrivalDateTime f)))
  /\ Sorted Z.le (map (fun r => departureDateTime (Routes.direct_flight r)) found)
  /\ Permutation
       (map Routes.direct_flight found)
       (filter (fun f => String.eqb (flight_origin f) (JS.trim (JS.toUpperCase origin))
                         && String.eqb (flight_destination f)
                                       (JS.trim (JS.toUpperCase destination))
                         && Routes.within s e (departureDateTime f))
               catalog)
  /\ (Routes.day_starts z D -> Routes.day_ends z D ->
      Permutation
        (map Routes.direct_flight found)
        (filter (fun f => String.eqb (flight_origin f) (JS.trim (JS.toUpperCase origin))
                          && String.eqb (flight_destination f)
                                        (JS.trim (JS.toUpperCase destination))
                          && (Routes.local_day z (departureDateTime f) =? D))
                catalog)).
Proof.
  cbv zeta. unfold Routes.getRoutes. cbn [Routes.direct].
  split; [|split; [|split; [|split]]].
  - intros r. apply direct_members.
  - intros Hs He r. rewrite direct_members. split; intros (f & H); exists f;
      rewrite (day_window z date (departureDateTime f) Hs He) in *; exact H.
  - rewrite direct_departures. apply sort_by_sorted.
  - rewrite direct_flights_found. symmetry. apply sort_by_permutation.
  - intros Hs He. rewrite direct_flights_found. symmetry.
    etransitivity; [|apply sort_by_permutation].
    rewrite (filter_ext _ (fun f =>
               String.eqb (flight_origin f) (JS.trim (JS.toUpperCase origin))
               && String.eqb (flight_destination f) (JS.trim (JS.toUpperCase destination))
               && Routes.within (Routes.setHours_start z date) (Routes.setHours_end z date)
                                (departureDateTime f))); [reflexivity|].
    intros f. f_equal. apply eq_true_iff_eq.
    rewrite within_spec, (day_window z date _ Hs He), Z.eqb_eq. reflexivity.
Qed.

(** X14. The transit routes of a search are the pairs of catalogue flights in
    which the first leaves the normalised origin within the search window
    for a city other than the destination, and the second leaves that city
    for the destination no earlier than the first lands and no later than
    the end of the second leg's window - every such pair, and nothing else.
    Where the window's instants bound the local day of the date, and the
    zone has the reading one day after each landing and bounds the day
    after it, these are the pairs whose first leg leaves on the local day
    of the date and whose second leg leaves after the landing, on its local
    day or the next. *)
Theorem transit_routes (z : Routes.Zone) (catalog : list Flight)
    (origin destination : string) (date : Z) (r : Routes.TransitRoute) :
  let found := Routes.transit (Routes.getRoutes z catalog origin destination date) in
  let D := Routes.local_day z date in
  (In r found <->
   exists f1 f2,
     In f1 catalog /\ In f2 catalog
     /\ flight_origin f1 = JS.trim (JS.toUpperCase origin)
     /\ flight_destination f1 <> JS.trim (JS.toUpperCase destination)
     /\ Routes.setHours_start z date <= departureDateTime f1 <= Routes.setHours_end z date
     /\ flight_origin f2 = flight_destination f1
     /\ flight_destination f2 = JS.trim (JS.toUpperCase destination)
     /\ arrivalDateTime f1 <= departureDateTime f2
        <= Routes.setHours_end z (Routes.setDate_next z (arrivalDateTime f1))
     /\ r = Routes.mkTransit f1 f2 (flight_destination f1)
              (Routes.calculateDuration (arrivalDateTime f1) (departureDateTime f2))
              (Routes.calculateDuration (departureDateTime f1) (arrivalDateTime f2)))
  /\ (Routes.day_starts z D -> Routes.day_ends z D ->
      (forall f, In f catalog ->
         Routes.reads_back z (Routes.LocalTime z (arrivalDateTime f) + Routes.msPerDay)
         /\ Routes.day_ends z (Routes.local_day z (arrivalDateTime f) + 1)) ->
      (In r found <->
       exists f1 f2,
         In f1 catalog /\ In f2 catalog
         /\ flight_origin f1 = JS.trim (JS.toUpperCase origin)
         /\ flight_destination f1 <> JS.trim (JS.toUpperCase destination)
         /\ Routes.local_day z (departureDateTime f1) = D
         /\ flight_origin f2 = flight_destination f1
         /\ flight_destination f2 = JS.trim (JS.toUpperCase destination)
         /\ arrivalDateTime f1 <= departureDateTime f2
         /\ Routes.local_day z (departureDateTime f2)
            <= Routes.local_day z (arrivalDateTime f1) + 1
         /\ r = Routes.mkTransit f1 f2 (flight_destination f1)
                  (Routes.calculateDuration (arrivalDateTime f1) (departureDateTime f2))
                  (Routes.calculateDuration (departureDateTime f1) (arrivalDateTime f2)))).
Proof.
  cbv zeta. unfold Routes.getRoutes. cbn [Routes.transit].
  split; [apply transit_members|].
  intros Hs He Hcat. rewrite transit_members.
  split; intros (f1 & f2 & H1 & H2 & Ho & Hd & Hw & Ho2 & Hd2 & Hw2 & Hr);
    exists f1, f2; destruct (Hcat f1 H1) as [Hrb Hde];
    pose proof (day_window z date (departureDateTime f1) Hs He) as W;
    pose proof (next_day_window z (arrivalDateTime f1) (departureDateTime f2) Hrb Hde) as N;
    (repeat split; try tauto).
Qed.

(** X15. The ranking of transit routes: shortest total duration first, and
    routes of equal total duration in the order they were built (first legs
    by departure, the second legs of one first leg by departure); the
    ranking drops and adds no route. *)
Theorem transit_ranking (z : Routes.Zone) (catalog : list Flight) (o d : string) (s e : Z) :
  let firsts :=
    Mongo.sort_by departureDateTime
      (filter (fun f => String.eqb (flight_origin f) o
                        && negb (String.eqb (flight_destination f) d)
                        && Routes.within s e (departureDateTime f)) catalog) in
  let built := flat_map (Routes.routesVia z catalog d) firsts in
  let ranked := Routes.getTransitRoutes z catalog o d s e in
  Sorted Z.le (map Routes.totalDuration ranked)
  /\ Permutation built ranked
  /\ (forall k, filter (fun r => Routes.totalDuration r =? k) ranked
                = filter (fun r => Routes.totalDuration r =? k) built)
  /\ (Sorted Z.le (map Routes.totalDuration built) -> ranked = built)
  /\ (forall f1, Sorted Z.le (map (fun r => departureDateTime (Routes.secondLeg r))
                                  (Routes.routesVia z catalog d f1))).
Proof.
  cbv zeta. split; [apply transit_sorted|].
  unfold Routes.getTransitRoutes. cbv zeta.
  set (firsts := Mongo.sort_by departureDateTime (filter _ catalog)).
  assert (Hvia : forall f1, Sorted Z.le (map (fun r => departureDateTime (Routes.secondLeg r))
                                  (Routes.routesVia z catalog d f1))).
  { intros f1. unfold Routes.routesVia. cbv zeta. rewrite map_map.
    cbn [Routes.secondLeg]. rewrite (map_ext _ departureDateTime) by reflexivity.
    apply sort_by_sorted. }
  destruct (Nat.eqb (List.length firsts) 0) eqn:E.
  - apply Nat.eqb_eq, List.length_zero_iff_nil in E. rewrite E. cbn [flat_map].
    repeat split; auto.
  - split; [apply sort_by_permutation|].
    split; [intros k; apply sort_by_stable|].
    split; [apply sort_by_of_sorted | exact Hvia].
Qed.

(** X16. Durations are the difference in minutes rounded to the nearest
    minute, halves up: exact on whole minutes, within half a minute of the
    difference, and growing with it. Hence in every transit route the
    layover is not negative, and when neither leg lands before it leaves the
    total duration is at least the layover; a direct route's duration is
    not negative when its flight does not land before it leaves. *)
Theorem durations (z : Routes.Zone) (catalog : list Flight) (origin destination : string) (date : Z) :
  (forall s m, Routes.calculateDuration s (s + 60000 * m) = m)
  /\ (forall s e, 60000 * Routes.calculateDuration s e - 30000 <= e - s
                  < 60000 * Routes.calculateDuration s e + 30000)
  /\ (forall s e s' e', e - s <= e' - s' ->
        Routes.calculateDuration s e <= Routes.calculateDuration s' e')
  /\ (forall r, In r (Routes.transit (Routes.getRoutes z catalog origin destination date)) ->
        0 <= Routes.layoverDuration r
        /\ (departureDateTime (Routes.firstLeg r) <= arrivalDateTime (Routes.firstLeg r) ->
            departureDateTime (Routes.secondLeg r) <= arrivalDateTime (Routes.secondLeg r) ->
            Routes.layoverDuration r <= Routes.totalDuration r))
  /\ (forall r, In r (Routes.direct (Routes.getRoutes z catalog origin destination date)) ->
        departureDateTime (Routes.direct_flight r) <= arrivalDateTime (Routes.direct_flight r) ->
        0 <= Routes.direct_totalDuration r).
Proof.
  split; [|split; [|split; [|split]]].
  - intros s m. unfold Routes.calculateDuration.
    replace (s + 60000 * m - s + 30000) with (30000 + m * 60000) by lia.
    rewrite Z.div_add by lia. reflexivity.
  - apply calculateDuration_bounds.
  - apply calculateDuration_mono.
  - intros r Hr. unfold Routes.getRoutes in Hr. cbn [Routes.transit] in Hr.
    apply transit_members in Hr
      as (f1 & f2 & _ & _ & _ & _ & _ & _ & _ & Hw & ->).
    cbn [Routes.firstLeg Routes.secondLeg Routes.layoverDuration Routes.totalDuration].
    split.
    + change 0 with (Routes.calculateDuration 0 0).
      apply calculateDuration_mono. lia.
    + intros H1 H2. apply calculateDuration_mono. lia.
  - intros r Hr. unfold Routes.getRoutes in Hr. cbn [Routes.direct] in Hr.
    apply direct_members in Hr as (f & _ & _ & _ & _ & ->).
    cbn [Routes.direct_flight Routes.direct_totalDuration]. intros H.
    change 0 with (Routes.calculateDuration 0 0).
    apply calculateDuration_mono. lia.
Qed.

(** ** The HTTP handlers and the client's parsers *)

Section HandlerFacts.
Import JS Mongo Lifecycle Http.

Lemma optObjectId_error (f : option string) (e : Error) :
  optObjectId f = Err e -> e = BSONError.
Proof.
  unfold optObjectId, newObjectId. destruct f as [s|]; [|discriminate].
  destruct (String.eqb s ""); [discriminate|].
  destruct (ObjectId_isValid s); [discriminate|]. now intros [= <-].
Qed.

(** The errors each controller can end with, and that an error leaves the
    database as it was. *)
Lemma departBooking_errors (now : Z) (i : string) (f : option string) (db db' : DB)
    (e : Error) :
  departBooking now i f db = (Err e, db') ->
  db' = db /\ (e = BookingNotFound \/ e = BSONError \/ e = UpdateFailed
               \/ exists s, e = CannotDepart s /\ s <> BOOKED).
Proof.
  rewrite departBooking_cases.
  destruct (lookup i (bookings db)) as [b|]; [|intros [= <- <-]; auto].
  destruct (includes [BOOKED] (status b)) eqn:S.
  - destruct (optObjectId f) as [fid|e0] eqn:O.
    + destruct (Booking_findOneAndUpdate _ _ _ _ db) as [[[u|]|e1] db1] eqn:W.
      * discriminate.
      * intros [= <- <-]. split; [|auto]. exact (findOneAndUpdate_none _ _ _ _ _ _ W).
      * elim (findOneAndUpdate_total _ _ _ _ _ _ _ W).
    + intros [= <- <-]. split; [reflexivity|]. right. left. exact (optObjectId_error _ _ O).
  - intros [= <- <-]. split; [reflexivity|]. right. right. right.
    exists (status b). split; [reflexivity|]. intros E. rewrite E in S. discriminate.
Qed.

Lemma arriveBooking_errors (now : Z) (i : string) (f : option string) (db db' : DB)
    (e : Error) :
  arriveBooking now i f db = (Err e, db') ->
  db' = db /\ (e = BookingNotFound \/ e = BSONError \/ e = UpdateFailed
               \/ exists s, e = CannotArrive s /\ s <> BOOKED /\ s <> DEPARTED).
Proof.
  rewrite arriveBooking_cases.
  destruct (lookup i (bookings db)) as [b|]; [|intros [= <- <-]; auto].
  destruct (includes [DEPARTED; BOOKED] (status b)) eqn:S.
  - destruct (optObjectId f) as [fid|e0] eqn:O.
    + destruct (Booking_findOneAndUpdate _ _ _ _ db) as [[[u|]|e1] db1] eqn:W.
      * discriminate.
      * intros [= <- <-]. split; [|auto]. exact (findOneAndUpdate_none _ _ _ _ _ _ W).
      * elim (findOneAndUpdate_total _ _ _ _ _ _ _ W).
    + intros [= <- <-]. split; [reflexivity|]. right. left. exact (optObjectId_error _ _ O).
  - intros [= <- <-]. split; [reflexivity|]. right. right. right.
    exists (status b). split; [reflexivity|].
    split; intros E; rewrite E in S; discriminate.
Qed.

Lemma cancelBooking_errors (now : Z) (i : string) (db db' : DB) (e : Error) :
  cancelBooking now i db = (Err e, db') ->
  db' = db /\ (e = BookingNotFound \/ e = CannotCancelArrived \/ e = CancellationFailed
               \/ exists s, e = CannotCancel s /\ (s = CANCELLED \/ s = DELIVERED)).
Proof.
  rewrite cancelBooking_cases.
  destruct (lookup i (bookings db)) as [b|]; [|intros [= <- <-]; auto].
  destruct (Status_eqb (status b) ARRIVED) eqn:A; [intros [= <- <-]; auto|].
  destruct (includes [BOOKED; DEPARTED] (status b)) eqn:S.
  - destruct (Booking_findOneAndUpdate _ _ _ _ db) as [[[u|]|e1] db1] eqn:W.
    + discriminate.
    + intros [= <- <-]. split; [|auto]. exact (findOneAndUpdate_none _ _ _ _ _ _ W).
    + elim (findOneAndUpdate_total _ _ _ _ _ _ _ W).
  - intros [= <- <-]. split; [reflexivity|]. right. right. right.
    exists (status b). split; [reflexivity|].
    destruct (status b); try discriminate; auto.
Qed.

End HandlerFacts.

(** X17. The status codes of the transition handlers, read with the errors
    their controllers can end with. Depart and arrive answer 200 on success,
    404 when the booking is not found, 400 on a status that does not allow
    the transition and 500 otherwise, which includes the conditional write
    lost to a concurrent request; cancel answers 400 in that case too (its
    message holds 'already ARRIVED') and never 500; history answers 200 or
    404. A handler that answers an error leaves the database as it was. The
    text of a library error is assumed not to read like a controller's. *)
Theorem transition_status_codes (lib : string) (now : Z) (i : string) (f : option string)
    (db : DB) :
  lib <> "Booking not found" ->
  Http.includes_text "Cannot depart" lib = false ->
  Http.includes_text "Cannot arrive" lib = false ->
  (Http.response_code (fst (Http.postDepart lib now i f db))
   = match fst (Lifecycle.departBooking now i f db) with
     | Mongo.Ok _ => 200
     | Mongo.Err e => match Lifecycle.kind e with
                      | Lifecycle.NotFound => 404
                      | Lifecycle.InvalidTransition => 400
                      | _ => 500
                      end
     end)
  /\ (Http.response_code (fst (Http.postArrive lib now i f db))
      = match fst (Lifecycle.arriveBooking now i f db) with
        | Mongo.Ok _ => 200
        | Mongo.Err e => match Lifecycle.kind e with
                         | Lifecycle.NotFound => 404
                         | Lifecycle.InvalidTransition => 400
                         | _ => 500
                         end
        end)
  /\ (Http.response_code (fst (Http.postCancel lib now i db))
      = match fst (Lifecycle.cancelBooking now i db) with
        | Mongo.Ok _ => 200
        | Mongo.Err e => match Lifecycle.kind e with
                         | Lifecycle.NotFound => 404
                         | _ => 400
                         end
        end)
  /\ (Http.response_code (fst (Http.getHistory lib i db))
      = match fst (Lifecycle.getBookingHistory i db) with
        | Mongo.Ok _ => 200
        | Mongo.Err _ => 404
        end)
  /\ snd (Http.postDepart lib now i f db) = snd (Lifecycle.departBooking now i f db)
  /\ snd (Http.postArrive lib now i f db) = snd (Lifecycle.arriveBooking now i f db)
  /\ snd (Http.postCancel lib now i db) = snd (Lifecycle.cancelBooking now i db)
  /\ snd (Http.getHistory lib i db) = db
  /\ (Http.response_code (fst (Http.postDepart lib now i f db)) <> 200 ->
      snd (Http.postDepart lib now i f db) = db)
  /\ (Http.response_code (fst (Http.postArrive lib now i f db)) <> 200 ->
      snd (Http.postArrive lib now i f db) = db)
  /\ (Http.response_code (fst (Http.postCancel lib now i db)) <> 200 ->
      snd (Http.postCancel lib now i db) = db).
Proof.
  intros Hnf Hd Ha. apply String.eqb_neq in Hnf.
  assert (Dep : forall s, Http.includes_text "Cannot depart"
                  ("Cannot depart booking with status: " ++ Http.statusName s) = true)
    by (intros []; reflexivity).
  assert (Arr : forall s, Http.includes_text "Cannot arrive"
                  ("Cannot arrive booking with status: " ++ Http.statusName s) = true)
    by (intros []; reflexivity).
  assert (Can : forall s, Http.includes_text "Cannot cancel"
                  ("Cannot cancel booking with status: " ++ Http.statusName s) = true)
    by (intros []; reflexivity).
  assert (Nf : forall p s, String.eqb (String "C" p ++ Http.statusName s) "Booking not found"
                           = false) by reflexivity.
  repeat split.
  - unfold Http.postDepart.
    destruct (Lifecycle.departBooking now i f db) as [[b|e] db'] eqn:C; [reflexivity|].
    destruct (departBooking_errors _ _ _ _ _ _ C) as [_ [->|[->|[->|(s & -> & _)]]]];
      cbn [Http.message Lifecycle.kind fst]; cbv zeta.
    + reflexivity.
    + rewrite Hnf, Hd. reflexivity.
    + reflexivity.
    + rewrite Nf, Dep. reflexivity.
  - unfold Http.postArrive.
    destruct (Lifecycle.arriveBooking now i f db) as [[b|e] db'] eqn:C; [reflexivity|].
    destruct (arriveBooking_errors _ _ _ _ _ _ C) as [_ [->|[->|[->|(s & -> & _)]]]];
      cbn [Http.message Lifecycle.kind fst]; cbv zeta.
    + reflexivity.
    + rewrite Hnf, Ha. reflexivity.
    + reflexivity.
    + rewrite Nf, Arr. reflexivity.
  - unfold Http.postCancel.
    destruct (Lifecycle.cancelBooking now i db) as [[b|e] db'] eqn:C; [reflexivity|].
    destruct (cancelBooking_errors _ _ _ _ _ C) as [_ [->|[->|[->|(s & -> & _)]]]];
      cbn [Http.message Lifecycle.kind fst]; cbv zeta.
    + reflexivity.
    + reflexivity.
    + reflexivity.
    + rewrite Nf, Can. reflexivity.
  - unfold Http.getHistory, Lifecycle.getBookingHistory, Mongo.bind.
    rewrite findBookingByIdentifier_lookup.
    destruct (Lifecycle.lookup i (bookings db)); reflexivity.
  - unfold Http.postDepart.
    destruct (Lifecycle.departBooking now i f db) as [[b|e] db']; [reflexivity|].
    cbv zeta. destruct (String.eqb (Http.message lib e) _); [reflexivity|].
    destruct (Http.includes_text _ (Http.message lib e)); reflexivity.
  - unfold Http.postArrive.
    destruct (Lifecycle.arriveBooking now i f db) as [[b|e] db']; [reflexivity|].
    cbv zeta. destruct (String.eqb (Http.message lib e) _); [reflexivity|].
    destruct (Http.includes_text _ (Http.message lib e)); reflexivity.
  - unfold Http.postCancel.
    destruct (Lifecycle.cancelBooking now i db) as [[b|e] db']; [reflexivity|].
    cbv zeta. destruct (String.eqb (Http.message lib e) _); [reflexivity|].
    destruct (Http.includes_text _ (Http.message lib e) || _); reflexivity.
  - unfold Http.getHistory, Lifecycle.getBookingHistory, Mongo.bind.
    rewrite findBookingByIdentifier_lookup.
    destruct (Lifecycle.lookup i (bookings db)); reflexivity.
  - unfold Http.postDepart.
    destruct (Lifecycle.departBooking now i f db) as [[b|e] db'] eqn:C;
      [intros H; now elim H|].
    destruct (departBooking_errors _ _ _ _ _ _ C) as [-> _]. intros _.
    cbv zeta. destruct (String.eqb (Http.message lib e) _); [reflexivity|].
    destruct (Http.includes_text _ (Http.message lib e)); reflexivity.
  - unfold Http.postArrive.
    destruct (Lifecycle.arriveBooking now i f db) as [[b|e] db'] eqn:C;
      [intros H; now elim H|].
    destruct (arriveBooking_errors _ _ _ _ _ _ C) as [-> _]. intros _.
    cbv zeta. destruct (String.eqb (Http.message lib e) _); [reflexivity|].
    destruct (Http.includes_text _ (Http.message lib e)); reflexivity.
  - unfold Http.postCancel.
    destruct (Lifecycle.cancelBooking now i db) as [[b|e] db'] eqn:C;
      [intros H; now elim H|].
    destruct (cancelBooking_errors _ _ _ _ _ C) as [-> _]. intros _.
    cbv zeta. destruct (String.eqb (Http.message lib e) _); [reflexivity|].
    destruct (Http.includes_text _ (Http.message lib e) || _); reflexivity.
Qed.

Section FormFacts.
Import JS Mongo Frontend.

Lemma split_pieces_lack (c : ascii) (s p : string) : In p (split c s) -> lacks c p = true.
Proof.
  revert p. induction s as [|x s IH]; cbn [split]; intros p.
  - intros [<-|[]]. reflexivity.
  - destruct (Ascii.eqb x c) eqn:E.
    + intros [<-|H]; [reflexivity | now apply IH].
    + destruct (split c s) as [|h t] eqn:S; cbn [In].
      * intros [<-|[]]. cbn [lacks]. now rewrite E.
      * intros [<-|H].
        -- cbn [lacks]. rewrite E. cbn [negb andb]. apply IH. now left.
        -- apply IH. now right.
Qed.

Lemma lacks_trimStart (c : ascii) (s : string) :
  lacks c s = true -> lacks c (trimStart s) = true.
Proof.
  induction s as [|x s IH]; cbn [trimStart]; [auto|].
  intros H. destruct (is_ws x); [|exact H].
  cbn [lacks] in H. apply andb_true_iff in H as [_ H]. auto.
Qed.

Lemma lacks_trimEnd (c : ascii) (s : string) :
  lacks c s = true -> lacks c (trimEnd s) = true.
Proof.
  induction s as [|x s IH]; cbn [trimEnd]; [auto|].
  intros H. cbn [lacks] in H. apply andb_true_iff in H as [Hx H].
  specialize (IH H). destruct (trimEnd s) as [|y r].
  - destruct (is_ws x); [reflexivity|]. cbn [lacks]. now rewrite Hx.
  - cbn [lacks] in *. now rewrite Hx.
Qed.

Lemma split_after_prefix (c : ascii) (p s : string) :
  lacks c p = true ->
  split c (p ++ s) = (p ++ hd "" (split c s)) :: tl (split c s).
Proof.
  induction p as [|x p IH]; cbn [append lacks]; intros H.
  - destruct s as [|y s]; cbn [split]; [reflexivity|].
    destruct (Ascii.eqb y c); [reflexivity|]. destruct (split c s); reflexivity.
  - apply andb_true_iff in H as [Hx H]. apply negb_true_iff in Hx.
    cbn [split]. rewrite Hx, (IH H). reflexivity.
Qed.

Lemma concat_more (sep x y : string) (l : list string) :
  String.concat sep (x :: y :: l) = x ++ sep ++ String.concat sep (y :: l).
Proof. reflexivity. Qed.

Lemma split_joined (c : ascii) (pad : string) (l : list string) (x : string) :
  lacks c x = true -> Forall (fun p => lacks c p = true) l -> lacks c pad = true ->
  split c (String.concat (String c pad) (x :: l)) = x :: map (fun p => pad ++ p) l.
Proof.
  intros Hx Hl Hp. revert x Hx.
  induction Hl as [|y l Hy Hl IH]; intros x Hx.
  - cbn [String.concat map]. now apply split_lacks.
  - rewrite concat_more.
    change (x ++ String c pad ++ String.concat (String c pad) (y :: l))
      with (x ++ String c (pad ++ String.concat (String c pad) (y :: l))).
    rewrite split_append by exact Hx.
    rewrite split_after_prefix by exact Hp.
    rewrite (IH y Hy). reflexivity.
Qed.

Lemma trim_after_spaces (pad s : string) :
  trim pad = "" -> trim s = s -> trim (pad ++ s) = s.
Proof.
  unfold trim. intros Hp Hs.
  assert (Hstart : forall p, trimEnd (trimStart p) = "" -> trimStart (p ++ s) = trimStart s).
  { induction p as [|x p IH]; cbn [append trimStart]; [reflexivity|].
    destruct (is_ws x) eqn:W; [exact IH|].
    intros H. cbn [trimEnd] in H. destruct (trimEnd p); [rewrite W in H|]; discriminate. }
  rewrite (Hstart pad Hp). exact Hs.
Qed.

Lemma upper_lower_char (c : ascii) : upper_char (lower_char c) = upper_char c.
Proof.
  unfold lower_char. destruct ((65 <=? code c) && (code c <=? 90)) eqn:E; [|reflexivity].
  apply andb_true_iff in E as [H1 H2]. apply Z.leb_le in H1, H2.
  assert (Hc : upper_char c = c).
  { unfold upper_char, is_lower. replace (97 <=? code c) with false by lia. reflexivity. }
  rewrite Hc. unfold upper_char, is_lower. rewrite code_of_N by lia.
  replace (97 <=? code c + 32) with true by lia.
  replace (code c + 32 <=? 122) with true by lia. cbn [andb].
  replace (code c + 32 - 32) with (code c) by lia.
  apply code_inj. rewrite code_of_N by (pose proof (code_range c); lia). reflexivity.
Qed.

End FormFacts.

(** X18. The flight ids of the booking form. Every id the parser returns is
    not empty, carries no white space at either end and holds no comma; and
    a list of such ids, written with commas or with commas and blanks
    between them, is read back as it is. *)
Theorem flight_ids_of_form :
  (forall text id, In id (Frontend.parseFlightIds text) -> Frontend.plain_id id)
  /\ (forall l pad, Forall Frontend.plain_id l ->
        JS.trim pad = "" -> JS.lacks "," pad = true ->
        Frontend.parseFlightIds (String.concat (String "," pad) l) = l).
Proof.
  split.
  - intros text id. unfold Frontend.parseFlightIds.
    destruct (String.eqb text ""); [intros []|].
    intros H. apply filter_In in H as [H Hne].
    apply in_map_iff in H as (p & <- & Hp).
    apply negb_true_iff, String.eqb_neq in Hne.
    split; [exact Hne|]. split; [apply trim_idem|].
    unfold JS.trim. apply lacks_trimEnd, lacks_trimStart.
    exact (split_pieces_lack _ _ _ Hp).
  - intros l pad Hl Hpad Hlp. unfold Frontend.parseFlightIds.
    destruct l as [|x l]; [reflexivity|].
    assert (Hlacks : Forall (fun p => JS.lacks "," p = true) (x :: l)).
    { eapply Forall_impl; [|exact Hl]. intros a (_ & _ & H). exact H. }
    assert (E : JS.split "," (String.concat (String "," pad) (x :: l))
                = x :: map (fun p => pad ++ p) l).
    { inversion Hlacks; subst. now apply split_joined. }
    assert (Hx : x <> "") by (inversion Hl as [|? ? (H & _) _]; exact H).
    replace (String.eqb (String.concat (String "," pad) (x :: l)) "") with false.
    2:{ symmetry. apply String.eqb_neq. destruct l; cbn [String.concat].
        - exact Hx.
        - destruct x; [now elim Hx | discriminate]. }
    rewrite E. cbn [map]. rewrite map_map.
    assert (Hm : map (fun p => JS.trim (pad ++ p)) l = l).
    { inversion Hl as [|? ? _ Hl']; subst. clear - Hl' Hpad.
      induction Hl' as [|y r (_ & Hy & _) _ IH]; cbn [map]; [reflexivity|].
      rewrite IH, trim_after_spaces by assumption. reflexivity. }
    rewrite Hm.
    replace (JS.trim x) with x
      by (inversion Hl as [|? ? (_ & H & _) _]; symmetry; exact H).
    clear - Hl. induction Hl as [|y r (Hy & _) _ IH]; cbn [filter]; [reflexivity|].
    replace (String.eqb y "") with false by (symmetry; now apply String.eqb_neq).
    cbn [negb]. now rewrite IH.
Qed.

(** X19. The label the tracking page shows for a status keeps its first
    character and lower-cases the rest, so upper-casing the label gives the
    upper-cased status back and the length is kept; all five statuses get
    labels that differ. *)
Theorem status_label_round_trip :
  (forall status, JS.toUpperCase (Frontend.getStatusLabel status) = JS.toUpperCase status)
  /\ (forall status, String.length (Frontend.getStatusLabel status) = String.length status)
  /\ (forall s, JS.toUpperCase (Frontend.getStatusLabel (Http.statusName s))
                = Http.statusName s)
  /\ (forall s t, Frontend.getStatusLabel (Http.statusName s)
                  = Frontend.getStatusLabel (Http.statusName t) -> s = t).
Proof.
  assert (Hu : forall r, JS.toUpperCase (Mongo.toLowerCase r) = JS.toUpperCase r).
  { induction r as [|c r IH]; cbn [Mongo.toLowerCase JS.toUpperCase]; [reflexivity|].
    now rewrite IH, upper_lower_char. }
  assert (Hl : forall r, String.length (Mongo.toLowerCase r) = String.length r).
  { induction r as [|c r IH]; cbn [Mongo.toLowerCase String.length]; congruence. }
  split; [|split; [|split]].
  - intros [|c r]; [reflexivity|]. unfold Frontend.getStatusLabel.
    cbn [Frontend.charAt0 Frontend.slice1 append JS.toUpperCase]. now rewrite Hu.
  - intros [|c r]; [reflexivity|]. unfold Frontend.getStatusLabel.
    cbn [Frontend.charAt0 Frontend.slice1 append String.length]. now rewrite Hl.
  - intros []; reflexivity.
  - intros [] []; intros H; try reflexivity; vm_compute in H; discriminate.
Qed.

(** ** Requests in flight together, and the journey of one booking *)

Section InFlightFacts.
Import JS Mongo Lifecycle Race Store.

Lemma after_read_ok (now : Z) (r : Request) (b : Booking) : thread_ok (after_read now r b).
Proof.
  destruct r as [i f|i f|i]; cbn [after_read].
  - destruct (negb _); [exact I|]. destruct (optObjectId f); [reflexivity | exact I].
  - destruct (negb _); [exact I|]. destruct (optObjectId f); [reflexivity | exact I].
  - destruct (Status_eqb _ _); [exact I|]. destruct (negb _); [exact I | reflexivity].
Qed.

Lemma by_ref_id_ok (now : Z) (r : Request) (db : DB) : thread_ok (fst (by_ref_id now r db)).
Proof.
  unfold by_ref_id, Booking_findOne_ref_id.
  destruct (find _ (bookings db)); cbn [fst]; [apply after_read_ok | exact I].
Qed.

Lemma step_thread_ok (now : Z) (t : Thread) (db : DB) : thread_ok (fst (step now t db)).
Proof.
  destruct t as [r|r|r oid ev|res]; cbn [step].
  - destruct (ObjectId_isValid _); [|apply by_ref_id_ok].
    unfold Booking_findById. destruct (find _ (bookings db)); cbn [fst];
      [apply after_read_ok | exact I].
  - apply by_ref_id_ok.
  - destruct (Booking_findOneAndUpdate _ _ _ _ db) as [[[u|]|e] db']; exact I.
  - exact I.
Qed.

Lemma step_grows (now : Z) (t : Thread) (db : DB) :
  thread_ok t ->
  flights (snd (step now t db)) = flights db
  /\ Forall2 grows (bookings db) (bookings (snd (step now t db))).
Proof.
  intros Hok. destruct (step_db now t db) as [->|(r & oid & ev & -> & ->)].
  - split; [reflexivity | apply Forall2_grows_refl].
  - cbn [thread_ok] in Hok. rewrite <- Hok.
    split; [apply findOneAndUpdate_flights|].
    apply findOneAndUpdate_grows. rewrite Hok. apply expected_target.
Qed.

Lemma grows_extends (x y : Booking) : grows x y -> extends x y.
Proof.
  intros [Hi [->|(ev & Ht & _)]]; split; try exact Hi.
  - exists []. now rewrite app_nil_r.
  - now exists [ev].
Qed.

Lemma extends_trans (x y z : Booking) : extends x y -> extends y z -> extends x z.
Proof.
  intros [(A1 & A2 & A3 & A4 & A5 & A6 & A7) (l1 & T1)]
         [(B1 & B2 & B3 & B4 & B5 & B6 & B7) (l2 & T2)].
  split; [repeat split; congruence|].
  exists (l1 ++ l2)%list. rewrite T2, T1. now rewrite app_assoc.
Qed.

Lemma grows_then_extends (l1 l2 l3 : list Booking) :
  Forall2 grows l1 l2 -> Forall2 extends l2 l3 -> Forall2 extends l1 l3.
Proof.
  intros H. revert l3. induction H as [|x y l l' Hxy H IH]; intros l3 H3.
  - inversion H3. constructor.
  - inversion H3 as [|? y0 ? l0 Hy Hl0]; subst. apply Forall2_cons.
    + eapply extends_trans; [apply grows_extends; exact Hxy | exact Hy].
    + apply IH. exact Hl0.
Qed.

Lemma Forall2_grows_paths (l l' : list Booking) :
  Forall2 grows l l' -> Forall lifecycle_path l -> Forall lifecycle_path l'.
Proof.
  induction 1 as [|x y l l' Hxy H IH]; intros HP; [constructor|].
  inversion HP; subst. constructor; [eapply grows_path; eassumption | auto].
Qed.

Lemma replace_nth_ok (P : Thread -> Prop) (i : nat) (t : Thread) (l : list Thread) :
  P t -> Forall P l -> Forall P (replace_nth i t l).
Proof.
  intros Ht Hl. revert i. induction Hl as [|y l Hy Hl IH]; intros i.
  - destruct i; constructor.
  - destruct i; cbn [replace_nth]; constructor; auto.
Qed.

Lemma replace_nth_length (i : nat) (t : Thread) (l : list Thread) :
  List.length (replace_nth i t l) = List.length l.
Proof.
  revert i. induction l as [|y l IH]; intros i; [now destruct i|].
  destruct i; cbn [replace_nth List.length]; auto.
Qed.

Lemma sys_step_ok (s : Sys) (turn : nat * Z) :
  Forall thread_ok (threads s) ->
  Forall thread_ok (threads (sys_step s turn))
  /\ List.length (threads (sys_step s turn)) = List.length (threads s)
  /\ flights (sys_db (sys_step s turn)) = flights (sys_db s)
  /\ Forall2 grows (bookings (sys_db s)) (bookings (sys_db (sys_step s turn))).
Proof.
  intros Hok. destruct turn as [i now]. unfold sys_step.
  destruct (nth_error (threads s) i) as [t|] eqn:E.
  - assert (Ht : thread_ok t).
    { apply nth_error_In in E. revert t E. now apply Forall_forall. }
    pose proof (step_thread_ok now t (sys_db s)) as H1.
    pose proof (step_grows now t (sys_db s) Ht) as [H2 H3].
    destruct (step now t (sys_db s)) as [t' db']. cbn [fst snd threads sys_db] in *.
    split; [now apply replace_nth_ok|]. split; [apply replace_nth_length | auto].
  - split; [exact Hok|]. split; [reflexivity|]. split; [reflexivity|].
    apply Forall2_grows_refl.
Qed.

Lemma Forall2_extends_refl (l : list Booking) : Forall2 extends l l.
Proof.
  induction l; constructor; auto. split; [repeat split|]. exists []. now rewrite app_nil_r.
Qed.

Lemma run_ok (sched : list (nat * Z)) (s : Sys) :
  Forall lifecycle_path (bookings (sys_db s)) ->
  Forall thread_ok (threads s) ->
  Forall lifecycle_path (bookings (sys_db (run sched s)))
  /\ Forall thread_ok (threads (run sched s))
  /\ List.length (threads (run sched s)) = List.length (threads s)
  /\ flights (sys_db (run sched s)) = flights (sys_db s)
  /\ Forall2 extends (bookings (sys_db s)) (bookings (sys_db (run sched s))).
Proof.
  unfold run. revert s. induction sched as [|turn sched IH]; intros s HP Hok; cbn [fold_left].
  - repeat split; auto. apply Forall2_extends_refl.
  - destruct (sys_step_ok s turn Hok) as (H1 & H2 & H3 & H4).
    destruct (IH (sys_step s turn) (Forall2_grows_paths _ _ H4 HP) H1)
      as (I1 & I2 & I3 & I4 & I5).
    split; [exact I1|]. split; [exact I2|]. split; [congruence|]. split; [congruence|].
    exact (grows_then_extends _ _ _ H4 I5).
Qed.

End InFlightFacts.

(** X20. Requests in flight together. However the database operations of any
    number of depart, arrive and cancel requests interleave, every stored
    timeline stays a path of the transition table from BOOKED to the
    booking's status: no booking ever holds more than three events, and none
    is written once ARRIVED or CANCELLED is its status. The bookings keep
    their identity, their events are only ever added at the end, and the
    flights are not touched. *)
Theorem interleavings_keep_paths (sched : list (nat * Z)) (s : Race.Sys) :
  Forall Store.lifecycle_path (bookings (Race.sys_db s)) ->
  Forall Store.thread_ok (Race.threads s) ->
  let s' := Race.run sched s in
  flights (Race.sys_db s') = flights (Race.sys_db s)
  /\ List.length (Race.threads s') = List.length (Race.threads s)
  /\ Forall2 Store.extends (bookings (Race.sys_db s)) (bookings (Race.sys_db s'))
  /\ (forall b, In b (bookings (Race.sys_db s')) ->
        Store.lifecycle_path b /\ (List.length (timeline b) <= 3)%nat
        /\ status b <> DELIVERED)
  /\ (forall more, Forall2 (fun x y => (status x = ARRIVED \/ status x = CANCELLED) -> y = x)
                     (bookings (Race.sys_db s'))
                     (bookings (Race.sys_db (Race.run more s')))).
Proof.
  intros HP Hok. cbv zeta.
  destruct (run_ok sched s HP Hok) as (I1 & I2 & I3 & I4 & I5).
  split; [exact I4|]. split; [exact I3|]. split; [exact I5|]. split.
  - intros b Hb. assert (Hp : Store.lifecycle_path b).
    { revert b Hb. now apply Forall_forall. }
    split; [exact Hp|]. destruct (path_bounds b Hp) as (H1 & H2 & _). now split.
  - intros more.
    destruct (run_ok more (Race.run sched s) I1 I2) as (J1 & _ & _ & _ & J5).
    assert (Hfix : forall x y, Store.lifecycle_path x -> Store.lifecycle_path y ->
              Store.extends x y -> (status x = ARRIVED \/ status x = CANCELLED) -> y = x).
    { intros x y Hx Hy [(A1 & A2 & A3 & A4 & A5 & A6 & A7) (added & T)] Hs.
      assert (added = []).
      { destruct added as [|ev added]; [reflexivity|]. exfalso.
        destruct Hx as (_ & _ & Hlx). destruct Hy as (_ & Hcy & _).
        rewrite T, map_app in Hcy. cbn [map] in Hcy.
        revert Hlx Hcy. generalize (status x) Hs. generalize (map event (timeline x)).
        clear. intros l st Hs. induction l as [|a l IH]; cbn [last].
        - intros <-. destruct Hs; discriminate.
        - destruct l as [|c l].
          + cbn. intros <-. destruct Hs as [-> | ->]; cbn; discriminate.
          + intros Hl Hc. cbn [app Store.chained] in Hc.
            apply andb_true_iff in Hc as [_ Hc]. now apply IH. }
      subst added. rewrite app_nil_r in T.
      assert (status y = status x).
      { destruct Hx as (_ & _ & Hlx). destruct Hy as (_ & _ & Hly).
        rewrite <- Hlx, <- Hly, T. reflexivity. }
      destruct x, y. cbn in *. congruence. }
    revert I1 J1 J5.
    generalize (bookings (Race.sys_db (Race.run more (Race.run sched s)))).
    generalize (bookings (Race.sys_db (Race.run sched s))).
    intros l l' Hl Hl' H. induction H as [|x y l l' Hxy H IH]; [constructor|].
    inversion Hl; inversion Hl'; subst. constructor; [|now apply IH].
    now apply Hfix.
Qed.

Section JourneyFacts.
Import JS Mongo Lifecycle Store.

(** The booking stored last under a reference id no other booking carries. *)
Lemma lookup_last (i : string) (bs : list Booking) (y : Booking) :
  trim (toUpperCase i) = i -> ObjectId_isValid i = false ->
  (forall x, In x bs -> ref_id x <> i) -> ref_id y = i ->
  lookup i (bs ++ [y])%list = Some y.
Proof.
  intros Hn Hv Hfresh Hy. unfold lookup, byStoreId, byRefId. rewrite Hv, Hn.
  apply find_app_last.
  - intros x Hx. apply String.eqb_neq. now apply Hfresh.
  - rewrite Hy. apply String.eqb_refl.
Qed.

(** The conditional write on the booking stored last under its store id. *)
Lemma write_last (fl : list Flight) (bs : list Booking) (b : Booking)
    (expected : list Status) (s : Status) (ev : TimelineEvent) :
  (forall x, In x bs -> _id x <> _id b) -> includes expected (status b) = true ->
  Booking_findOneAndUpdate (_id b) expected s ev (mkDB fl (bs ++ [b])%list)
  = (Ok (Some (set_and_push s ev b)), mkDB fl (bs ++ [set_and_push s ev b])%list).
Proof.
  intros Hfresh Hst. unfold Booking_findOneAndUpdate. cbn [bookings flights].
  assert (E : updateFirst (fun x => String.eqb (_id x) (_id b) && includes expected (status x))
                (set_and_push s ev) (bs ++ [b])%list
              = (Some (set_and_push s ev b), (bs ++ [set_and_push s ev b])%list)).
  { induction bs as [|x bs IH]; cbn [app updateFirst].
    - now rewrite String.eqb_refl, Hst.
    - replace (String.eqb (_id x) (_id b)) with false
        by (symmetry; apply String.eqb_neq, Hfresh; now left).
      cbn [andb]. rewrite IH by (intros z Hz; apply Hfresh; now right). reflexivity. }
  now rewrite E.
Qed.

End JourneyFacts.

(** X21. The journey of a booking. A booking just created can be departed
    and then arrived under its reference id, whatever else is stored: both
    calls succeed, the booking keeps its place in the collection and ends
    ARRIVED with the three events BOOKED, DEPARTED, ARRIVED in that order;
    after that depart, arrive and cancel are all refused and change
    nothing, and history returns the booking as stored when the clock did
    not run backwards. It can instead be cancelled right after creation or
    after departure. *)
Theorem booked_cargo_journey (env : Lifecycle.SaveEnv) (data : Lifecycle.BookingData)
    (db db1 : DB) (b : Booking) (n1 n2 n3 : Z) (f1 f2 : option string)
    (fid1 fid2 : option ObjectId) :
  Lifecycle.createBooking env data db = (Mongo.Ok b, db1) ->
  Lifecycle.optObjectId f1 = Mongo.Ok fid1 ->
  Lifecycle.optObjectId f2 = Mongo.Ok fid2 ->
  let d := Mongo.set_and_push DEPARTED (mkEvent DEPARTED n1 fid1) b in
  let a := Mongo.set_and_push ARRIVED (mkEvent ARRIVED n2 fid2) d in
  let stored := fun x => mkDB (flights db) (bookings db ++ [x])%list in
  db1 = stored b
  /\ Lifecycle.departBooking n1 (ref_id b) f1 db1 = (Mongo.Ok d, stored d)
  /\ Lifecycle.arriveBooking n2 (ref_id b) f2 (stored d) = (Mongo.Ok a, stored a)
  /\ status a = ARRIVED
  /\ timeline a = [mkEvent BOOKED (Lifecycle.now env) None;
                   mkEvent DEPARTED n1 fid1; mkEvent ARRIVED n2 fid2]
  /\ Lifecycle.departBooking n3 (ref_id b) f1 (stored a)
     = (Mongo.Err (Mongo.CannotDepart ARRIVED), stored a)
  /\ Lifecycle.arriveBooking n3 (ref_id b) f2 (stored a)
     = (Mongo.Err (Mongo.CannotArrive ARRIVED), stored a)
  /\ Lifecycle.cancelBooking n3 (ref_id b) (stored a)
     = (Mongo.Err Mongo.CannotCancelArrived, stored a)
  /\ (Lifecycle.now env <= n1 <= n2 ->
      Lifecycle.getBookingHistory (ref_id b) (stored a) = (Mongo.Ok a, stored a))
  /\ (let c := Mongo.set_and_push CANCELLED (mkEvent CANCELLED n1 None) b in
      Lifecycle.cancelBooking n1 (ref_id b) db1 = (Mongo.Ok c, stored c))
  /\ (let c := Mongo.set_and_push CANCELLED (mkEvent CANCELLED n2 None) d in
      Lifecycle.cancelBooking n2 (ref_id b) (stored d) = (Mongo.Ok c, stored c)
      /\ Lifecycle.arriveBooking n3 (ref_id b) f2 (stored c)
         = (Mongo.Err (Mongo.CannotArrive CANCELLED), stored c)).
Proof.
  intros H O1 O2. cbv zeta.
  apply createBooking_ok in H
    as (-> & Hid & Hr & _ & _ & _ & _ & _ & _ & Hs & Ht & Hfresh).
  destruct (generateRefId_normal (Lifecycle.today env) (bookings db)) as (Hn & Hv & _).
  cbv zeta in Hn, Hv. rewrite <- Hr in Hn, Hv.
  assert (Hi : forall x, In x (bookings db) -> _id x <> _id b)
    by (intros x Hx; exact (proj1 (Hfresh x Hx))).
  assert (Hf : forall x, In x (bookings db) -> ref_id x <> ref_id b)
    by (intros x Hx; exact (proj2 (Hfresh x Hx))).
  assert (L : forall y, ref_id y = ref_id b ->
            Lifecycle.lookup (ref_id b) (bookings db ++ [y])%list = Some y)
    by (intros y Hy; now apply lookup_last).
  assert (W : forall y expected s ev, _id y = _id b ->
            Mongo.includes expected (status y) = true ->
            Mongo.Booking_findOneAndUpdate (_id y) expected s ev
              (mkDB (flights db) (bookings db ++ [y])%list)
            = (Mongo.Ok (Some (Mongo.set_and_push s ev y)),
               mkDB (flights db) (bookings db ++ [Mongo.set_and_push s ev y])%list)).
  { intros y expected s ev Hy Hst. apply write_last; [|exact Hst].
    intros x Hx. rewrite Hy. now apply Hi. }
  split; [reflexivity|].
  split.
  { rewrite departBooking_cases. cbn [bookings]. rewrite (L b eq_refl), Hs.
    cbn [Mongo.includes existsb Status_eqb orb]. rewrite O1.
    rewrite (W b) by (rewrite ?Hs; reflexivity). reflexivity. }
  split.
  { rewrite arriveBooking_cases. cbn [bookings]. rewrite L by reflexivity.
    cbn [Mongo.set_and_push status Mongo.includes existsb Status_eqb orb]. rewrite O2.
    match goal with |- context [Mongo.Booking_findOneAndUpdate ?i _ _ _ _] =>
      change i with (_id (Mongo.set_and_push DEPARTED (mkEvent DEPARTED n1 fid1) b)) end.
    rewrite W by reflexivity. reflexivity. }
  split; [reflexivity|].
  split; [cbn [Mongo.set_and_push timeline]; rewrite Ht; reflexivity|].
  split.
  { rewrite departBooking_cases. cbn [bookings]. rewrite L by reflexivity. reflexivity. }
  split.
  { rewrite arriveBooking_cases. cbn [bookings]. rewrite L by reflexivity. reflexivity. }
  split.
  { rewrite cancelBooking_cases. cbn [bookings]. rewrite L by reflexivity. reflexivity. }
  split.
  { intros Hclock. unfold Lifecycle.getBookingHistory, Mongo.bind.
    rewrite findBookingByIdentifier_lookup. cbn [bookings]. rewrite L by reflexivity.
    rewrite sort_by_of_sorted.
    - reflexivity.
    - cbn [Mongo.set_and_push timeline]. rewrite Ht. cbn.
      repeat constructor; lia. }
  split.
  { rewrite cancelBooking_cases. cbn [bookings]. rewrite (L b eq_refl), Hs.
    cbn [Mongo.includes existsb Status_eqb orb].
    rewrite (W b) by (rewrite ?Hs; reflexivity). reflexivity. }
  split.
  { rewrite cancelBooking_cases. cbn [bookings]. rewrite L by reflexivity.
    cbn [Mongo.set_and_push status Mongo.includes existsb Status_eqb orb].
    match goal with |- context [Mongo.Booking_findOneAndUpdate ?i _ _ _ _] =>
      change i with (_id (Mongo.set_and_push DEPARTED (mkEvent DEPARTED n1 fid1) b)) end.
    rewrite W by reflexivity. reflexivity. }
  rewrite arriveBooking_cases. cbn [bookings]. rewrite L by reflexivity. reflexivity.
Qed.

(** ** The further properties at the sample data *)

Lemma failed_operation_writes_nothing_witness :
  let op := Lifecycle.OpCancel 300 "BOOK-20260105-000001" in
  fst (Lifecycle.exec_op op Examples.db_arrived) = Mongo.Err Mongo.CannotCancelArrived
  /\ snd (Lifecycle.exec_op op Examples.db_arrived) = Examples.db_arrived.
Proof.
  cbv zeta. split; [vm_compute; reflexivity|].
  apply (failed_operation_writes_nothing
           (Lifecycle.OpCancel 300 "BOOK-20260105-000001") Examples.db_arrived _
           Mongo.CannotCancelArrived).
  vm_compute. reflexivity.
Defined.

Lemma timelines_are_table_paths_witness :
  Forall Store.lifecycle_path (bookings Examples.db0)
  /\ map status (bookings (Lifecycle.exec_ops Samples.life Examples.db0)) = [ARRIVED]
  /\ forall b, In b (bookings (Lifecycle.exec_ops Samples.life Examples.db0)) ->
       Store.lifecycle_path b /\ (List.length (timeline b) <= 3)%nat.
Proof.
  assert (H0 : Forall Store.lifecycle_path (bookings Examples.db0)) by constructor.
  split; [exact H0|]. split; [vm_compute; reflexivity|].
  intros b Hb.
  destruct (timelines_are_table_paths Samples.life Examples.db0 H0 b Hb) as (H1 & H2 & _).
  now split.
Defined.

Lemma unique_keys_kept_witness :
  Store.unique_keys Examples.db0
  /\ Store.unique_keys (Lifecycle.exec_ops Samples.life Examples.db0).
Proof.
  assert (H0 : Store.unique_keys Examples.db0) by (split; constructor).
  split; [exact H0|].
  exact (unique_keys_kept Samples.life Examples.db0 H0).
Defined.

Lemma stored_bookings_schema_ok_witness :
  Forall Store.schema_ok (bookings Examples.db0)
  /\ map origin (bookings (Lifecycle.exec_ops Samples.life Examples.db0)) = ["DEL"]
  /\ Forall Store.schema_ok (bookings (Lifecycle.exec_ops Samples.life Examples.db0)).
Proof.
  assert (H0 : Forall Store.schema_ok (bookings Examples.db0)) by constructor.
  split; [exact H0|]. split; [vm_compute; reflexivity|].
  exact (stored_bookings_schema_ok Samples.life Examples.db0 H0).
Defined.

Lemma transition_decision_witness :
  NoDup (map _id (bookings Examples.db1))
  /\ Lifecycle.lookup "book-20260105-000001" (bookings Examples.db1) = Some Examples.booking1
  /\ Lifecycle.optObjectId (Some "AAAAAAAAAAAAAAAAAAAAAAA1") = Mongo.Ok (Some "aaaaaaaaaaaaaaaaaaaaaaa1")
  /\ status Examples.booking1 = BOOKED
  /\ (let u := Mongo.set_and_push DEPARTED
                 (mkEvent DEPARTED 200 (Some "aaaaaaaaaaaaaaaaaaaaaaa1")) Examples.booking1 in
      fst (Lifecycle.departBooking 200 "book-20260105-000001"
             (Some "AAAAAAAAAAAAAAAAAAAAAAA1") Examples.db1) = Mongo.Ok u)
  /\ Lifecycle.arriveBooking 200 "book-20260105-000001" (Some "AAAAAAAAAAAAAAAAAAAAAAA1")
       Examples.db_arrived
     = (Mongo.Err (Mongo.CannotArrive ARRIVED), Examples.db_arrived).
Proof.
  assert (Hnd : NoDup (map _id (bookings Examples.db1))).
  { cbn. constructor; [intros []|constructor]. }
  assert (Hnd' : NoDup (map _id (bookings Examples.db_arrived))).
  { cbn. constructor; [intros []|constructor]. }
  assert (Hl : Lifecycle.lookup "book-20260105-000001" (bookings Examples.db1)
               = Some Examples.booking1) by (vm_compute; reflexivity).
  assert (Hl' : Lifecycle.lookup "book-20260105-000001" (bookings Examples.db_arrived)
                = Some Examples.arrived1) by (vm_compute; reflexivity).
  assert (Hf : Lifecycle.optObjectId (Some "AAAAAAAAAAAAAAAAAAAAAAA1")
               = Mongo.Ok (Some "aaaaaaaaaaaaaaaaaaaaaaa1")) by (vm_compute; reflexivity).
  split; [exact Hnd|]. split; [exact Hl|]. split; [exact Hf|]. split; [reflexivity|].
  split.
  - cbv zeta.
    destruct (transition_decision Examples.db1 _ Examples.booking1 200 _ _ Hnd Hl Hf)
      as (Hd & _).
    destruct (Hd eq_refl) as [E _]. rewrite E. reflexivity.
  - destruct (transition_decision Examples.db_arrived _ Examples.arrived1 200 _ _
                Hnd' Hl' Hf) as (_ & _ & _ & Ha & _).
    apply Ha; discriminate.
Defined.

Lemma fresh_ref_id_witness :
  Store.day_well_formed (RefId.prefixOf Examples.jan5) Examples.day_bookings
  /\ ~ In (RefId.prefixOf Examples.jan5 ++ "999999") (map ref_id Examples.day_bookings)
  /\ RefId.generateRefId Examples.jan5 Examples.day_bookings = "BOOK-20260105-000010"
  /\ ~ In (RefId.generateRefId Examples.jan5 Examples.day_bookings)
          (map ref_id Examples.day_bookings).
Proof.
  assert (Hwf : Store.day_well_formed (RefId.prefixOf Examples.jan5) Examples.day_bookings).
  { intros b Hb Hp. cbn in Hb.
    destruct Hb as [<-|[<-|[<-|[<-|[]]]]];
      try (vm_compute in Hp; discriminate);
      [exists "000001" | exists "000009" | exists "000003"];
      (split; [vm_compute; reflexivity | split; reflexivity]). }
  assert (Hnf : ~ In (RefId.prefixOf Examples.jan5 ++ "999999")
                     (map ref_id Examples.day_bookings)).
  { vm_compute. intros H. repeat (destruct H as [H|H]; [discriminate|]). exact H. }
  split; [exact Hwf|]. split; [exact Hnf|]. split; [vm_compute; reflexivity|].
  destruct (fresh_ref_id Examples.jan5 Examples.day_bookings Hwf Hnf)
    as (sfx & _ & _ & _ & Hfresh & _).
  exact Hfresh.
Defined.

Lemma create_takes_fresh_ref_id_witness :
  RefId.valid_date (Lifecycle.today Samples.env2)
  /\ Store.day_well_formed (RefId.prefixOf (Lifecycle.today Samples.env2))
       (bookings Samples.db_day)
  /\ ~ In (RefId.prefixOf (Lifecycle.today Samples.env2) ++ "999999")
          (map ref_id (bookings Samples.db_day))
  /\ (forall x, In x (bookings Samples.db_day) -> _id x <> Lifecycle.new_id Samples.env2)
  /\ (exists b db', Lifecycle.createBooking Samples.env2 Samples.data2 Samples.db_day
                    = (Mongo.Ok b, db')
                    /\ ref_id b = "BOOK-20260105-000010")
  /\ (forall e db', Lifecycle.createBooking Samples.env2 Samples.data2 Samples.db_day
                    = (Mongo.Err e, db') -> e <> Mongo.DuplicateKey)
  /\ (exists b db',
        Creation.createBooking_overlapped Samples.env2 Samples.env3
                                          Samples.data2 Samples.data3 Samples.db_day
        = (Mongo.Ok b, Mongo.Err Mongo.DuplicateKey, db')
        /\ ref_id b = "BOOK-20260105-000010"
        /\ List.length (bookings db') = S (List.length (bookings Samples.db_day))).
Proof.
  assert (Hv : RefId.valid_date (Lifecycle.today Samples.env2))
    by (unfold RefId.valid_date; cbn; lia).
  assert (Hwf : Store.day_well_formed (RefId.prefixOf (Lifecycle.today Samples.env2))
                  (bookings Samples.db_day)).
  { intros b Hb Hp. cbn in Hb.
    destruct Hb as [<-|[<-|[<-|[<-|[]]]]];
      try (vm_compute in Hp; discriminate);
      [exists "000001" | exists "000009" | exists "000003"];
      (split; [vm_compute; reflexivity | split; reflexivity]). }
  assert (Hnf : ~ In (RefId.prefixOf (Lifecycle.today Samples.env2) ++ "999999")
                     (map ref_id (bookings Samples.db_day))).
  { vm_compute. intros H. repeat (destruct H as [H|H]; [discriminate|]). exact H. }
  assert (Hid : forall x, In x (bookings Samples.db_day) ->
                          _id x <> Lifecycle.new_id Samples.env2).
  { intros x Hx. cbn in Hx.
    destruct Hx as [<-|[<-|[<-|[<-|[]]]]]; vm_compute; discriminate. }
  split; [exact Hv|]. split; [exact Hwf|]. split; [exact Hnf|]. split; [exact Hid|].
  split.
  - eexists. eexists. split; [vm_compute; reflexivity | reflexivity].
  - destruct (create_takes_fresh_ref_id Samples.env2 Samples.data2 Samples.db_day
                Hv Hwf Hnf Hid) as (Halone & _ & Hrace).
    split; [exact Halone|].
    destruct (Lifecycle.createBooking Samples.env2 Samples.data2 Samples.db_day)
      as [[b1|e1] db1] eqn:E1; [|vm_compute in E1; discriminate].
    destruct (Lifecycle.createBooking Samples.env3 Samples.data3 Samples.db_day)
      as [[b2|e2] db2] eqn:E2; [|vm_compute in E2; discriminate].
    destruct (Hrace Samples.env3 Samples.data3 b1 db1 b2 db2 eq_refl eq_refl E2)
      as (_ & Hover & _ & Hdb & _).
    exists b1, db1. split; [exact Hover|].
    vm_compute in E1. inversion E1; subst b1 db1. split; reflexivity.
Defined.

Lemma day_sequence_exhausted_witness :
  let p := RefId.prefixOf (Lifecycle.today Samples.env2) in
  RefId.valid_date (Lifecycle.today Samples.env2)
  /\ p = "BOOK-20260105-"
  /\ (forall b, In b (bookings Samples.db_day_full) -> JS.startsWith p (ref_id b) = true ->
        exists ds, ref_id b = p ++ ds /\ RefId.all_digits ds = true
                   /\ (String.length ds = 6%nat \/ ds = "1000000"))
  /\ In (p ++ "999999") (map ref_id (bookings Samples.db_day_full))
  /\ In (p ++ "1000000") (map ref_id (bookings Samples.db_day_full))
  /\ RefId.generateRefId (Lifecycle.today Samples.env2) (bookings Samples.db_day_full)
     = "BOOK-20260105-1000000"
  /\ Lifecycle.createBooking Samples.env2 Samples.data2 Samples.db_day_full
     = (Mongo.Err Mongo.DuplicateKey, Samples.db_day_full).
Proof.
  cbv zeta.
  assert (Hv : RefId.valid_date (Lifecycle.today Samples.env2))
    by (unfold RefId.valid_date; cbn; lia).
  assert (Hday : forall b, In b (bookings Samples.db_day_full) ->
            JS.startsWith (RefId.prefixOf (Lifecycle.today Samples.env2)) (ref_id b) = true ->
            exists ds, ref_id b = RefId.prefixOf (Lifecycle.today Samples.env2) ++ ds
                       /\ RefId.all_digits ds = true
                       /\ (String.length ds = 6%nat \/ ds = "1000000")).
  { intros b Hb _. cbn in Hb. destruct Hb as [<-|[<-|[]]];
      [exists "999999" | exists "1000000"];
      (split; [vm_compute; reflexivity | split; [reflexivity | auto]]). }
  assert (H9 : In (RefId.prefixOf (Lifecycle.today Samples.env2) ++ "999999")
                  (map ref_id (bookings Samples.db_day_full)))
    by (vm_compute; left; reflexivity).
  assert (H10 : In (RefId.prefixOf (Lifecycle.today Samples.env2) ++ "1000000")
                   (map ref_id (bookings Samples.db_day_full)))
    by (vm_compute; right; left; reflexivity).
  split; [exact Hv|]. split; [vm_compute; reflexivity|]. split; [exact Hday|].
  split; [exact H9|]. split; [exact H10|].
  destruct (day_sequence_exhausted Samples.env2 Samples.data2 Samples.db_day_full
              Hv Hday H9) as (Hg & _ & Hfail).
  split.
  - rewrite Hg. vm_compute. reflexivity.
  - vm_compute. reflexivity.
Defined.

Lemma transition_status_codes_witness :
  Samples.bson_text <> "Booking not found"
  /\ Http.includes_text "Cannot depart" Samples.bson_text = false
  /\ Http.includes_text "Cannot arrive" Samples.bson_text = false
  /\ fst (Lifecycle.departBooking 200 "bbbbbbbbbbbbbbbbbbbbbbb1" (Some "no-flight") Examples.db1)
     = Mongo.Err Mongo.BSONError
  /\ Http.response_code
       (fst (Http.postDepart Samples.bson_text 200 "bbbbbbbbbbbbbbbbbbbbbbb1"
               (Some "no-flight") Examples.db1)) = 500
  /\ Http.response_code
       (fst (Http.postCancel Samples.bson_text 200 "bbbbbbbbbbbbbbbbbbbbbbb1"
               Examples.db_arrived)) = 400.
Proof.
  assert (H1 : Samples.bson_text <> "Booking not found") by discriminate.
  assert (H2 : Http.includes_text "Cannot depart" Samples.bson_text = false)
    by (vm_compute; reflexivity).
  assert (H3 : Http.includes_text "Cannot arrive" Samples.bson_text = false)
    by (vm_compute; reflexivity).
  split; [exact H1|]. split; [exact H2|]. split; [exact H3|].
  split; [vm_compute; reflexivity|].
  split.
  - destruct (transition_status_codes Samples.bson_text 200 "bbbbbbbbbbbbbbbbbbbbbbb1"
                (Some "no-flight") Examples.db1 H1 H2 H3) as (Hd & _).
    rewrite Hd. vm_compute. reflexivity.
  - destruct (transition_status_codes Samples.bson_text 200 "bbbbbbbbbbbbbbbbbbbbbbb1"
                None Examples.db_arrived H1 H2 H3) as (_ & _ & Hc & _).
    rewrite Hc. vm_compute. reflexivity.
Defined.

Lemma interleavings_keep_paths_witness :
  Forall Store.lifecycle_path (bookings (Race.sys_db Examples.arrive_and_depart))
  /\ Forall Store.thread_ok (Race.threads Examples.arrive_and_depart)
  /\ map (fun b => map event (timeline b))
         (bookings (Race.sys_db (Race.run Examples.arrival_overtaken
                                           Examples.arrive_and_depart)))
     = [[BOOKED; DEPARTED; ARRIVED]]
  /\ forall b, In b (bookings (Race.sys_db (Race.run Examples.arrival_overtaken
                                                      Examples.arrive_and_depart))) ->
               Store.lifecycle_path b.
Proof.
  assert (HP : Forall Store.lifecycle_path (bookings (Race.sys_db Examples.arrive_and_depart))).
  { constructor; [|constructor]. repeat split. }
  assert (HT : Forall Store.thread_ok (Race.threads Examples.arrive_and_depart)).
  { constructor; [exact I|]. constructor; [exact I|]. constructor. }
  split; [exact HP|]. split; [exact HT|]. split; [vm_compute; reflexivity|].
  intros b Hb.
  destruct (interleavings_keep_paths Examples.arrival_overtaken Examples.arrive_and_depart
              HP HT) as (_ & _ & _ & Hpaths & _).
  exact (proj1 (Hpaths b Hb)).
Defined.

Lemma booked_cargo_journey_witness :
  Lifecycle.createBooking Examples.env1 Examples.data1 Examples.db0
  = (Mongo.Ok Examples.booking1, Examples.db1)
  /\ Lifecycle.optObjectId None = Mongo.Ok None
  /\ (let d := Mongo.set_and_push DEPARTED (mkEvent DEPARTED 200 None) Examples.booking1 in
      let a := Mongo.set_and_push ARRIVED (mkEvent ARRIVED 300 None) d in
      Lifecycle.arriveBooking 300 "BOOK-20260105-000001" None
        (mkDB (flights Examples.db0) (bookings Examples.db0 ++ [d]))
      = (Mongo.Ok a, mkDB (flights Examples.db0) (bookings Examples.db0 ++ [a]))
      /\ map event (timeline a) = [BOOKED; DEPARTED; ARRIVED]).
Proof.
  assert (H : Lifecycle.createBooking Examples.env1 Examples.data1 Examples.db0
              = (Mongo.Ok Examples.booking1, Examples.db1)) by (vm_compute; reflexivity).
  split; [exact H|]. split; [reflexivity|]. cbv zeta.
  destruct (booked_cargo_journey Examples.env1 Examples.data1 Examples.db0 Examples.db1
              Examples.booking1 200 300 400 None None None None H eq_refl eq_refl)
    as (_ & _ & Ha & _ & Ht & _).
  split; [exact Ha|]. rewrite Ht. reflexivity.
Defined.

Lemma search_window_witness :
  let z := Samples.new_york in
  let s := Routes.setHours_start z Samples.nov4 in
  let e := Routes.setHours_end z Samples.nov4 in
  let found := Routes.getRoutes z Samples.ny_catalog "jfk" "lax" Samples.nov4 in
  Samples.nov4 = 20031 * Routes.msPerDay
  /\ Routes.local_day z Samples.nov4 = 20030
  /\ e - s = 86399999 + 3600000
  /\ (forall t, s <= t <= e <-> Routes.local_day z t = 20030)
  /\ departureDateTime Samples.lateDirectF = s + 88200000
  /\ In Samples.lateDirectF (map Routes.direct_flight (Routes.direct found)).
Proof.
  cbv zeta.
  destruct (search_window Samples.new_york Samples.ny_catalog "jfk" "lax" Samples.nov4)
    as (_ & _ & Hfound & _ & _ & _ & _ & Hwhole & _ & Hchange).
  destruct (Hchange _ _ _ eq_refl) as (Hlen & Hs & He);
    [vm_compute; discriminate | vm_compute; discriminate |].
  split; [reflexivity|]. split; [reflexivity|]. split; [exact Hlen|].
  split; [exact (proj2 (Hwhole Hs He))|].
  split; [reflexivity|].
  apply (Hfound Samples.lateDirectF); [right; right; now left | reflexivity | reflexivity |].
  vm_compute. split; discriminate.
Defined.

Lemma direct_routes_witness :
  let z := Samples.new_york in
  let D := Routes.local_day z Samples.nov4 in
  Routes.day_starts z D /\ Routes.day_ends z D
  /\ Routes.local_day z (departureDateTime Samples.lateDirectF) = D
  /\ In (Routes.mkDirect Samples.lateDirectF 360)
        (Routes.direct (Routes.getRoutes z Samples.ny_catalog "jfk" "lax" Samples.nov4)).
Proof.
  cbv zeta.
  assert (Hs : Routes.day_starts Samples.new_york
                 (Routes.local_day Samples.new_york Samples.nov4))
    by (apply one_change_day_starts; left; vm_compute; discriminate).
  assert (He : Routes.day_ends Samples.new_york
                 (Routes.local_day Samples.new_york Samples.nov4))
    by (apply one_change_day_ends; right; vm_compute; discriminate).
  split; [exact Hs|]. split; [exact He|]. split; [reflexivity|].
  destruct (direct_routes Samples.new_york Samples.ny_catalog "jfk" "lax" Samples.nov4)
    as (_ & Hday & _).
  apply (Hday Hs He). exists Samples.lateDirectF.
  split; [right; right; now left|]. repeat split; reflexivity.
Defined.

Lemma transit_routes_witness :
  let z := Samples.new_york in
  let D := Routes.local_day z Samples.nov3 in
  let r := Routes.mkTransit Samples.nightLegF Samples.lateLegF "MIA" 2895 3270 in
  Routes.day_starts z D /\ Routes.day_ends z D
  /\ (forall f, In f Samples.ny_catalog ->
        Routes.reads_back z (Routes.LocalTime z (arrivalDateTime f) + Routes.msPerDay)
        /\ Routes.day_ends z (Routes.local_day z (arrivalDateTime f) + 1))
  /\ Routes.local_day z (departureDateTime Samples.lateLegF)
     = Routes.local_day z (arrivalDateTime Samples.nightLegF) + 1
  /\ In r (Routes.transit (Routes.getRoutes z Samples.ny_catalog "jfk" "lax" Samples.nov3)).
Proof.
  cbv zeta.
  assert (Hs : Routes.day_starts Samples.new_york
                 (Routes.local_day Samples.new_york Samples.nov3))
    by (apply one_change_day_starts; left; vm_compute; discriminate).
  assert (He : Routes.day_ends Samples.new_york
                 (Routes.local_day Samples.new_york Samples.nov3))
    by (apply one_change_day_ends; left; vm_compute; reflexivity).
  assert (Hcat : forall f, In f Samples.ny_catalog ->
            Routes.reads_back Samples.new_york
              (Routes.LocalTime Samples.new_york (arrivalDateTime f) + Routes.msPerDay)
            /\ Routes.day_ends Samples.new_york
                 (Routes.local_day Samples.new_york (arrivalDateTime f) + 1)).
  { intros f [<-|[<-|[<-|[]]]];
      (split; [vm_compute; reflexivity
              | apply one_change_day_ends; right; vm_compute; discriminate]). }
  split; [exact Hs|]. split; [exact He|]. split; [exact Hcat|]. split; [reflexivity|].
  apply (proj2 (transit_routes Samples.new_york Samples.ny_catalog "jfk" "lax" Samples.nov3
                  _) Hs He Hcat).
  exists Samples.nightLegF, Samples.lateLegF.
  split; [now left|]. split; [right; now left|].
  split; [reflexivity|]. split; [discriminate|]. split; [reflexivity|].
  split; [reflexivity|]. split; [reflexivity|].
  split; [vm_compute; discriminate|]. split; [vm_compute; discriminate | reflexivity].
Defined.

(** ** The timeline of a stored booking *)

Section TimelinePaths.
Import JS Mongo Lifecycle Store.

Lemma created_path (env : SaveEnv) (data : BookingData) (db : DB) (b : Booking) (db' : DB) :
  createBooking env data db = (Ok b, db') -> lifecycle_path b.
Proof.
  intros E.
  apply createBooking_ok in E as (_ & _ & _ & _ & _ & _ & _ & _ & _ & Hs & Ht & _).
  unfold lifecycle_path. rewrite Ht, Hs. now repeat split.
Qed.

Lemma called_ok (requests : list Race.Request) : Forall thread_ok (map Race.Called requests).
Proof. induction requests; constructor; [exact I | assumption]. Qed.

(** Every stretch of service keeps the timelines paths of the table. *)
Lemma serve_paths (s : Stretch) (db : DB) :
  Forall lifecycle_path (bookings db) -> Forall lifecycle_path (bookings (serve db s)).
Proof.
  intros H. destruct s as [ops|requests sched]; cbn [serve].
  - apply (exec_ops_Forall lifecycle_path); [exact grows_path | exact created_path | exact H].
  - exact (proj1 (run_ok sched (Race.mkSys db (map Race.Called requests)) H
                         (called_ok requests))).
Qed.

Lemma serve_all_paths (l : list Stretch) (db : DB) :
  Forall lifecycle_path (bookings db) -> Forall lifecycle_path (bookings (serve_all l db)).
Proof.
  unfold serve_all. revert db.
  induction l as [|s l IH]; intros db H; cbn [fold_left]; [exact H|].
  apply IH. now apply serve_paths.
Qed.

Lemma path_opens (b : Booking) :
  lifecycle_path b ->
  timeline b <> [] /\ option_map event (hd_error (timeline b)) = Some BOOKED.
Proof.
  intros (Hh & _). destruct (timeline b) as [|ev l]; [discriminate|].
  split; [discriminate | exact Hh].
Qed.

End TimelinePaths.

(** C7, as amended. Start from a store with no bookings. However create,
    depart, arrive and cancel are served - one after another, or with the
    database operations of departures, arrivals and cancellations in flight
    together taken in any order, under any clock readings - every stored
    booking has a timeline that is not empty and whose first event is
    BOOKED; its events are a path of the transition table from BOOKED to its
    status. When the operations are served one after another and their
    clock readings do not decrease, the timestamps of every timeline do not
    decrease either. *)
Theorem timeline_invariant (db : DB) :
  bookings db = [] ->
  (forall stretches b,
      In b (bookings (Store.serve_all stretches db)) ->
      timeline b <> []
      /\ option_map event (hd_error (timeline b)) = Some BOOKED
      /\ Store.lifecycle_path b)
  /\ (forall ops,
        Sorted Z.le (flat_map Lifecycle.op_time ops) ->
        forall b, In b (bookings (Lifecycle.exec_ops ops db)) -> Lifecycle.timeline_ok b).
Proof.
  intros He. split.
  - intros stretches b Hb.
    assert (Hp : Store.lifecycle_path b).
    { revert b Hb. apply Forall_forall. apply serve_all_paths. rewrite He. constructor. }
    destruct (path_opens b Hp) as [H1 H2].
    split; [exact H1|]. split; [exact H2 | exact Hp].
  - intros ops Hs. apply exec_ops_timelines.
    + apply Sorted_StronglySorted; [|exact Hs]. intros x y z. apply Z.le_trans.
    + rewrite He. intros b [].
Qed.

(** C7, counterexample. A booking is created; an arrival and a departure of
    it are in flight together, under clock readings that increase. The
    arrival stamps its event, the departure stamps its own and writes, and
    the arrival's write lands last: both succeed, and the stored timeline
    runs BOOKED at 100, DEPARTED at 202, ARRIVED at 201. *)
Lemma timeline_order_broken_by_overtaking :
  snd (Lifecycle.createBooking Examples.env1 Examples.data1 Examples.db0) = Examples.db1
  /\ Sorted Z.lt (map snd Examples.arrival_overtaken)
  /\ forallb Race.succeeded
       (Race.threads (Race.run Examples.arrival_overtaken Examples.arrive_and_depart)) = true
  /\ exists b,
       In b (bookings (Race.sys_db (Race.run Examples.arrival_overtaken
                                              Examples.arrive_and_depart)))
       /\ map timestamp (timeline b) = [100; 202; 201]
       /\ ~ Lifecycle.timeline_ok b.
Proof.
  split; [vm_compute; reflexivity|].
  split; [cbn; repeat constructor|].
  split; [vm_compute; reflexivity|].
  eexists. split; [vm_compute; left; reflexivity|].
  split; [reflexivity|].
  intros (_ & Hs & _). cbn in Hs.
  inversion Hs as [|? ? Hs' _]; subst.
  inversion Hs' as [|? ? _ Hhd]; subst.
  inversion Hhd; subst. lia.
Qed.

Lemma timeline_invariant_witness :
  let ops := [Lifecycle.OpCreate Examples.env1 Examples.data1;
              Lifecycle.OpDepart 200 "bbbbbbbbbbbbbbbbbbbbbbb1" None;
              Lifecycle.OpArrive 300 "BOOK-20260105-000001" None;
              Lifecycle.OpCancel 400 "BOOK-20260105-000001"] in
  let overtaken :=
    [Store.Alone [Lifecycle.OpCreate Examples.env1 Examples.data1];
     Store.Together [Race.Arrive "bbbbbbbbbbbbbbbbbbbbbbb1" None;
                     Race.Depart "bbbbbbbbbbbbbbbbbbbbbbb1" None]
                    Examples.arrival_overtaken] in
  bookings Examples.db0 = []
  /\ Sorted Z.le (flat_map Lifecycle.op_time ops)
  /\ map status (bookings (Lifecycle.exec_ops ops Examples.db0)) = [ARRIVED]
  /\ (forall b, In b (bookings (Lifecycle.exec_ops ops Examples.db0)) ->
                Lifecycle.timeline_ok b)
  /\ map (fun b => map timestamp (timeline b))
         (bookings (Store.serve_all overtaken Examples.db0)) = [[100; 202; 201]]
  /\ (forall b, In b (bookings (Store.serve_all overtaken Examples.db0)) ->
                timeline b <> []
                /\ option_map event (hd_error (timeline b)) = Some BOOKED).
Proof.
  cbv zeta.
  assert (Hs : Sorted Z.le (flat_map Lifecycle.op_time
                 [Lifecycle.OpCreate Examples.env1 Examples.data1;
                  Lifecycle.OpDepart 200 "bbbbbbbbbbbbbbbbbbbbbbb1" None;
                  Lifecycle.OpArrive 300 "BOOK-20260105-000001" None;
                  Lifecycle.OpCancel 400 "BOOK-20260105-000001"])).
  { cbn. repeat constructor; cbn; lia. }
  destruct (timeline_invariant Examples.db0 eq_refl) as [Hany Hseq].
  split; [reflexivity|]. split; [exact Hs|]. split; [vm_compute; reflexivity|].
  split; [exact (Hseq _ Hs)|]. split; [vm_compute; reflexivity|].
  intros b Hb. destruct (Hany _ b Hb) as (H1 & H2 & _). now split.
Defined.
